(** * citeease-cli: identifier classification, source adapters, renderer
      adapter and the [config] subcommand, embedded from
      [src/index.ts], [src/CSLJsonParser.ts] and [src/common.ts]. *)

From Stdlib Require Import List NArith ZArith Bool String Ascii DecimalString Lia.
Import ListNotations.

Set Implicit Arguments.
Set Warnings "-register-all".
Set Warnings "-abstract-large-number".
Local Open Scope N_scope.

(** ** JavaScript strings

    A JavaScript string is a sequence of UTF-16 code units.  A code unit is
    kept as an [N]; string literals of the source are written [lit "..."]. *)

Definition char := N.
Definition jstr := list char.

Definition lit (s : string) : jstr :=
  map N_of_ascii (list_ascii_of_string s).

Definition ch (a : ascii) : char := N_of_ascii a.

Definition jstr_eqb (a b : jstr) : bool :=
  if list_eq_dec N.eq_dec a b then true else false.

Definition inRange (lo hi c : char) : bool := (N.leb lo c && N.leb c hi)%bool.

Definition oneOf (set : string) (c : char) : bool :=
  existsb (N.eqb c) (lit set).

(** WhiteSpace and LineTerminator code units: what [String.prototype.trim]
    strips and what [\s] matches. *)
Definition isWhiteSpace (c : char) : bool :=
  (inRange 9 13 c || N.eqb c 32 || N.eqb c 160 || N.eqb c 5760
   || inRange 8192 8202 c || N.eqb c 8232 || N.eqb c 8233 || N.eqb c 8239
   || N.eqb c 8287 || N.eqb c 12288 || N.eqb c 65279)%bool.

Fixpoint trimStart (s : jstr) : jstr :=
  match s with
  | [] => []
  | c :: s' => if isWhiteSpace c then trimStart s' else s
  end.

Definition trimEnd (s : jstr) : jstr := rev (trimStart (rev s)).

Definition trim (s : jstr) : jstr := trimEnd (trimStart s).

(** [s.startsWith(p)] *)
Fixpoint startsWith (s p : jstr) {struct p} : bool :=
  match p, s with
  | [], _ => true
  | _ :: _, [] => false
  | c :: p', d :: s' => (N.eqb c d && startsWith s' p')%bool
  end.

(** [s.slice(n)] for [0 <= n] *)
Definition slice (s : jstr) (n : nat) : jstr := skipn n s.

(** [s.replace(/-/g, "")] *)
Definition stripHyphens (s : jstr) : jstr :=
  filter (fun c => negb (N.eqb c (ch "-"))) s.

(** ** Regular expressions

    The patterns of the source use literals, character classes, grouping,
    [?], [+] and bounded repetition, anchored at both ends; [RegExp.test]
    on such a pattern is language membership, decided here with
    derivatives. *)

Inductive re : Type :=
| Never
| Eps
| Chr (p : char -> bool)
| Cat (a b : re)
| Alt (a b : re)
| Star (a : re).

Definition Opt (a : re) : re := Alt Eps a.
Definition Plus (a : re) : re := Cat a (Star a).

Fixpoint Str (s : jstr) : re :=
  match s with
  | [] => Eps
  | c :: s' => Cat (Chr (N.eqb c)) (Str s')
  end.

Fixpoint Times (n : nat) (a : re) : re :=
  match n with
  | O => Eps
  | S k => Cat a (Times k a)
  end.

Fixpoint UpTo (n : nat) (a : re) : re :=
  match n with
  | O => Eps
  | S k => Opt (Cat a (UpTo k a))
  end.

(** [a{m,n}] with [m <= n], given as [m] and [n - m] *)
Definition Rep (m extra : nat) (a : re) : re := Cat (Times m a) (UpTo extra a).

Fixpoint nullable (r : re) : bool :=
  match r with
  | Never => false
  | Eps => true
  | Chr _ => false
  | Cat a b => (nullable a && nullable b)%bool
  | Alt a b => (nullable a || nullable b)%bool
  | Star _ => true
  end.

Fixpoint deriv (c : char) (r : re) : re :=
  match r with
  | Never => Never
  | Eps => Never
  | Chr p => if p c then Eps else Never
  | Cat a b =>
      if nullable a then Alt (Cat (deriv c a) b) (deriv c b)
      else Cat (deriv c a) b
  | Alt a b => Alt (deriv c a) (deriv c b)
  | Star a => Cat (deriv c a) (Star a)
  end.

(** [/^r$/.test(s)] *)
Fixpoint test (r : re) (s : jstr) : bool :=
  match s with
  | [] => nullable r
  | c :: s' => test (deriv c r) s'
  end.

(** A syntactic check that a pattern matches nothing. *)
Fixpoint void (r : re) : bool :=
  match r with
  | Never => true
  | Eps => false
  | Chr _ => false
  | Cat a b => (void a || void b)%bool
  | Alt a b => (void a && void b)%bool
  | Star _ => false
  end.

(** ** The identifier classifier ([recognizeIdentifierType], index.ts) *)

Inductive IdentifierType : Type :=
| URL | DOI | PMCID | PMID | ISBN | Undefined.

(** [Object.entries(identifierPrefixes)], in insertion order *)
Definition identifierPrefixes : list (jstr * IdentifierType) :=
  [ (lit "url:", URL); (lit "doi:", DOI); (lit "pmcid:", PMCID);
    (lit "pmid:", PMID); (lit "isbn:", ISBN) ].

Definition digit : char -> bool := inRange (ch "0") (ch "9").
Definition lower : char -> bool := inRange (ch "a") (ch "z").
Definition upper : char -> bool := inRange (ch "A") (ch "Z").
Definition alnum (c : char) : bool := (lower c || upper c || digit c)%bool.

(** [[-._;()/:a-zA-Z0-9]] *)
Definition doiChar (c : char) : bool := (oneOf "-._;()/:" c || alnum c)%bool.

(** [[a-zA-Z0-9-._~:/?#[\]@!$&'()*+,;=]] *)
Definition urlChar (c : char) : bool :=
  (alnum c || oneOf "-._~:/?#[]@!$&'()*+,;=" c)%bool.

(** [https?:\/\/] *)
Definition scheme : re :=
  Cat (Str (lit "http")) (Cat (Opt (Chr (N.eqb (ch "s")))) (Str (lit "://"))).

(** [/^((https?:\/\/)?(?:dx\.)?doi\.org\/)?10\.\d{4,9}\/[-._;()/:a-zA-Z0-9]+$/] *)
Definition DOI_pattern : re :=
  Cat (Opt (Cat (Opt scheme) (Cat (Opt (Str (lit "dx."))) (Str (lit "doi.org/")))))
      (Cat (Str (lit "10."))
           (Cat (Rep 4%nat 5%nat (Chr digit))
                (Cat (Chr (N.eqb (ch "/"))) (Plus (Chr doiChar))))).

(** [/^(https?:\/\/)[a-zA-Z0-9-._~:/?#[\]@!$&'()*+,;=]+$/] *)
Definition URL_pattern : re := Cat scheme (Plus (Chr urlChar)).

(** [/^PMC\d+$/] *)
Definition PMCID_pattern : re := Cat (Str (lit "PMC")) (Plus (Chr digit)).

(** [/^\d{7,10}$/] *)
Definition PMID_pattern : re := Rep 7%nat 3%nat (Chr digit).

(** [/^(97[89])\d{9}(\d|X)$/] *)
Definition ISBN_pattern : re :=
  Cat (Str (lit "97"))
      (Cat (Chr (oneOf "89"))
           (Cat (Times 9%nat (Chr digit)) (Alt (Chr digit) (Chr (N.eqb (ch "X")))))).

(** [/.^/]: one character followed by the start of input, which no string
    satisfies. *)
Definition undefined_pattern : re := Cat (Chr (fun _ => true)) Never.

(** [Object.entries(patterns)], in insertion order *)
Definition patterns : list (IdentifierType * re) :=
  [ (DOI, DOI_pattern); (URL, URL_pattern); (PMCID, PMCID_pattern);
    (PMID, PMID_pattern); (ISBN, ISBN_pattern); (Undefined, undefined_pattern) ].

Fixpoint matchPrefix (trimmed : jstr) (entries : list (jstr * IdentifierType))
  : option (IdentifierType * jstr) :=
  match entries with
  | [] => None
  | (prefix, type) :: rest =>
      if startsWith trimmed prefix
      then Some (type, trim (slice trimmed (List.length prefix)))
      else matchPrefix trimmed rest
  end.

Fixpoint matchPattern (cleaned : jstr) (entries : list (IdentifierType * re))
  : option IdentifierType :=
  match entries with
  | [] => None
  | (type, pattern) :: rest =>
      if test pattern cleaned then Some type else matchPattern cleaned rest
  end.

Definition recognizeIdentifierType (input : jstr) : IdentifierType * jstr :=
  let trimmed := trim input in
  match matchPrefix trimmed identifierPrefixes with
  | Some r => r
  | None =>
      let cleaned := stripHyphens trimmed in
      match matchPattern cleaned patterns with
      | Some type => (type, trimmed)
      | None => (Undefined, trimmed)
      end
  end.

(** ** More string operations *)

Definition DQ : jstr := [34].
Definition ESC : jstr := [27].
Definition LF : jstr := [10].
Definition CR : jstr := [13].

Definition isEmpty (s : jstr) : bool :=
  match s with [] => true | _ => false end.

(** [a || b] on strings, where the empty string is falsy *)
Definition orElse (a b : jstr) : jstr := if isEmpty a then b else a.

(** A string or [undefined] ([None]), kept when it is truthy. *)
Definition present (x : option jstr) : option jstr :=
  match x with
  | Some s => if isEmpty s then None else Some s
  | None => None
  end.

(** [s.replace(pat, rep)] with a string pattern: the first occurrence *)
Fixpoint replaceFirst (pat rep s : jstr) : jstr :=
  if startsWith s pat then rep ++ skipn (List.length pat) s
  else match s with
       | [] => []
       | c :: s' => c :: replaceFirst pat rep s'
       end.

(** [s.replace(/^PMC/, "")] *)
Definition stripPMC (s : jstr) : jstr :=
  if startsWith s (lit "PMC") then skipn 3 s else s.

Fixpoint takeWhile (p : char -> bool) (s : jstr) : jstr :=
  match s with
  | [] => []
  | c :: s' => if p c then c :: takeWhile p s' else []
  end.

(** [s.match(/<l><cls>+/)]: the leftmost occurrence of the literal [l]
    followed by at least one character of the class, taken greedily;
    [None] is the [null] of a failed match, [Some m] is [match[0]]. *)
Fixpoint matchLitPlus (l : jstr) (cls : char -> bool) (s : jstr) : option jstr :=
  let here :=
    if startsWith s l
    then match takeWhile cls (skipn (List.length l) s) with
         | [] => None
         | run => Some (l ++ run)
         end
    else None in
  match here with
  | Some m => Some m
  | None => match s with
            | [] => None
            | _ :: s' => matchLitPlus l cls s'
            end
  end.

(** [s.split(/\s+/)] *)
Fixpoint splitWS (inRun : bool) (cur : jstr) (s : jstr) : list jstr :=
  match s with
  | [] => [rev cur]
  | c :: s' =>
      if isWhiteSpace c
      then if inRun then splitWS true cur s'
           else rev cur :: splitWS true [] s'
      else splitWS false (c :: cur) s'
  end.

Definition split_ws (s : jstr) : list jstr := splitWS false [] s.

(** [parts.join(sep)] on strings *)
Fixpoint join (sep : jstr) (parts : list jstr) : jstr :=
  match parts with
  | [] => []
  | [p] => p
  | p :: rest => p ++ sep ++ join sep rest
  end.

(** Case folding of [/.../i] and [toLowerCase] on the ASCII letters. *)
Definition canonicalize (c : char) : char := if lower c then c - 32 else c.
Definition toLowerCase (s : jstr) : jstr :=
  map (fun c => if upper c then c + 32 else c) s.

(** [/^https?:\/\//i.test(url)] *)
Definition hasScheme (url : jstr) : bool :=
  let u := map canonicalize url in
  (startsWith u (map canonicalize (lit "http://"))
   || startsWith u (map canonicalize (lit "https://")))%bool.

(** Iterating a string yields code points: a high surrogate followed by a
    low surrogate is one element. *)
Definition codePoints2 (s : jstr) : option jstr * option jstr :=
  let next (t : jstr) : option (jstr * jstr) :=
    match t with
    | [] => None
    | c :: d :: t' =>
        if (inRange 55296 56319 c && inRange 56320 57343 d)%bool
        then Some ([c; d], t') else Some ([c], d :: t')
    | [c] => Some ([c], [])
    end in
  match next s with
  | None => (None, None)
  | Some (a, t) =>
      match next t with
      | None => (Some a, None)
      | Some (b, _) => (Some a, Some b)
      end
  end.

(** ** JavaScript values *)

Inductive number : Type :=
| NaN
| Fin (num : Z) (den : positive).

Definition int (z : Z) : number := Fin z 1.

Inductive val : Type :=
| VUndef
| VNull
| VBool (b : bool)
| VNum (n : number)
| VStr (s : jstr)
| VArr (items : list val)
| VObj (props : list (jstr * val)).

Definition truthy (v : val) : bool :=
  match v with
  | VUndef | VNull => false
  | VBool b => b
  | VNum NaN => false
  | VNum (Fin z _) => negb (Z.eqb z 0)
  | VStr s => negb (isEmpty s)
  | VArr _ | VObj _ => true
  end.

Definition nullish (v : val) : bool :=
  match v with VUndef | VNull => true | _ => false end.

(** [v === 0] *)
Definition isZero (v : val) : bool :=
  match v with VNum (Fin z _) => Z.eqb z 0 | _ => false end.

(** [v === "s"] *)
Definition isStr (s : jstr) (v : val) : bool :=
  match v with VStr t => jstr_eqb s t | _ => false end.

Fixpoint assoc (k : jstr) (props : list (jstr * val)) : option val :=
  match props with
  | [] => None
  | (k', v) :: rest => if jstr_eqb k k' then Some v else assoc k rest
  end.

(** An exception value, kept as what [toString()] gives for it. *)
Inductive exn : Type := Thrown (text : jstr).

Definition exn_toString (e : exn) : jstr := match e with Thrown t => t end.

(** [new Error(msg)] *)
Definition Error (msg : jstr) : exn := Thrown (lit "Error: " ++ msg).
Definition TypeError (msg : string) : exn := Thrown (lit "TypeError: " ++ lit msg).

(** [v.k] for a property name that no prototype defines: a [TypeError] on
    [undefined] and [null], the own property of an object, [undefined]
    elsewhere. *)
Definition prop (v : val) (k : jstr) : val :=
  match v with
  | VObj props => match assoc k props with Some x => x | None => VUndef end
  | _ => VUndef
  end.

Definition getProp (v : val) (k : jstr) : exn + val :=
  if nullish v then inl (TypeError "Cannot read properties of undefined")
  else inr (prop v k).

(** [v?.k] *)
Definition optProp (v : val) (k : jstr) : val :=
  if nullish v then VUndef else prop v k.

(** [v[i]] on a value that is not [undefined] or [null] *)
Definition elemAt (i : nat) (v : val) : val :=
  match v with
  | VArr items => nth i items VUndef
  | VStr s => match nth_error s i with Some c => VStr [c] | None => VUndef end
  | VObj props =>
      match assoc (lit (NilEmpty.string_of_uint (Nat.to_uint i))) props with
      | Some x => x
      | None => VUndef
      end
  | _ => VUndef
  end.

Definition first (v : val) : val := elemAt 0 v.

(** [v[i]] *)
Definition getElem (i : nat) (v : val) : exn + val :=
  if nullish v then inl (TypeError "Cannot read properties of undefined")
  else inr (elemAt i v).

Definition getFirst (v : val) : exn + val := getElem 0 v.

(** ["k" in v] *)
Definition hasProp (k : jstr) (v : val) : exn + bool :=
  match v with
  | VObj props => inr (match assoc k props with Some _ => true | None => false end)
  | VArr _ => inr false
  | _ => inl (TypeError "Cannot use 'in' operator")
  end.

(** [v[k] = x] in strict mode, for a key that is neither an index nor
    [length]; a named property set on an array is not an element and is kept
    out of the model. *)
Fixpoint setAssoc (k : jstr) (x : val) (props : list (jstr * val))
  : list (jstr * val) :=
  match props with
  | [] => [(k, x)]
  | (k', v) :: rest =>
      if jstr_eqb k k' then (k, x) :: rest else (k', v) :: setAssoc k x rest
  end.

Definition setProp (v : val) (k : jstr) (x : val) : exn + val :=
  match v with
  | VObj props => inr (VObj (setAssoc k x props))
  | VArr items => inr (VArr items)
  | VUndef | VNull => inl (TypeError "Cannot set properties of undefined")
  | _ => inl (TypeError "Cannot create property")
  end.

(** ** Dates *)

Inductive jsdate : Type :=
| InvalidDate
| Date (fullYear month date : Z).

Definition getFullYear (d : jsdate) : number :=
  match d with InvalidDate => NaN | Date y _ _ => int y end.
Definition getMonth (d : jsdate) : number :=
  match d with InvalidDate => NaN | Date _ m _ => int m end.
Definition getDate (d : jsdate) : number :=
  match d with InvalidDate => NaN | Date _ _ d => int d end.

(** [n + 1] *)
Definition succNum (n : number) : number :=
  match n with
  | NaN => NaN
  | Fin z d => Fin (z + Z.pos d) d
  end.

(** ** The DOM, as far as the URL adapter reads it *)

Record Element : Type := {
  attributes : list (jstr * jstr);
  textContent : jstr
}.

Fixpoint getAttribute (attrs : list (jstr * jstr)) (name : jstr) : option jstr :=
  match attrs with
  | [] => None
  | (k, v) :: rest => if jstr_eqb name k then Some v else getAttribute rest name
  end.

Record Document : Type := {
  querySelector : jstr -> option Element;
  querySelectorAll : jstr -> list Element
}.

(** ** The environment

    Everything the program obtains from outside itself.  [Response] holds the
    status of a [fetch] response and what [text()] and [json()] settle to. *)

Record Response : Type := {
  status : Z;
  text : exn + jstr;
  json : exn + val
}.

Record Env : Type := {
  (** [fetch(url)]: rejects or resolves *)
  fetch : jstr -> exn + Response;
  (** byte [i] of the [k]-th [crypto.randomBytes(16)] *)
  randomByte : nat -> nat -> N;
  (** [new Date()] *)
  now : jsdate;
  (** [new Date(v)] *)
  newDate : val -> jsdate;
  (** [new JSDOM(text).window.document] *)
  JSDOM : jstr -> exn + Document;
  (** synchronous [XMLHttpRequest] GET: [responseText] *)
  xhrGet : jstr -> exn + jstr;
  (** the CSL engine: engine construction, [setOutputFormat],
      [updateItems] and [makeBibliography()], from the style file, the locale
      file, the output format, the item ids and the items *)
  citeproc : jstr -> jstr -> jstr -> list val -> list val -> exn + val;
  (** [JSON.parse], [JSON.stringify(v)], [JSON.stringify(v, null, 2)],
      [JSON.stringify(response)] *)
  JSON_parse : jstr -> exn + val;
  JSON_stringify : val -> jstr;
  JSON_stringify2 : val -> jstr;
  Response_stringify : Response -> jstr;
  (** string conversion of a value that is not a string *)
  toStringOther : val -> jstr;
  (** failures of [fs.mkdirSync], [fs.readFileSync], [fs.writeFileSync] *)
  mkdirFault : option exn;
  readFault : option exn;
  writeFault : option exn
}.

(** [`${v}`] *)
Definition ToString (env : Env) (v : val) : jstr :=
  match v with
  | VStr s => s
  | _ => toStringOther env v
  end.

(** ** Program state and the effect monad

    [cslJson] is the record store of the parser instance in use; the other
    fields are the process: how many times random bytes were drawn, the two
    output streams, the configuration directory and file, and the
    module-level [cachedConfig]. *)

Record State : Type := {
  cslJson : list val;
  rndCalls : nat;
  stdout : list jstr;
  stderr : list jstr;
  configDir : bool;
  configFile : option jstr;
  cachedConfig : val
}.

Definition with_cslJson (s : State) (l : list val) : State :=
  {| cslJson := l; rndCalls := rndCalls s; stdout := stdout s;
     stderr := stderr s; configDir := configDir s;
     configFile := configFile s; cachedConfig := cachedConfig s |}.

Definition with_rndCalls (s : State) (n : nat) : State :=
  {| cslJson := cslJson s; rndCalls := n; stdout := stdout s;
     stderr := stderr s; configDir := configDir s;
     configFile := configFile s; cachedConfig := cachedConfig s |}.

Definition with_stdout (s : State) (l : list jstr) : State :=
  {| cslJson := cslJson s; rndCalls := rndCalls s; stdout := l;
     stderr := stderr s; configDir := configDir s;
     configFile := configFile s; cachedConfig := cachedConfig s |}.

Definition with_stderr (s : State) (l : list jstr) : State :=
  {| cslJson := cslJson s; rndCalls := rndCalls s; stdout := stdout s;
     stderr := l; configDir := configDir s;
     configFile := configFile s; cachedConfig := cachedConfig s |}.

Definition with_configDir (s : State) (b : bool) : State :=
  {| cslJson := cslJson s; rndCalls := rndCalls s; stdout := stdout s;
     stderr := stderr s; configDir := b;
     configFile := configFile s; cachedConfig := cachedConfig s |}.

Definition with_configFile (s : State) (f : option jstr) : State :=
  {| cslJson := cslJson s; rndCalls := rndCalls s; stdout := stdout s;
     stderr := stderr s; configDir := configDir s;
     configFile := f; cachedConfig := cachedConfig s |}.

Definition with_cachedConfig (s : State) (c : val) : State :=
  {| cslJson := cslJson s; rndCalls := rndCalls s; stdout := stdout s;
     stderr := stderr s; configDir := configDir s;
     configFile := configFile s; cachedConfig := c |}.

(** A computation returns, throws (an [async] function rejects), or ends the
    process with [process.exit(code)]. *)
Inductive outcome (A : Type) : Type :=
| Ret (a : A) (s : State)
| Throw (e : exn) (s : State)
| Exit (code : Z) (s : State).

Arguments Throw {A} e s.
Arguments Exit {A} code s.

Definition M (A : Type) : Type := State -> outcome A.

Definition ret {A} (a : A) : M A := fun s => Ret a s.

Definition bind {A B} (m : M A) (k : A -> M B) : M B :=
  fun s => match m s with
           | Ret a s' => k a s'
           | Throw e s' => Throw e s'
           | Exit c s' => Exit c s'
           end.

Definition throw {A} (e : exn) : M A := fun s => Throw e s.

Definition exit {A} (code : Z) : M A := fun s => Exit code s.

(** [try { body } catch (error) { handler }] *)
Definition tryCatch {A} (body : M A) (handler : exn -> M A) : M A :=
  fun s => match body s with
           | Ret a s' => Ret a s'
           | Throw e s' => handler e s'
           | Exit c s' => Exit c s'
           end.

Definition lift {A} (r : exn + A) : M A :=
  match r with
  | inl e => throw e
  | inr a => ret a
  end.

Definition gets {A} (f : State -> A) : M A := fun s => Ret (f s) s.
Definition modify (f : State -> State) : M unit := fun s => Ret tt (f s).

Declare Scope monad_scope.
Delimit Scope monad_scope with monad.
Notation "x <- c ;; k" := (bind c (fun x => k))
  (at level 61, c at next level, right associativity) : monad_scope.
Notation "c ;;; k" := (bind c (fun _ => k))
  (at level 61, right associativity) : monad_scope.
Local Open Scope monad_scope.

Definition when (b : bool) (m : M unit) : M unit := if b then m else ret tt.

Definition stdout_write (t : jstr) : M unit :=
  modify (fun s => with_stdout s (stdout s ++ [t])).
Definition stderr_write (t : jstr) : M unit :=
  modify (fun s => with_stderr s (stderr s ++ [t])).

(** ** common.ts *)

Module FONT.
Definition BOLD : jstr := ESC ++ lit "[1m".
Definition GREEN : jstr := ESC ++ lit "[38;5;48m".
Definition YELLOW : jstr := ESC ++ lit "[38;5;228m".
Definition BLUE : jstr := ESC ++ lit "[38;5;33m".
Definition RED : jstr := ESC ++ lit "[38;5;197m".
Definition GRAY : jstr := ESC ++ lit "[38;5;249m".
Definition BLACK : jstr := ESC ++ lit "[38;5;0m".
Definition BG_GREEN : jstr := ESC ++ lit "[48;5;48m".
Definition BG_RED : jstr := ESC ++ lit "[48;5;9m".
Definition RESET : jstr := ESC ++ lit "[0m".
End FONT.

Module RESULT.
Definition SUCCESS : jstr :=
  FONT.BG_GREEN ++ FONT.BOLD ++ FONT.BLACK ++ lit " SUCCESS " ++ FONT.RESET.
Definition FAIL : jstr :=
  FONT.BG_RED ++ FONT.BOLD ++ FONT.BLACK ++ lit " FAIL " ++ FONT.RESET.
Definition ERROR : jstr :=
  FONT.BG_RED ++ FONT.BOLD ++ FONT.BLACK ++ lit " ERROR " ++ FONT.RESET.
End RESULT.

Definition uid_chars : jstr :=
  lit "abcdefghijklmnopqrstuvwxyzABCDEFGHIJKLMNOPQRSTUVWXYZ0123456789_".

(** [uid()] with the default length 16 *)
Definition uid (env : Env) : M jstr :=
  fun s =>
    let k := rndCalls s in
    let result :=
      map (fun i => nth (N.to_nat (randomByte env k i mod 63)) uid_chars 0)
          (seq 0 16) in
    Ret result (with_rndCalls s (S k)).

(** ** CSLJsonParser.ts *)

Module CSLJsonParser.

Record Options : Type := { logErrors : bool }.

Record ToBibliographyOptions : Type := {
  style : option jstr;
  locale : option jstr;
  format : option jstr
}.

Section Parser.

Variable env : Env.
Variable options : Options.

Definition CORS_PROXY : jstr := lit "https://corsproxy.io/?".

Definition errorTemplate (error : exn) : jstr :=
  LF ++ RESULT.ERROR ++ lit " " ++ FONT.RED
     ++ replaceFirst (lit "Error: ") [] (exn_toString error)
     ++ FONT.RESET ++ LF ++ LF.

Definition getCslFile (style : jstr) : M jstr :=
  text <- lift (xhrGet env
             (lit "https://raw.githubusercontent.com/citation-style-language/styles/master/"
                  ++ style ++ lit ".csl")) ;;
  if startsWith text (lit "404:")
  then throw (Error (lit "Failed to retrieve style " ++ DQ ++ style ++ DQ))
  else ret text.

Definition getLocaleFile (lang : jstr) : M jstr :=
  text <- lift (xhrGet env
             (lit "https://raw.githubusercontent.com/citation-style-language/locales/master/locales-"
                  ++ lang ++ lit ".xml")) ;;
  if startsWith text (lit "404:")
  then throw (Error (lit "Failed to retrieve locale " ++ DQ ++ lang ++ DQ))
  else ret text.

(** The callback of [authors.map]: a [TypeError] when [author] has no
    [split] method. *)
Definition authorObject (author : val) : exn + val :=
  match author with
  | VStr s =>
      let names := split_ws s in
      let given := orElse (hd [] names) [] in
      let family := join (lit " ") (tl names) in
      inr (VObj [(lit "given", VStr given); (lit "family", VStr family)])
  | _ => inl (TypeError "author.split is not a function")
  end.

Fixpoint mapE (f : val -> exn + val) (l : list val) : exn + list val :=
  match l with
  | [] => inr []
  | x :: rest =>
      match f x with
      | inl e => inl e
      | inr y => match mapE f rest with
                 | inl e => inl e
                 | inr ys => inr (y :: ys)
                 end
      end
  end.

(** A [TypeError] when [authors] has no [map] method. *)
Definition createAuthorsArray (authors : val) : exn + val :=
  match authors with
  | VArr items =>
      match mapE authorObject items with
      | inl e => inl e
      | inr l => inr (VArr l)
      end
  | _ => inl (TypeError "Cannot read properties of undefined (reading 'map')")
  end.

Definition createDateObject (yearOrDate : jsdate + number)
    (month day : option number) : val :=
  let '(year, adjustedMonth, adjustedDay) :=
    match yearOrDate with
    | inl d => (getFullYear d, Some (succNum (getMonth d)), Some (getDate d))
    | inr y => (y, month, day)
    end in
  let part (p : option number) : list val :=
    match p with
    | Some n => if truthy (VNum n) then [VNum n] else []
    | None => []
    end in
  let dateParts := [VNum year] ++ part adjustedMonth ++ part adjustedDay in
  VObj [(lit "date-parts", VArr [VArr dateParts])].

Definition push (record : val) : M unit :=
  modify (fun s => with_cslJson s (cslJson s ++ [record])).

(** [{ id: uid(), identifier, type, status: "failed" }] *)
Definition failed (identifier : val) (type : string) : M val :=
  id <- uid env ;;
  ret (VObj [(lit "id", VStr id); (lit "identifier", identifier);
             (lit "type", VStr (lit type)); (lit "status", VStr (lit "failed"))]).

(** The body shared by the [catch] blocks of the adapters. *)
Definition caught (identifier : val) (type : string) (error : exn) : M val :=
  when (logErrors options) (stderr_write (errorTemplate error)) ;;;
  failed identifier type.

Definition fromDOI (doi : val) : M val :=
  tryCatch
    (response <- lift (fetch env (CORS_PROXY ++ lit "https://api.crossref.org/works/"
                                            ++ ToString env doi)) ;;
     when (Z.eqb (status response) 404)
       (throw (Error (lit "Unable to retrieve data for DOI " ++ DQ ++ ToString env doi
                        ++ DQ ++ lit ". API responded with: "
                        ++ Response_stringify env response))) ;;;
     data <- lift (json response) ;;
     message <- lift (getProp data (lit "message")) ;;
     id <- uid env ;;
     DOI_ <- lift (getProp message (lit "DOI")) ;;
     URL0 <- lift (getProp message (lit "URL")) ;;
     URL_ <- (if truthy URL0 then ret URL0
              else d <- lift (getProp message (lit "DOI")) ;;
                   if truthy d
                   then ret (VStr (lit "https://doi.org/" ++ ToString env d))
                   else ret VUndef) ;;
     ISSN_ <- lift (getProp message (lit "ISSN")) ;;
     ct <- lift (getProp message (lit "container-title")) ;;
     containerTitle <- lift (getFirst ct) ;;
     issue <- lift (getProp message (lit "issue")) ;;
     issued <- lift (getProp message (lit "issued")) ;;
     page <- lift (getProp message (lit "page")) ;;
     publisher <- lift (getProp message (lit "publisher")) ;;
     publisherPlace <- lift (getProp message (lit "publisher-place")) ;;
     source <- lift (getProp message (lit "source")) ;;
     t <- lift (getProp message (lit "title")) ;;
     title <- lift (getFirst t) ;;
     volume <- lift (getProp message (lit "volume")) ;;
     type <- lift (getProp message (lit "type")) ;;
     let accessed := createDateObject (inl (now env)) None None in
     author <- lift (getProp message (lit "author")) ;;
     let newCslJsonObject :=
       VObj [(lit "id", VStr id); (lit "DOI", DOI_); (lit "URL", URL_);
             (lit "ISSN", ISSN_); (lit "container-title", containerTitle);
             (lit "issue", issue); (lit "issued", issued); (lit "page", page);
             (lit "publisher", publisher); (lit "publisher-place", publisherPlace);
             (lit "source", source); (lit "title", title); (lit "volume", volume);
             (lit "type", type); (lit "accessed", accessed); (lit "author", author)] in
     push newCslJsonObject ;;;
     ret newCslJsonObject)
    (caught doi "DOI").

(** The object literal shared, field for field, by [fromPMCID] and
    [fromPMID]. *)
Definition ncbiObject (id : jstr) (data : val) : val :=
  VObj [(lit "id", VStr id); (lit "URL", optProp data (lit "URL"));
        (lit "ISSN", optProp data (lit "ISSN"));
        (lit "container-title", optProp data (lit "container-title"));
        (lit "issue", optProp data (lit "issue"));
        (lit "issued", optProp data (lit "issued"));
        (lit "page", optProp data (lit "page"));
        (lit "publisher-place", optProp data (lit "publisher-place"));
        (lit "source", optProp data (lit "source"));
        (lit "title", optProp data (lit "title"));
        (lit "type", optProp data (lit "type"));
        (lit "volume", optProp data (lit "volume"));
        (lit "accessed", createDateObject (inl (now env)) None None);
        (lit "author", optProp data (lit "author"))].

(** ["status" in data && data.status === "error"] *)
Definition isErrorBody (data : val) : exn + bool :=
  match hasProp (lit "status") data with
  | inl e => inl e
  | inr false => inr false
  | inr true => inr (isStr (lit "error") (prop data (lit "status")))
  end.

Definition fromPMCID (pmcid : jstr) : M val :=
  let pmcIdWithoutPrefix := stripPMC pmcid in
  tryCatch
    (response <- lift (fetch env
         (CORS_PROXY ++ lit "https://api.ncbi.nlm.nih.gov/lit/ctxp/v1/pmc/?format=csl&id="
                     ++ pmcIdWithoutPrefix)) ;;
     data <- lift (json response) ;;
     isError <- lift (isErrorBody data) ;;
     when isError
       (throw (Error (lit "Unable to retrieve data for PMCID " ++ DQ ++ pmcid ++ DQ
                        ++ lit ". API responded with: " ++ JSON_stringify env data))) ;;;
     if truthy (optProp data (lit "DOI"))
     then fromDOI (optProp data (lit "DOI"))
     else
       id <- uid env ;;
       let newCslJsonObject := ncbiObject id data in
       push newCslJsonObject ;;;
       ret newCslJsonObject)
    (caught (VStr pmcid) "PMCID").

Definition fromPMID (pmid : jstr) : M val :=
  tryCatch
    (response <- lift (fetch env
         (CORS_PROXY ++ lit "https://api.ncbi.nlm.nih.gov/lit/ctxp/v1/pubmed/?format=csl&id="
                     ++ pmid)) ;;
     data <- lift (json response) ;;
     isError <- lift (isErrorBody data) ;;
     when isError
       (throw (Error (lit "Unable to retrieve data for PMID " ++ DQ ++ pmid ++ DQ
                        ++ lit ". API responded with: " ++ JSON_stringify env data))) ;;;
     if truthy (optProp data (lit "DOI"))
     then fromDOI (optProp data (lit "DOI"))
     else
       id <- uid env ;;
       let newCslJsonObject := ncbiObject id data in
       push newCslJsonObject ;;;
       ret newCslJsonObject)
    (caught (VStr pmid) "PMID").

Definition fromISBN (isbn : jstr) : M val :=
  tryCatch
    (response <- lift (fetch env
         (lit "https://openlibrary.org/search.json?q=isbn:" ++ isbn
              ++ lit "&mode=everything&fields=*,editions")) ;;
     data <- lift (json response) ;;
     numFound <- lift (getProp data (lit "numFound")) ;;
     when (isZero numFound)
       (throw (Error (lit "Unable to retrieve data for ISBN " ++ DQ ++ isbn ++ DQ
                        ++ lit ". API responded with: " ++ JSON_stringify env data))) ;;;
     allDocs <- lift (getProp data (lit "docs")) ;;
     docs <- lift (getFirst allDocs) ;;
     edition <-
       (if nullish docs then ret VUndef
        else let editions := prop docs (lit "editions") in
             if nullish editions then ret VUndef
             else lift (getFirst (prop editions (lit "docs")))) ;;
     let publishDateString :=
       let pd := optProp edition (lit "publish_date") in
       if nullish pd then VUndef else first pd in
     let publishDate : option jsdate :=
       if truthy publishDateString
       then Some (newDate env (first (prop edition (lit "publish_date"))))
       else None in
     id <- uid env ;;
     author <- lift (createAuthorsArray (optProp docs (lit "author_name"))) ;;
     let firstOf (field : string) : val :=
       let v := optProp edition (lit field) in
       if nullish v then VUndef else first v in
     let editionIsbn := firstOf "isbn"%string in
     let newCslJsonObject :=
       VObj [(lit "id", VStr id); (lit "type", VStr (lit "book"));
             (lit "title", optProp docs (lit "title"));
             (lit "number-of-pages", optProp docs (lit "number_of_pages_median"));
             (lit "author", author);
             (lit "publisher", firstOf "publisher"%string);
             (lit "publisher-place", firstOf "publish_place"%string);
             (lit "ISBN", if truthy editionIsbn then editionIsbn else VStr isbn);
             (lit "issued",
                match publishDate with
                | Some d => createDateObject (inl d) None None
                | None => VUndef
                end);
             (lit "accessed", createDateObject (inl (now env)) None None)] in
     push newCslJsonObject ;;;
     ret newCslJsonObject)
    (caught (VStr isbn) "ISBN").

(** [meta[attr="value"]] *)
Definition metaSel (attr value : string) : jstr :=
  lit "meta[" ++ lit attr ++ lit "=" ++ DQ ++ lit value ++ DQ ++ lit "]".

Definition extractContent (document : Document) (selector : jstr)
    (attr : option jstr) : jstr :=
  match querySelector document selector with
  | Some element =>
      match attr with
      | Some a =>
          if isEmpty a then textContent element
          else match getAttribute (attributes element) a with
               | Some v => v
               | None => []
               end
      | None => textContent element
      end
  | None => []
  end.

Definition extractAuthors (document : Document) : exn + val :=
  let authors :=
    map (fun meta =>
           match getAttribute (attributes meta) (lit "content") with
           | Some v => VStr v
           | None => VStr []
           end)
        (querySelectorAll document
           (metaSel "name" "author" ++ lit ", " ++ metaSel "name" "article:author")) in
  createAuthorsArray (VArr authors).

(** [m && m[0] ? f(m[0]) : undefined] on the result of [String.match] *)
Definition matched (m : option jstr) (f : jstr -> jstr) : option jstr :=
  match m with
  | Some m0 => if isEmpty m0 then None else Some (f m0)
  | None => None
  end.

(** [a || b] where [a] is a string and [b] a string or [undefined] *)
Definition orElseOpt (a : jstr) (b : option jstr) : option jstr :=
  if isEmpty a then b else Some a.

Definition getAvailableIdentifiers (url : jstr) (document : Document)
  : option jstr * option jstr * option jstr :=
  let '(pmidMatch, pmcidMatch, doiMatch) :=
    if startsWith url (lit "https://pubmed.ncbi.nlm.nih.gov")
    then
      let keywords :=
        extractContent document (metaSel "name" "keywords") (Some (lit "content")) in
      (matchLitPlus (lit "pmid:") digit keywords,
       matchLitPlus (lit "PMC") digit keywords,
       matchLitPlus (lit "doi:") (fun c => negb (N.eqb c (ch ","))) keywords)
    else (None, None, None) in
  let doi :=
    orElseOpt
      (extractContent document
         (metaSel "name" "publication_doi" ++ lit ", " ++ metaSel "name" "citation_doi")
         (Some (lit "content")))
      (matched doiMatch (replaceFirst (lit "doi:") [])) in
  let pmid :=
    orElseOpt
      (extractContent document (metaSel "name" "ncbi_uid") (Some (lit "content")))
      (matched pmidMatch (replaceFirst (lit "pmid:") [])) in
  let pmcid := matched pmcidMatch (fun m => m) in
  (doi, pmid, pmcid).

(** The [for] loop over [prioritizeIdentifiers] with its [switch]: the
    first identifier that is present decides; [fallback] is what follows
    the loop. *)
Fixpoint redirect (prioritizeIdentifiers : list IdentifierType)
    (doi pmid pmcid : option jstr) (fallback : M val) : M val :=
  match prioritizeIdentifiers with
  | [] => fallback
  | DOI :: rest =>
      match present doi with
      | Some d => fromDOI (VStr d)
      | None => redirect rest doi pmid pmcid fallback
      end
  | PMID :: rest =>
      match present pmid with
      | Some p => fromPMID p
      | None => redirect rest doi pmid pmcid fallback
      end
  | PMCID :: rest =>
      match present pmcid with
      | Some p => fromPMCID p
      | None => redirect rest doi pmid pmcid fallback
      end
  | _ :: rest => redirect rest doi pmid pmcid fallback
  end.

(** The parameter [url] is reassigned by the first statement of the [try]
    block, which cannot throw; the [catch] block reads the reassigned
    binding. *)
Definition fromURL (url0 : jstr) : M val :=
  let url := if hasScheme url0 then url0 else lit "https://" ++ url0 in
  tryCatch
    (response <- lift (fetch env (CORS_PROXY ++ url)) ;;
     when (Z.eqb (status response) 403)
       (throw (Error (lit "Unable to retrieve data for URL " ++ DQ ++ url ++ DQ
                        ++ lit ". API responded with: "
                        ++ Response_stringify env response))) ;;;
     text <- lift (text response) ;;
     document <- lift (JSDOM env text) ;;
     let '(doi, pmid, pmcid) := getAvailableIdentifiers url document in
     let prioritizeIdentifiers := [DOI; PMID; PMCID] in
     redirect prioritizeIdentifiers doi pmid pmcid
       (id <- uid env ;;
        author <- lift (extractAuthors document) ;;
        let newCslJsonObject :=
          VObj [(lit "id", VStr id); (lit "type", VStr (lit "webpage"));
                (lit "title", VStr (extractContent document (lit "title") None));
                (lit "author", author);
                (lit "container-title",
                   VStr (extractContent document (metaSel "property" "og:site_name")
                           (Some (lit "content"))));
                (lit "publisher",
                   VStr (extractContent document (metaSel "property" "article:publisher")
                           (Some (lit "content"))));
                (lit "accessed", createDateObject (inl (now env)) None None);
                (lit "issued",
                   createDateObject
                     (inl (newDate env
                             (VStr (orElse (extractContent document (metaSel "name" "date")
                                              (Some (lit "content"))) []))))
                     None None);
                (lit "URL",
                   VStr (orElse (extractContent document (metaSel "property" "og:url")
                                   (Some (lit "content"))) url))] in
        push newCslJsonObject ;;;
        ret newCslJsonObject))
    (caught (VStr url) "URL").

Fixpoint mapM {A B} (f : A -> M B) (l : list A) : M (list B) :=
  match l with
  | [] => ret []
  | x :: rest => y <- f x ;; ys <- mapM f rest ;; ret (y :: ys)
  end.

(** [entries.join(sep)]: a [TypeError] when [entries] has no [join]
    method; [undefined] and [null] elements join as the empty string. *)
Definition joinVal (sep : jstr) (entries : val) : exn + jstr :=
  match entries with
  | VArr items =>
      inr (join sep (map (fun v => if nullish v then [] else ToString env v) items))
  | _ => inl (TypeError "references[1].join is not a function")
  end.

Definition withDefault (o : option jstr) (d : string) : jstr :=
  match o with Some s => s | None => lit d end.

(** The engine is taken to ask for the locale while it is constructed and
    to let a failure of [retrieveLocale] pass through: the locale file is
    retrieved after the style file and before [citeproc] runs. *)
Definition toBibliography (opts : ToBibliographyOptions) : M val :=
  tryCatch
    (let style := withDefault (style opts) "apa" in
     let locale := withDefault (locale opts) "en-US" in
     let format := withDefault (format opts) "text" in
     items <- gets cslJson ;;
     itemIDs <- mapM (fun item => lift (getProp item (lit "id"))) items ;;
     cslFile <- getCslFile style ;;
     localeFile <- getLocaleFile locale ;;
     references <- lift (citeproc env cslFile localeFile (toLowerCase format)
                           itemIDs items) ;;
     entries <- lift (getElem 1 references) ;;
     joined <- lift (joinVal (if jstr_eqb (toLowerCase format) (lit "rtf")
                              then LF else []) entries) ;;
     ret (VStr joined))
    (fun error =>
       when (logErrors options) (stderr_write (errorTemplate error)) ;;;
       ret VNull).

End Parser.

End CSLJsonParser.

(** ** index.ts: configuration and formatting *)

Module Cli.

Record FormatOptions : Type := {
  style : jstr;
  locale : jstr;
  format : jstr;
  showIntext : bool;
  logErrors : bool
}.

(** [ParsedArguments]; [style], [locale] and [format] come from the
    configuration object when no option sets them, so they are values. *)
Record ParsedArguments : Type := {
  arg_identifiers : list jstr;
  arg_style : val;
  arg_locale : val;
  arg_format : val;
  arg_showIntext : bool;
  arg_logErrors : bool
}.

Section Cli.

Variable env : Env.

(** [fs.mkdirSync(configDir, { recursive: true })] *)
Definition mkdirSync : M unit :=
  match mkdirFault env with
  | Some e => throw e
  | None => modify (fun s => with_configDir s true)
  end.

(** [fs.readFileSync(configFile, "utf-8")] *)
Definition readFileSync : M jstr :=
  fun s =>
    match readFault env, configFile s with
    | Some e, _ => Throw e s
    | None, Some content => Ret content s
    | None, None => Throw (Error (lit "ENOENT: no such file or directory")) s
    end.

(** [fs.writeFileSync(configFile, content)] *)
Definition writeFileSync (content : jstr) : M unit :=
  fun s =>
    match writeFault env with
    | Some e => Throw e s
    | None =>
        if configDir s then Ret tt (with_configFile s (Some content))
        else Throw (Error (lit "ENOENT: no such file or directory")) s
    end.

Definition getConfigFile : M val :=
  cached <- gets cachedConfig ;;
  if truthy cached then ret cached
  else
    dirExists <- gets configDir ;;
    when (negb dirExists) mkdirSync ;;;
    file <- gets configFile ;;
    match file with
    | Some _ =>
        tryCatch
          (content <- readFileSync ;;
           parsed <- lift (JSON_parse env content) ;;
           modify (fun s => with_cachedConfig s parsed) ;;;
           ret parsed)
          (fun error =>
             stderr_write (RESULT.ERROR ++ lit " " ++ FONT.RED
                             ++ lit "Failed to parse configuration file: "
                             ++ exn_toString error ++ FONT.RESET ++ LF ++ LF) ;;;
             exit 1%Z)
    | None =>
        modify (fun s => with_cachedConfig s (VObj [])) ;;;
        ret (VObj [])
    end.

Definition resetConfig : M unit :=
  tryCatch
    (writeFileSync (JSON_stringify2 env (VObj [])) ;;;
     stdout_write (FONT.YELLOW ++ lit "All configurations have been reset to default."
                     ++ FONT.RESET ++ LF ++ LF))
    (fun error =>
       stderr_write (RESULT.ERROR ++ lit " " ++ FONT.RED
                       ++ lit "Failed to reset configuration: "
                       ++ exn_toString error ++ FONT.RESET ++ LF ++ LF)) ;;;
  exit 0%Z.

(** [/^(text|html|rtf|asciidoc)$/] *)
Definition formats : re :=
  Alt (Str (lit "text")) (Alt (Str (lit "html"))
    (Alt (Str (lit "rtf")) (Str (lit "asciidoc")))).

(** [config[key] = value] changes the object that [config] refers to; the
    function ends the process, so the change is seen by the write that
    follows and by nothing else. *)
Definition updateConfig (config : val) (key value : jstr) : M unit :=
  when (jstr_eqb key (lit "format") && negb (test formats value))%bool
    (stderr_write (FONT.RED ++ lit "Invalid format. Allowed formats are: "
                     ++ DQ ++ lit "text" ++ DQ ++ lit ", " ++ DQ ++ lit "html" ++ DQ
                     ++ lit ", " ++ DQ ++ lit "rtf" ++ DQ ++ lit ", or "
                     ++ DQ ++ lit "asciidoc" ++ DQ ++ lit "." ++ FONT.RESET ++ LF ++ LF) ;;;
     exit 1%Z) ;;;
  config' <- lift (setProp config key (VStr value)) ;;
  tryCatch
    (writeFileSync (JSON_stringify2 env config') ;;;
     stdout_write (FONT.YELLOW ++ lit "Configuration updated: " ++ key ++ lit " = "
                     ++ value ++ FONT.RESET ++ LF ++ LF))
    (fun error =>
       stderr_write (RESULT.ERROR ++ lit " " ++ FONT.RED
                       ++ lit "Failed to update configuration: "
                       ++ exn_toString error ++ FONT.RESET ++ LF ++ LF)) ;;;
  exit 0%Z.

Definition retrieveConfig (config : val) (key : jstr) : M unit :=
  current <- lift (getProp config key) ;;
  (if truthy current
   then stdout_write (FONT.YELLOW ++ key ++ lit " = " ++ ToString env current
                        ++ FONT.RESET ++ LF ++ LF)
   else stderr_write (FONT.RED ++ lit "Key " ++ DQ ++ key ++ DQ ++ lit " not found."
                        ++ FONT.RESET ++ LF ++ LF)) ;;;
  exit 0%Z.

Definition ERROR_USAGE_MESSAGE : jstr :=
  LF ++ FONT.RED ++ lit "Invalid usage of the " ++ DQ ++ lit "config" ++ DQ
     ++ lit " command." ++ LF
     ++ lit "Usage:" ++ LF
     ++ lit "  cite config <key> <value>  - Set a configuration key to a value." ++ LF
     ++ lit "  cite config <key>          - Retrieve the value of a configuration key." ++ LF
     ++ lit "  cite config reset          - Reset all configurations to defaults."
     ++ FONT.RESET ++ LF ++ LF.

(** [/^(style|locale|format|intext|reset)$/] *)
Definition validKeys : re :=
  Alt (Str (lit "style")) (Alt (Str (lit "locale")) (Alt (Str (lit "format"))
    (Alt (Str (lit "intext")) (Str (lit "reset"))))).

(** [argv] is [process.argv]; a missing position is [undefined]. *)
Definition handleConfig (argv : list jstr) : M unit :=
  config <- getConfigFile ;;
  let command := nth_error argv 2 in
  let key := nth_error argv 3 in
  let value := nth_error argv 4 in
  let extra := nth_error argv 5 in
  if negb (match command with Some c => jstr_eqb c (lit "config") | None => false end)
  then ret tt
  else
    match present key with
    | None => stderr_write ERROR_USAGE_MESSAGE ;;; exit 1%Z
    | Some key =>
        if (match present extra with Some _ => true | None => false end
            || startsWith key (lit "-")
            || match value with Some v => startsWith v (lit "-") | None => false end)%bool
        then stderr_write ERROR_USAGE_MESSAGE ;;; exit 1%Z
        else if negb (test validKeys key)
        then
          stderr_write (FONT.RED ++ lit "Invalid key. Allowed keys are "
                          ++ DQ ++ lit "style" ++ DQ ++ lit ", "
                          ++ DQ ++ lit "locale" ++ DQ ++ lit ", "
                          ++ DQ ++ lit "format" ++ DQ ++ lit ", "
                          ++ DQ ++ lit "intext" ++ DQ ++ lit ", or "
                          ++ DQ ++ lit "reset" ++ DQ ++ lit "."
                          ++ FONT.RESET ++ LF ++ LF) ;;;
          exit 1%Z
        else if jstr_eqb key (lit "reset") then resetConfig
        else match present value with
             | Some value => updateConfig config key value
             | None => retrieveConfig config key
             end
    end.

(** [const [references, intext] = v]: the first two elements that iterating
    [v] yields; a [TypeError] when [v] is not iterable. *)
Definition destructure2 (v : val) : exn + (val * val) :=
  let opt (o : option jstr) : val :=
    match o with Some s => VStr s | None => VUndef end in
  match v with
  | VArr items => inr (nth 0 items VUndef, nth 1 items VUndef)
  | VStr s => let '(a, b) := codePoints2 s in inr (opt a, opt b)
  | _ => inl (TypeError "object is not iterable")
  end.

(** [new CSLJsonParser(content, { logErrors })] makes [content] the store
    of the parser that renders. *)
Definition formatBibliography (content : list val) (options : FormatOptions)
  : M val :=
  modify (fun s => with_cslJson s content) ;;;
  result <- CSLJsonParser.toBibliography env
              {| CSLJsonParser.logErrors := logErrors options |}
              {| CSLJsonParser.style := Some (style options);
                 CSLJsonParser.locale := Some (locale options);
                 CSLJsonParser.format := Some (format options) |} ;;
  pair <- lift (destructure2 result) ;;
  let '(references, intext) := pair in
  ret (if truthy references
       then VStr (RESULT.SUCCESS ++ lit " " ++ FONT.GREEN
                    ++ lit "Successfully generated references:" ++ FONT.RESET ++ LF
                    ++ (if showIntext options
                        then CR ++ FONT.GRAY ++ lit "Reference list entries:"
                                ++ FONT.RESET ++ LF ++ ToString env references ++ LF
                                ++ CR ++ FONT.GRAY ++ lit "In-text citation:"
                                ++ FONT.RESET ++ LF ++ ToString env intext ++ LF
                        else ToString env references)
                    ++ LF)
       else VNull).

(** The option patterns of [parseArguments]: one or two dashes, the
    letter, and optionally the rest of the word. *)
Definition dashes : re := Rep 1%nat 1%nat (Chr (N.eqb (ch "-"))).

Definition optionPattern (letter : ascii) (word : string) : re :=
  Cat dashes (Cat (Chr (N.eqb (ch letter))) (Opt (Str (lit word)))).

(** [/^-{1,2}e(rrors)?$/], [/^-{1,2}s(tyle)?$/], [/^-{1,2}l(ocale)?$/],
    [/^-{1,2}f(ormat)?$/], [/^-{1,2}i(ntext)?$/], [/^-{1,2}no-intext$/] *)
Definition regex_logErrors : re := optionPattern "e" "rrors".
Definition regex_style : re := optionPattern "s" "tyle".
Definition regex_locale : re := optionPattern "l" "ocale".
Definition regex_format : re := optionPattern "f" "ormat".
Definition regex_showIntext : re := optionPattern "i" "ntext".
Definition regex_dontShowIntext : re := Cat dashes (Str (lit "no-intext")).

(** [args[i].replace("\\-", "-")]: the first backslash-hyphen becomes a
    hyphen. *)
Definition unescape (arg : jstr) : jstr := replaceFirst [92; 45] [45] arg.

(** The [for] loop of [parseArguments] from position [i] on: [args] is
    what is left of the array, [acc] the variables of the function. An
    option that takes a value consumes the next position when that position
    holds a non-empty string. *)
Fixpoint parseLoop (args : list jstr) (acc : ParsedArguments) : ParsedArguments :=
  match args with
  | [] => acc
  | a :: rest =>
      let hasNext :=
        match rest with
        | v :: _ => negb (isEmpty v)
        | [] => false
        end in
      if test regex_logErrors a then
        parseLoop rest
          {| arg_identifiers := arg_identifiers acc; arg_style := arg_style acc;
             arg_locale := arg_locale acc; arg_format := arg_format acc;
             arg_showIntext := arg_showIntext acc; arg_logErrors := true |}
      else if test regex_showIntext a then
        parseLoop rest
          {| arg_identifiers := arg_identifiers acc; arg_style := arg_style acc;
             arg_locale := arg_locale acc; arg_format := arg_format acc;
             arg_showIntext := true; arg_logErrors := arg_logErrors acc |}
      else if test regex_dontShowIntext a then
        parseLoop rest
          {| arg_identifiers := arg_identifiers acc; arg_style := arg_style acc;
             arg_locale := arg_locale acc; arg_format := arg_format acc;
             arg_showIntext := false; arg_logErrors := arg_logErrors acc |}
      else if (test regex_style a && hasNext)%bool then
        match rest with
        | v :: rest' =>
            parseLoop rest'
              {| arg_identifiers := arg_identifiers acc; arg_style := VStr v;
                 arg_locale := arg_locale acc; arg_format := arg_format acc;
                 arg_showIntext := arg_showIntext acc;
                 arg_logErrors := arg_logErrors acc |}
        | [] => acc
        end
      else if (test regex_locale a && hasNext)%bool then
        match rest with
        | v :: rest' =>
            parseLoop rest'
              {| arg_identifiers := arg_identifiers acc; arg_style := arg_style acc;
                 arg_locale := VStr v; arg_format := arg_format acc;
                 arg_showIntext := arg_showIntext acc;
                 arg_logErrors := arg_logErrors acc |}
        | [] => acc
        end
      else if (test regex_format a && hasNext)%bool then
        match rest with
        | v :: rest' =>
            parseLoop rest'
              {| arg_identifiers := arg_identifiers acc; arg_style := arg_style acc;
                 arg_locale := arg_locale acc; arg_format := VStr v;
                 arg_showIntext := arg_showIntext acc;
                 arg_logErrors := arg_logErrors acc |}
        | [] => acc
        end
      else if negb (startsWith a (lit "-")) then
        parseLoop rest
          {| arg_identifiers := arg_identifiers acc ++ [unescape a];
             arg_style := arg_style acc; arg_locale := arg_locale acc;
             arg_format := arg_format acc; arg_showIntext := arg_showIntext acc;
             arg_logErrors := arg_logErrors acc |}
      else parseLoop rest acc
  end.

(** [x || "d"] *)
Definition orDefault (x : val) (d : string) : val :=
  if truthy x then x else VStr (lit d).

Definition parseArguments (args : list jstr) : M ParsedArguments :=
  config <- getConfigFile ;;
  style0 <- lift (getProp config (lit "style")) ;;
  locale0 <- lift (getProp config (lit "locale")) ;;
  format0 <- lift (getProp config (lit "format")) ;;
  intext0 <- lift (getProp config (lit "intext")) ;;
  ret (parseLoop args
         {| arg_identifiers := [];
            arg_style := orDefault style0 "apa";
            arg_locale := orDefault locale0 "en-US";
            arg_format := orDefault format0 "text";
            arg_showIntext := isStr (lit "true") intext0;
            arg_logErrors := false |}).

(** The first [reduce] of [main]: the classified identifiers whose type
    is not ["undefined"], and the others, each in the order of the input. *)
Definition partitionIdentifiers (parsedIdentifiers : list (IdentifierType * jstr))
  : list (IdentifierType * jstr) * list (IdentifierType * jstr) :=
  fold_left
    (fun '(defined, nonDefined) id =>
       match fst id with
       | Undefined => (defined, nonDefined ++ [id])
       | _ => (defined ++ [id], nonDefined)
       end)
    parsedIdentifiers ([], []).

(** The second [reduce] of [main], over what the adapters returned:
    failure markers and records. ["status" in content] throws on a value
    that is not an object. *)
Fixpoint partitionContent (contentArray : list val) (acc : list val * list val)
  : exn + (list val * list val) :=
  match contentArray with
  | [] => inr acc
  | content :: rest =>
      let '(failures, successes) := acc in
      match hasProp (lit "status") content with
      | inl e => inl e
      | inr inStatus =>
          if (inStatus && isStr (lit "failed") (optProp content (lit "status")))%bool
          then partitionContent rest (failures ++ [content], successes)
          else partitionContent rest (failures, successes ++ [content])
      end
  end.

End Cli.

End Cli.

(** ** Vocabulary of the statements *)

(** How [main] tells a failure marker from a record:
    ["status" in content && content?.status === "failed"]. *)
Definition isFailed (content : val) : bool :=
  match hasProp (lit "status") content with
  | inr true => isStr (lit "failed") (prop content (lit "status"))
  | _ => false
  end.

(** The object [{ id, identifier, type, status: "failed" }]. *)
Definition FailureMarker (id : jstr) (identifier : val) (type : string) : val :=
  VObj [(lit "id", VStr id); (lit "identifier", identifier);
        (lit "type", VStr (lit type)); (lit "status", VStr (lit "failed"))].

(** One call of a source adapter. *)
Inductive call : Type :=
| CallDOI (doi : val)
| CallURL (url : jstr)
| CallISBN (isbn : jstr)
| CallPMID (pmid : jstr)
| CallPMCID (pmcid : jstr).

Definition run (env : Env) (options : CSLJsonParser.Options) (c : call) : M val :=
  match c with
  | CallDOI doi => CSLJsonParser.fromDOI env options doi
  | CallURL url => CSLJsonParser.fromURL env options url
  | CallISBN isbn => CSLJsonParser.fromISBN env options isbn
  | CallPMID pmid => CSLJsonParser.fromPMID env options pmid
  | CallPMCID pmcid => CSLJsonParser.fromPMCID env options pmcid
  end.

(** The adapter's own identifier type and the value the caller passed. *)
Definition typeOf (c : call) : string :=
  match c with
  | CallDOI _ => "DOI"
  | CallURL _ => "URL"
  | CallISBN _ => "ISBN"
  | CallPMID _ => "PMID"
  | CallPMCID _ => "PMCID"
  end.

Definition argOf (c : call) : val :=
  match c with
  | CallDOI doi => doi
  | CallURL url => VStr url
  | CallISBN isbn => VStr isbn
  | CallPMID pmid => VStr pmid
  | CallPMCID pmcid => VStr pmcid
  end.

(** The URL that [fromURL] fetches, and reports when it fails: the
    argument, with [https://] put in front when it has no scheme. *)
Definition normalized (url0 : jstr) : jstr :=
  if hasScheme url0 then url0 else lit "https://" ++ url0.

(** The calls whose [catch] block reads the argument as the caller passed
    it: every call but a [fromURL] on a string without a scheme. *)
Definition keepsArgument (c : call) : Prop :=
  match c with
  | CallURL url => hasScheme url = true
  | _ => True
  end.

(** The adapters that a call may hand its work to. *)
Inductive redirectsTo : call -> call -> Prop :=
| PMID_to_DOI pmid doi : redirectsTo (CallPMID pmid) (CallDOI doi)
| PMCID_to_DOI pmcid doi : redirectsTo (CallPMCID pmcid) (CallDOI doi)
| URL_to_DOI url doi : redirectsTo (CallURL url) (CallDOI doi)
| URL_to_PMID url pmid : redirectsTo (CallURL url) (CallPMID pmid)
| URL_to_PMCID url pmcid : redirectsTo (CallURL url) (CallPMCID pmcid).

(** A call appended exactly the record it returned. *)
Definition appended (s : State) (r : val) (s' : State) : Prop :=
  isFailed r = false /\ cslJson s' = cslJson s ++ [r].

(** A call returned a failure marker and left the store as it was. *)
Definition failedWith (s : State) (identifier : val) (type : string)
    (r : val) (s' : State) : Prop :=
  (exists id, r = FailureMarker id identifier type) /\ cslJson s' = cslJson s.

(** A computation that neither ends the process nor touches the store. *)
Definition quiet {A} (m : M A) : Prop :=
  forall s, match m s with
            | Ret _ s' | Throw _ s' => cslJson s' = cslJson s
            | Exit _ _ => False
            end.

(** A computation that leaves the whole state as it was. *)
Definition still {A} (m : M A) : Prop :=
  forall s, match m s with
            | Ret _ s' | Throw _ s' => s' = s
            | Exit _ _ => False
            end.

(** What the body of an adapter's [try] block may do: return with [Q], or
    throw with the store [store]. *)
Definition post (Q : val -> State -> Prop) (store : list val) (o : outcome val) : Prop :=
  match o with
  | Ret r s' => Q r s'
  | Throw _ s' => cslJson s' = store
  | Exit _ _ => False
  end.

(** Where the style and the locale are fetched from. *)
Definition styleUrl (opts : CSLJsonParser.ToBibliographyOptions) : jstr :=
  lit "https://raw.githubusercontent.com/citation-style-language/styles/master/"
    ++ CSLJsonParser.withDefault (CSLJsonParser.style opts) "apa" ++ lit ".csl".

Definition localeUrl (opts : CSLJsonParser.ToBibliographyOptions) : jstr :=
  lit "https://raw.githubusercontent.com/citation-style-language/locales/master/locales-"
    ++ CSLJsonParser.withDefault (CSLJsonParser.locale opts) "en-US" ++ lit ".xml".

(** The request throws, or the body it returns begins with [404:]. *)
Definition retrievalFails (env : Env) (url : jstr) : Prop :=
  match xhrGet env url with
  | inl _ => True
  | inr text => startsWith text (lit "404:") = true
  end.

(** The item ids that [toBibliography] collects from the store. *)
Definition itemIDsOf (items : list val) : list val :=
  map (fun item => prop item (lit "id")) items.

(** The engine throws when it is run on the retrieved style and locale
    files, the requested format and the items of the store. *)
Definition engineThrows (env : Env) (opts : CSLJsonParser.ToBibliographyOptions)
    (s : State) : Prop :=
  forall cslFile localeFile,
    xhrGet env (styleUrl opts) = inr cslFile ->
    xhrGet env (localeUrl opts) = inr localeFile ->
    exists e,
      citeproc env cslFile localeFile
        (toLowerCase (CSLJsonParser.withDefault (CSLJsonParser.format opts) "text"))
        (itemIDsOf (cslJson s)) (cslJson s) = inl e.

(** The exit code of the process when a top-level computation does not
    return: the argument of [process.exit], or 1 for an uncaught exception. *)
Definition exitCode {A} (o : outcome A) : option Z :=
  match o with
  | Ret _ _ => None
  | Throw _ _ => Some 1%Z
  | Exit code _ => Some code
  end.

Definition finalState {A} (o : outcome A) : State :=
  match o with
  | Ret _ s | Throw _ s | Exit _ s => s
  end.

(** A computation that leaves the configuration file as it was and, when
    it ends the process, does so with code 1. *)
Definition keepsFile {A} (m : M A) : Prop :=
  forall s, match m s with
            | Ret _ s1 | Throw _ s1 => configFile s1 = configFile s
            | Exit code s1 => code = 1%Z /\ configFile s1 = configFile s
            end.

(** The language of a pattern, as a relation: what [test] decides. *)
Inductive lang : re -> jstr -> Prop :=
| lang_Eps : lang Eps []
| lang_Chr p c : p c = true -> lang (Chr p) [c]
| lang_Cat a b s1 s2 : lang a s1 -> lang b s2 -> lang (Cat a b) (s1 ++ s2)
| lang_Alt_l a b s : lang a s -> lang (Alt a b) s
| lang_Alt_r a b s : lang b s -> lang (Alt a b) s
| lang_Star_nil a : lang (Star a) []
| lang_Star_cons a s1 s2 : lang a s1 -> lang (Star a) s2 -> lang (Star a) (s1 ++ s2).

(** A string without white space at either end. *)
Definition isTrimmed (s : jstr) : Prop := trim s = s.


(** A string of sixteen letters, digits and underscores. *)
Definition isUid (id : jstr) : Prop :=
  List.length id = 16%nat
  /\ forallb (fun c => (alnum c || N.eqb c (ch "_"))%bool) id = true.

(** A record that carries a generated [id] and, as [accessed], the date
    object of the clock. *)
Definition stamped (env : Env) (r : val) : Prop :=
  (exists id, prop r (lit "id") = VStr id /\ isUid id)
  /\ prop r (lit "accessed")
     = CSLJsonParser.createDateObject (inl (now env)) None None.




(** What an adapter call may do to the process: nothing to [stdout] and
    the configuration, and to [stderr] only appending, and only when
    errors are logged. *)
Definition tame (logging : bool) (s s' : State) : Prop :=
  stdout s' = stdout s
  /\ configDir s' = configDir s
  /\ configFile s' = configFile s
  /\ cachedConfig s' = cachedConfig s
  /\ exists written, stderr s' = stderr s ++ written
                     /\ (logging = false -> written = []).

Definition tameM {A} (logging : bool) (m : M A) : Prop :=
  forall s, match m s with
            | Ret _ s' | Throw _ s' => tame logging s s'
            | Exit _ _ => False
            end.

(** What [getConfigFile] writes to [stderr] when the configuration file
    cannot be read or parsed. *)
Definition parseFailure (e : exn) : jstr :=
  RESULT.ERROR ++ lit " " ++ FONT.RED ++ lit "Failed to parse configuration file: "
    ++ exn_toString e ++ FONT.RESET ++ LF ++ LF.

(** [id[0] === "undefined"] on a classified identifier. *)
Definition isUndefined (type : IdentifierType) : bool :=
  match type with Undefined => true | _ => false end.

(** ** Concrete environments and states for the examples *)

Module Sample.

Definition networkError : exn := TypeError "fetch failed".

(** No network, no style or locale files, an engine that throws: every
    request fails. *)
Definition offline : Env :=
  {| fetch := fun _ => inl networkError;
     randomByte := fun k i => N.of_nat (k + i);
     now := Date 2024 0 15;
     newDate := fun _ => InvalidDate;
     JSDOM := fun _ => inl (Thrown (lit "Error: no document"));
     xhrGet := fun _ => inl (Thrown (lit "Error: no connection"));
     citeproc := fun _ _ _ _ _ => inl (Thrown (lit "CSL error"));
     JSON_parse := fun _ => inl (Thrown (lit "SyntaxError: Unexpected token"));
     JSON_stringify := fun _ => lit "{}";
     JSON_stringify2 := fun _ => lit "{}";
     Response_stringify := fun _ => lit "{}";
     toStringOther := fun v => match v with
                               | VUndef => lit "undefined"
                               | VNull => lit "null"
                               | _ => lit "[object Object]"
                               end;
     mkdirFault := None;
     readFault := None;
     writeFault := None |}.

Definition withFetch (env : Env) (f : jstr -> exn + Response) : Env :=
  {| fetch := f; randomByte := randomByte env; now := now env;
     newDate := newDate env; JSDOM := JSDOM env; xhrGet := xhrGet env;
     citeproc := citeproc env; JSON_parse := JSON_parse env;
     JSON_stringify := JSON_stringify env; JSON_stringify2 := JSON_stringify2 env;
     Response_stringify := Response_stringify env;
     toStringOther := toStringOther env; mkdirFault := mkdirFault env;
     readFault := readFault env; writeFault := writeFault env |}.

Definition withRenderer (env : Env) (x : jstr -> exn + jstr)
    (c : jstr -> jstr -> jstr -> list val -> list val -> exn + val) : Env :=
  {| fetch := fetch env; randomByte := randomByte env; now := now env;
     newDate := newDate env; JSDOM := JSDOM env; xhrGet := x;
     citeproc := c; JSON_parse := JSON_parse env;
     JSON_stringify := JSON_stringify env; JSON_stringify2 := JSON_stringify2 env;
     Response_stringify := Response_stringify env;
     toStringOther := toStringOther env; mkdirFault := mkdirFault env;
     readFault := readFault env; writeFault := writeFault env |}.

Definition withJSON (env : Env) (parse : jstr -> exn + val)
    (stringify2 : val -> jstr) (wf : option exn) : Env :=
  {| fetch := fetch env; randomByte := randomByte env; now := now env;
     newDate := newDate env; JSDOM := JSDOM env; xhrGet := xhrGet env;
     citeproc := citeproc env; JSON_parse := parse;
     JSON_stringify := JSON_stringify env; JSON_stringify2 := stringify2;
     Response_stringify := Response_stringify env;
     toStringOther := toStringOther env; mkdirFault := mkdirFault env;
     readFault := readFault env; writeFault := wf |}.

Definition fresh : State :=
  {| cslJson := []; rndCalls := 0; stdout := []; stderr := [];
     configDir := true; configFile := None; cachedConfig := VNull |}.

Definition silent : CSLJsonParser.Options := {| CSLJsonParser.logErrors := false |}.

Definition ok (body : val) : Response :=
  {| status := 200; text := inl networkError; json := inr body |}.

Definition notFound : Response :=
  {| status := 404; text := inr (lit "Resource not found.");
     json := inr (VStr (lit "Resource not found.")) |}.

Definition pubmedUrl (pmid : string) : jstr :=
  lit "https://corsproxy.io/?https://api.ncbi.nlm.nih.gov/lit/ctxp/v1/pubmed/?format=csl&id="
    ++ lit pmid.

Definition crossrefUrl (doi : string) : jstr :=
  lit "https://corsproxy.io/?https://api.crossref.org/works/" ++ lit doi.

Definition openLibraryUrl (isbn : string) : jstr :=
  lit "https://openlibrary.org/search.json?q=isbn:" ++ lit isbn
    ++ lit "&mode=everything&fields=*,editions".

Definition pmcUrl (id : string) : jstr :=
  lit "https://corsproxy.io/?https://api.ncbi.nlm.nih.gov/lit/ctxp/v1/pmc/?format=csl&id="
    ++ lit id.

(** PubMed answers for PMID 12345678 and for PMCID PMC1234567 with [body];
    Crossref knows no DOI. *)
Definition pubmedAnswers (body : val) : Env :=
  withFetch offline
    (fun url =>
       if jstr_eqb url (pubmedUrl "12345678") then inr (ok body)
       else if jstr_eqb url (pmcUrl "1234567") then inr (ok body)
       else if startsWith url (crossrefUrl "") then inr notFound
       else inl networkError).

Definition withDoi : val :=
  VObj [(lit "DOI", VStr (lit "10.1000/xyz123")); (lit "title", VStr (lit "A study"))].

Definition errorWithDoi : val :=
  VObj [(lit "status", VStr (lit "error")); (lit "DOI", VStr (lit "10.1000/xyz123"))].

Definition emptyDoi : val :=
  VObj [(lit "DOI", VStr []); (lit "title", VStr (lit "A study"))].

(** Open Library answers for 9783161484100 with one document whose first
    edition has the publish date [date]; the engine's [Date] parses
    ["2001"] and nothing else. *)
Definition catalogue (doc : list (jstr * val)) : Env :=
  let env :=
    withFetch offline
      (fun url =>
         if jstr_eqb url (openLibraryUrl "9783161484100")
         then inr (ok (VObj [(lit "numFound", VNum (int 1));
                             (lit "docs", VArr [VObj doc])]))
         else inl networkError) in
  {| fetch := fetch env; randomByte := randomByte env; now := now env;
     newDate := fun v => if isStr (lit "2001") v then Date 2001 0 1 else InvalidDate;
     JSDOM := JSDOM env; xhrGet := xhrGet env;
     citeproc := citeproc env; JSON_parse := JSON_parse env;
     JSON_stringify := JSON_stringify env; JSON_stringify2 := JSON_stringify2 env;
     Response_stringify := Response_stringify env;
     toStringOther := toStringOther env; mkdirFault := mkdirFault env;
     readFault := readFault env; writeFault := writeFault env |}.

Definition bookPublished (date : string) : list (jstr * val) :=
  [(lit "title", VStr (lit "Some Book"));
   (lit "author_name", VArr [VStr (lit "Jane Q Doe")]);
   (lit "editions",
      VObj [(lit "docs",
               VArr [VObj [(lit "publish_date", VArr [VStr (lit date)])]])])].

Definition bookWithoutAuthors : list (jstr * val) :=
  [(lit "title", VStr (lit "Some Book"))].

(** Style and locale files are served; the engine returns one entry. *)
Definition rendering : Env :=
  withRenderer offline
    (fun url => if startsWith url (lit "https://raw.githubusercontent.com/")
                then inr (lit "<xml/>") else inl (Thrown (lit "Error: no connection")))
    (fun _ _ _ _ _ =>
       inr (VArr [VObj []; VArr [VStr (lit "Doe, J. (2020). Title." ++ LF)]])).

(** The style file is missing: the body of the response starts with
    [404:]. *)
Definition styleMissing : Env :=
  withRenderer offline
    (fun url => if startsWith url
                     (lit "https://raw.githubusercontent.com/citation-style-language/styles/")
                then inr (lit "404: Not Found") else inr (lit "<xml/>"))
    (fun _ _ _ _ _ =>
       inr (VArr [VObj []; VArr [VStr (lit "Doe, J. (2020). Title." ++ LF)]])).

Definition oneRecord : val :=
  VObj [(lit "id", VStr (lit "abcdefghijklmnop")); (lit "title", VStr (lit "Title"))].

Definition apaText : Cli.FormatOptions :=
  {| Cli.style := lit "apa"; Cli.locale := lit "en-US"; Cli.format := lit "text";
     Cli.showIntext := true; Cli.logErrors := false |}.

(** [JSON.parse] on the two file contents of the examples and
    [JSON.stringify(v, null, 2)] on the objects they lead to. *)
Definition jsonEnv (wf : option exn) : Env :=
  withJSON offline
    (fun t => if jstr_eqb t (lit "{}") then inr (VObj [])
              else if jstr_eqb t (lit "[]") then inr (VArr [])
              else inl (Thrown (lit "SyntaxError: Unexpected token")))
    (fun v => match v with
              | VObj [(k, VStr x)] =>
                  lit "{" ++ LF ++ lit "  " ++ DQ ++ k ++ DQ ++ lit ": "
                      ++ DQ ++ x ++ DQ ++ LF ++ lit "}"
              | VArr [] => lit "[]"
              | _ => lit "{}"
              end)
    wf.


(** A page at https://example.org/article with a title, one author tag
    and, when [doi] is given, a [citation_doi] tag; Crossref knows no DOI. *)
Definition metaElement (content : jstr) : Element :=
  {| attributes := [(lit "content", content)]; textContent := [] |}.

Definition articleDocument (doi : option jstr) : Document :=
  {| querySelector := fun selector =>
       if jstr_eqb selector
            (CSLJsonParser.metaSel "name" "publication_doi" ++ lit ", "
               ++ CSLJsonParser.metaSel "name" "citation_doi")
       then option_map metaElement doi
       else if jstr_eqb selector (lit "title")
       then Some {| attributes := []; textContent := lit "An article" |}
       else None;
     querySelectorAll := fun _ => [metaElement (lit "Jane Q Doe")] |}.

Definition articlePage (doi : option jstr) : Env :=
  {| fetch := fun url =>
       if jstr_eqb url (lit "https://corsproxy.io/?https://example.org/article")
       then inr {| status := 200; text := inr (lit "<html></html>");
                   json := inl networkError |}
       else if startsWith url (crossrefUrl "") then inr notFound
       else inl networkError;
     randomByte := randomByte offline; now := now offline;
     newDate := newDate offline;
     JSDOM := fun _ => inr (articleDocument doi);
     xhrGet := xhrGet offline; citeproc := citeproc offline;
     JSON_parse := JSON_parse offline; JSON_stringify := JSON_stringify offline;
     JSON_stringify2 := JSON_stringify2 offline;
     Response_stringify := Response_stringify offline;
     toStringOther := toStringOther offline; mkdirFault := None;
     readFault := None; writeFault := None |}.

Definition withFile (content : string) : State :=
  with_configFile fresh (Some (lit content)).


(** A configuration file that holds one style, as [jsonEnv] writes it, and
    an environment whose [JSON.parse] reads it back. *)
Definition mlaObject : val := VObj [(lit "style", VStr (lit "mla"))].

Definition mlaFile : jstr := JSON_stringify2 (jsonEnv None) mlaObject.

Definition diskEnv : Env :=
  withJSON offline
    (fun t => if jstr_eqb t (lit "{}") then inr (VObj [])
              else if jstr_eqb t mlaFile then inr mlaObject
              else inl (Thrown (lit "SyntaxError: Unexpected token")))
    (JSON_stringify2 (jsonEnv None))
    None.

End Sample.

(** * Properties *)

Unset Implicit Arguments.

(** ** Strings and patterns *)

Lemma startsWith_split (p s : jstr) :
  startsWith s p = true -> exists rest, s = p ++ rest.
Proof.
  revert s; induction p as [|c p IH]; intros s H.
  - exists s; reflexivity.
  - destruct s as [|d s]; simpl in H; [discriminate|].
    apply andb_true_iff in H; destruct H as [Hc Hs].
    apply N.eqb_eq in Hc; subst d.
    destruct (IH _ Hs) as [rest ->].
    exists rest; reflexivity.
Qed.

Lemma void_not_nullable (r : re) : void r = true -> nullable r = false.
Proof.
  induction r; simpl; intros H; try discriminate; try reflexivity.
  - apply orb_true_iff in H; destruct H as [H|H].
    + now rewrite IHr1.
    + rewrite IHr2 by assumption. apply andb_false_r.
  - apply andb_true_iff in H; destruct H as [H1 H2].
    now rewrite IHr1, IHr2.
Qed.

Lemma void_deriv (c : char) (r : re) : void r = true -> void (deriv c r) = true.
Proof.
  induction r; simpl; intros H; try discriminate; try reflexivity.
  - apply orb_true_iff in H; destruct H as [H|H].
    + rewrite (void_not_nullable _ H); simpl. now rewrite IHr1.
    + destruct (nullable r1); simpl; rewrite ?IHr2, ?H by assumption;
        rewrite ?orb_true_r; reflexivity.
  - apply andb_true_iff in H; destruct H as [H1 H2].
    now rewrite IHr1, IHr2.
Qed.

Lemma void_sound (s : jstr) : forall r, void r = true -> test r s = false.
Proof.
  induction s as [|c s IH]; intros r H; simpl.
  - now apply void_not_nullable.
  - apply IH. now apply void_deriv.
Qed.

(** A string that begins with an explicit type prefix does not match the
    DOI pattern. *)
Lemma DOI_pattern_rejects_prefixed (prefix : jstr) (type : IdentifierType) (rest : jstr) :
  In (prefix, type) identifierPrefixes ->
  test DOI_pattern (prefix ++ rest) = false.
Proof.
  intros Hin.
  repeat (destruct Hin as [Heq|Hin]; [inversion Heq; subst; clear Heq|]);
    try contradiction;
    match goal with
    | |- test _ (lit ?p ++ _) = _ =>
        let l := eval vm_compute in (lit p) in change (lit p) with l
    end;
    cbn [app test]; apply void_sound; vm_compute; reflexivity.
Qed.

Lemma stripHyphens_prefixed (prefix : jstr) (type : IdentifierType) (rest : jstr) :
  In (prefix, type) identifierPrefixes ->
  stripHyphens (prefix ++ rest) = prefix ++ stripHyphens rest.
Proof.
  intros Hin. unfold stripHyphens. rewrite filter_app. f_equal.
  repeat (destruct Hin as [Heq|Hin]; [inversion Heq; subst; reflexivity|]).
  contradiction.
Qed.

Lemma matchPrefix_None_of_DOI (trimmed : jstr) :
  test DOI_pattern (stripHyphens trimmed) = true ->
  matchPrefix trimmed identifierPrefixes = None.
Proof.
  intros H.
  assert (Hno : forall prefix type, In (prefix, type) identifierPrefixes ->
                                    startsWith trimmed prefix = false).
  { intros prefix type Hin.
    destruct (startsWith trimmed prefix) eqn:E; [|reflexivity].
    destruct (startsWith_split _ _ E) as [rest ->].
    rewrite (stripHyphens_prefixed _ _ _ Hin) in H.
    rewrite (DOI_pattern_rejects_prefixed _ _ _ Hin) in H. discriminate. }
  unfold identifierPrefixes in *. cbn [matchPrefix].
  repeat match goal with
         | |- context [startsWith trimmed ?p] =>
             rewrite (Hno p _ ltac:(simpl; eauto 10))
         end.
  reflexivity.
Qed.

(** C3. Every input whose trimmed, hyphen-stripped form matches both the
    DOI pattern and the URL pattern is classified as DOI, with the trimmed
    input as its value: the DOI pattern is tested before the URL pattern. *)
Theorem doi_tested_before_url (input : jstr) :
  test DOI_pattern (stripHyphens (trim input)) = true ->
  test URL_pattern (stripHyphens (trim input)) = true ->
  recognizeIdentifierType input = (DOI, trim input)
  /\ fst (recognizeIdentifierType input) <> URL.
Proof.
  intros HDOI _.
  assert (E : recognizeIdentifierType input = (DOI, trim input)).
  { unfold recognizeIdentifierType.
    rewrite (matchPrefix_None_of_DOI _ HDOI).
    unfold patterns. cbn [matchPattern]. now rewrite HDOI. }
  split; [exact E|]. rewrite E. discriminate.
Qed.

Lemma doi_tested_before_url_witness :
  test DOI_pattern (stripHyphens (trim (lit " https://doi.org/10.1000/xyz-123 "))) = true
  /\ test URL_pattern (stripHyphens (trim (lit " https://doi.org/10.1000/xyz-123 "))) = true
  /\ recognizeIdentifierType (lit " https://doi.org/10.1000/xyz-123 ")
     = (DOI, lit "https://doi.org/10.1000/xyz-123").
Proof.
  split; [vm_compute; reflexivity|]. split; [vm_compute; reflexivity|].
  apply (doi_tested_before_url (lit " https://doi.org/10.1000/xyz-123 "));
    vm_compute; reflexivity.
Defined.

(** C4. When the trimmed input starts with one of the five explicit type
    prefixes, the classifier returns that prefix's type and the trimmed
    remainder after the prefix, whatever the remainder is. *)
Theorem explicit_prefix_forces_type (input prefix : jstr) (type : IdentifierType) :
  In (prefix, type)
     [ (lit "url:", URL); (lit "doi:", DOI); (lit "isbn:", ISBN);
       (lit "pmid:", PMID); (lit "pmcid:", PMCID) ] ->
  startsWith (trim input) prefix = true ->
  recognizeIdentifierType input
  = (type, trim (slice (trim input) (List.length prefix))).
Proof.
  intros Hin Hs.
  destruct (startsWith_split _ _ Hs) as [rest Hrest].
  unfold recognizeIdentifierType. rewrite Hrest. clear Hs Hrest.
  repeat (destruct Hin as [Heq|Hin]; [inversion Heq; subst; clear Heq; reflexivity|]).
  contradiction.
Qed.

Lemma explicit_prefix_forces_type_witness :
  recognizeIdentifierType (lit "  doi: not a doi ") = (DOI, lit "not a doi")
  /\ recognizeIdentifierType (lit "isbn:") = (ISBN, []).
Proof.
  split.
  - apply (explicit_prefix_forces_type (lit "  doi: not a doi ") (lit "doi:") DOI);
      [simpl; auto | vm_compute; reflexivity].
  - apply (explicit_prefix_forces_type (lit "isbn:") (lit "isbn:") ISBN);
      [simpl; auto | vm_compute; reflexivity].
Defined.

(** The prefixes are compared as written: an upper-case tag is not one. *)
Example prefix_is_case_sensitive :
  recognizeIdentifierType (lit "DOI:10.1000/xyz") = (Undefined, lit "DOI:10.1000/xyz").
Proof. vm_compute; reflexivity. Qed.

(** ** Effects *)

Local Open Scope monad_scope.

Lemma still_lift {A} (x : exn + A) : still (lift x).
Proof. intros s. destruct x; reflexivity. Qed.

Lemma still_ret {A} (a : A) : still (ret a).
Proof. intros s. reflexivity. Qed.

Lemma still_throw {A} (e : exn) : still (@throw A e).
Proof. intros s. reflexivity. Qed.

Lemma still_when_throw (b : bool) (e : exn) : still (when b (throw e)).
Proof. intros s. destruct b; reflexivity. Qed.

Lemma still_bind {A B} (m : M A) (k : A -> M B) :
  still m -> (forall a, still (k a)) -> still (bind m k).
Proof.
  intros Hm Hk s. unfold bind. specialize (Hm s).
  destruct (m s) as [a s1|e s1|c s1]; subst; auto. apply Hk.
Qed.

Lemma quiet_uid (env : Env) : quiet (uid env).
Proof. intros s. reflexivity. Qed.

Lemma post_still {A} (m : M A) (k : A -> M val) Q (s : State) :
  still m ->
  (forall a, post Q (cslJson s) (k a s)) ->
  post Q (cslJson s) (bind m k s).
Proof.
  intros Hm Hk. unfold bind. specialize (Hm s).
  destruct (m s) as [a s1|e s1|c s1]; subst; simpl; auto.
Qed.

Lemma post_quiet {A} (m : M A) (k : A -> M val) Q store (s : State) :
  quiet m ->
  cslJson s = store ->
  (forall a s1, cslJson s1 = store -> post Q store (k a s1)) ->
  post Q store (bind m k s).
Proof.
  intros Hm Hs Hk. unfold bind. specialize (Hm s).
  destruct (m s) as [a s1|e s1|c s1]; simpl; try congruence; auto.
  apply Hk. congruence.
Qed.

Lemma post_push (r : val) Q (s : State) :
  Q r (with_cslJson s (cslJson s ++ [r])) ->
  post Q (cslJson s) (bind (CSLJsonParser.push r) (fun _ => ret r) s).
Proof. intros H. exact H. Qed.

Section Caught.

Variable env : Env.
Variable options : CSLJsonParser.Options.

(** The [catch] block of an adapter returns the failure marker and leaves
    the store alone. *)
Lemma caught_returns (identifier : val) (type : string) (e : exn) (s : State) :
  exists r s', CSLJsonParser.caught env options identifier type e s = Ret r s'
               /\ failedWith s identifier type r s'.
Proof.
  destruct (CSLJsonParser.logErrors options) eqn:E;
    cbv beta iota delta [CSLJsonParser.caught CSLJsonParser.failed bind when uid
                         stderr_write modify ret failedWith FailureMarker];
    rewrite E; cbv beta iota;
    eexists; eexists; (split; [reflexivity|]);
    (split; [eexists; reflexivity | reflexivity]).
Qed.

Lemma tryCatch_caught (body : M val) Q (identifier : val) (type : string) (s : State) :
  post Q (cslJson s) (body s) ->
  exists r s',
    tryCatch body (CSLJsonParser.caught env options identifier type) s = Ret r s'
    /\ (Q r s' \/ failedWith s identifier type r s').
Proof.
  unfold tryCatch, post. destruct (body s) as [r s1|e s1|c s1]; intros H.
  - exists r, s1. auto.
  - destruct (caught_returns identifier type e s1) as (r & s' & E & (Hid & Hst)).
    exists r, s'. split; [exact E|]. right. split; [exact Hid | congruence].
  - contradiction.
Qed.

End Caught.

Ltac quiet_step :=
  first [ apply still_lift | apply still_when_throw | apply still_ret
        | apply still_throw ].

(** ** The DOI adapter *)

Lemma fromDOI_settles (env : Env) (options : CSLJsonParser.Options)
    (doi : val) (s : State) :
  exists r s',
    CSLJsonParser.fromDOI env options doi s = Ret r s'
    /\ (appended s r s' \/ failedWith s doi "DOI" r s').
Proof.
  unfold CSLJsonParser.fromDOI.
  apply tryCatch_caught.
  repeat (apply post_still; [quiet_step | intros ?]).
  apply post_quiet; [apply quiet_uid | reflexivity | intros id s1 Hs1].
  rewrite <- Hs1.
  repeat (apply post_still;
          [ first [ quiet_step
                  | match goal with
                    | |- still (if ?b then _ else _) => destruct b
                    end;
                    repeat first [ quiet_step
                                 | apply still_bind; [quiet_step | intros ?]
                                 | match goal with
                                   | |- still (if ?b then _ else _) => destruct b
                                   end ] ]
          | intros ? ]).
  rewrite Hs1.
  match goal with
  | |- post _ _ (bind (CSLJsonParser.push ?r) _ _) =>
      rewrite <- Hs1; apply (post_push r)
  end.
  split; [vm_compute; reflexivity | cbn [cslJson with_cslJson]; congruence].
Qed.

Ltac still_tac :=
  repeat first
    [ apply still_lift | apply still_when_throw | apply still_ret | apply still_throw
    | apply still_bind; [|intros ?]
    | match goal with
      | |- still (if ?b then _ else _) => destruct b
      | |- still (match ?x with _ => _ end) => destruct x
      end ].

Ltac post_stills := repeat (apply post_still; [solve [still_tac] | intros ?]).

Ltac finish_push :=
  split; [vm_compute; reflexivity | cbn [cslJson with_cslJson]; congruence].

(** ** The PubMed adapters *)

Lemma post_fromDOI (env : Env) (options : CSLJsonParser.Options)
    (Q : val -> State -> Prop) (doi : val) (s : State) :
  (forall r s', CSLJsonParser.fromDOI env options doi s = Ret r s' -> Q r s') ->
  post Q (cslJson s) (CSLJsonParser.fromDOI env options doi s).
Proof.
  intros H. destruct (fromDOI_settles env options doi s) as (r & s' & E & _).
  rewrite E. simpl. auto.
Qed.

Lemma fromPMID_settles (env : Env) (options : CSLJsonParser.Options)
    (pmid : jstr) (s : State) :
  exists r s',
    CSLJsonParser.fromPMID env options pmid s = Ret r s'
    /\ ((appended s r s'
         \/ exists doi, CSLJsonParser.fromDOI env options doi s = Ret r s')
        \/ failedWith s (VStr pmid) "PMID" r s').
Proof.
  unfold CSLJsonParser.fromPMID.
  apply tryCatch_caught.
  post_stills.
  match goal with |- post _ _ ((if ?b then _ else _) _) => destruct b end.
  - apply post_fromDOI. intros r s' E. right. eauto.
  - apply post_quiet; [apply quiet_uid | reflexivity | intros id s1 Hs1].
    rewrite <- Hs1. apply post_push. left.
    finish_push.
Qed.

Lemma fromPMCID_settles (env : Env) (options : CSLJsonParser.Options)
    (pmcid : jstr) (s : State) :
  exists r s',
    CSLJsonParser.fromPMCID env options pmcid s = Ret r s'
    /\ ((appended s r s'
         \/ exists doi, CSLJsonParser.fromDOI env options doi s = Ret r s')
        \/ failedWith s (VStr pmcid) "PMCID" r s').
Proof.
  unfold CSLJsonParser.fromPMCID.
  apply tryCatch_caught.
  post_stills.
  match goal with |- post _ _ ((if ?b then _ else _) _) => destruct b end.
  - apply post_fromDOI. intros r s' E. right. eauto.
  - apply post_quiet; [apply quiet_uid | reflexivity | intros id s1 Hs1].
    rewrite <- Hs1. apply post_push. left.
    finish_push.
Qed.

(** ** The ISBN adapter *)

Lemma fromISBN_settles (env : Env) (options : CSLJsonParser.Options)
    (isbn : jstr) (s : State) :
  exists r s',
    CSLJsonParser.fromISBN env options isbn s = Ret r s'
    /\ (appended s r s' \/ failedWith s (VStr isbn) "ISBN" r s').
Proof.
  unfold CSLJsonParser.fromISBN.
  apply tryCatch_caught.
  post_stills.
  apply post_quiet; [apply quiet_uid | reflexivity | intros id s1 Hs1].
  rewrite <- Hs1. post_stills. apply post_push.
  finish_push.
Qed.

(** ** The URL adapter *)

Lemma fromURL_settles (env : Env) (options : CSLJsonParser.Options)
    (url : jstr) (s : State) :
  exists r s',
    CSLJsonParser.fromURL env options url s = Ret r s'
    /\ ((appended s r s'
         \/ exists c', redirectsTo (CallURL url) c' /\ run env options c' s = Ret r s')
        \/ failedWith s (VStr (normalized url)) "URL" r s').
Proof.
  unfold CSLJsonParser.fromURL. fold (normalized url).
  apply tryCatch_caught.
  post_stills.
  match goal with
  | |- context [CSLJsonParser.getAvailableIdentifiers ?u ?d] =>
      destruct (CSLJsonParser.getAvailableIdentifiers u d) as [[doi pmid] pmcid]
  end.
  cbn [CSLJsonParser.redirect].
  destruct (present doi) as [d|].
  { apply post_fromDOI. intros r s' E. right.
    exists (CallDOI (VStr d)). split; [constructor | exact E]. }
  destruct (present pmid) as [p|].
  { destruct (fromPMID_settles env options p s) as (r & s' & E & _).
    rewrite E. simpl. right.
    exists (CallPMID p). split; [constructor | exact E]. }
  destruct (present pmcid) as [p|].
  { destruct (fromPMCID_settles env options p s) as (r & s' & E & _).
    rewrite E. simpl. right.
    exists (CallPMCID p). split; [constructor | exact E]. }
  apply post_quiet; [apply quiet_uid | reflexivity | intros id s1 Hs1].
  rewrite <- Hs1. post_stills. apply post_push. left.
  finish_push.
Qed.

(** ** All adapters *)

Section Adapters.

Variable env : Env.
Variable options : CSLJsonParser.Options.

Lemma redirected_DOI (doi : val) (s : State) (r : val) (s' : State) :
  CSLJsonParser.fromDOI env options doi s = Ret r s' ->
  appended s r s' \/ failedWith s doi "DOI" r s'.
Proof.
  intros E. destruct (fromDOI_settles env options doi s) as (r0 & s0 & E0 & H).
  rewrite E in E0. inversion E0; subst. exact H.
Qed.

(** Every call returns, and either appended the record it returned or
    returned a failure marker and left the store alone. *)
Lemma settles (c : call) (s : State) :
  exists r s',
    run env options c s = Ret r s'
    /\ (appended s r s' \/ exists identifier type, failedWith s identifier type r s').
Proof.
  assert (HDOI : forall doi r s', CSLJsonParser.fromDOI env options doi s = Ret r s' ->
            appended s r s' \/ exists identifier type, failedWith s identifier type r s').
  { intros doi r s' E. destruct (redirected_DOI _ _ _ _ E); eauto. }
  assert (HPMID : forall pmid, exists r s',
            CSLJsonParser.fromPMID env options pmid s = Ret r s'
            /\ (appended s r s' \/ exists identifier type, failedWith s identifier type r s')).
  { intros pmid.
    destruct (fromPMID_settles env options pmid s) as (r & s' & E & [[H|[doi H]]|H]);
      exists r, s'; split; eauto. }
  assert (HPMCID : forall pmcid, exists r s',
            CSLJsonParser.fromPMCID env options pmcid s = Ret r s'
            /\ (appended s r s' \/ exists identifier type, failedWith s identifier type r s')).
  { intros pmcid.
    destruct (fromPMCID_settles env options pmcid s) as (r & s' & E & [[H|[doi H]]|H]);
      exists r, s'; split; eauto. }
  destruct c as [doi|url|isbn|pmid|pmcid]; simpl.
  - destruct (fromDOI_settles env options doi s) as (r & s' & E & H).
    exists r, s'. split; [exact E|]. destruct H; eauto.
  - destruct (fromURL_settles env options url s) as (r & s' & E & [[H|(c' & Hc & H)]|H]);
      exists r, s'; (split; [exact E|]); eauto.
    inversion Hc; subst; simpl in H.
    + eauto.
    + destruct (HPMID pmid) as (r0 & s0 & E0 & H0).
      rewrite H in E0. inversion E0; subst. exact H0.
    + destruct (HPMCID pmcid) as (r0 & s0 & E0 & H0).
      rewrite H in E0. inversion E0; subst. exact H0.
  - destruct (fromISBN_settles env options isbn s) as (r & s' & E & H).
    exists r, s'. split; [exact E|]. destruct H; eauto.
  - apply HPMID.
  - apply HPMCID.
Qed.

End Adapters.

Lemma failedWith_isFailed (s : State) (identifier : val) (type : string)
    (r : val) (s' : State) :
  failedWith s identifier type r s' -> isFailed r = true.
Proof. intros [[id ->] _]. reflexivity. Qed.

(** C9. A single adapter call, redirections included, either returns a
    record and has appended exactly that record to the end of the store, or
    returns a failure marker and has left the store as it was. *)
Theorem adapter_call_appends_its_record_or_nothing
    (env : Env) (options : CSLJsonParser.Options) (c : call) (s : State) :
  exists r s',
    run env options c s = Ret r s'
    /\ (if isFailed r then cslJson s' = cslJson s
        else cslJson s' = cslJson s ++ [r]).
Proof.
  destruct (settles env options c s) as (r & s' & E & [[Hf Hs]|(idf & ty & H)]);
    exists r, s'; (split; [exact E|]).
  - now rewrite Hf.
  - rewrite (failedWith_isFailed _ _ _ _ _ H). apply H.
Qed.

(** C1, as the code has it. Every adapter call returns. What it returns is
    a record or a failure marker. A marker of a call that did not redirect
    has the adapter's own type, and its identifier is the value the caller
    passed whenever the call keeps its argument; a marker of a call that
    redirected is the value the adapter it redirected to returned. *)
Theorem adapter_call_returns_record_or_marker
    (env : Env) (options : CSLJsonParser.Options) (c : call) (s : State) :
  exists r s',
    run env options c s = Ret r s'
    /\ (isFailed r = false
        \/ exists id identifier type,
             r = FailureMarker id identifier type
             /\ ((type = typeOf c /\ (keepsArgument c -> identifier = argOf c))
                 \/ exists c', redirectsTo c c' /\ run env options c' s = Ret r s')).
Proof.
  assert (Hred : forall c' r s', redirectsTo c c' -> run env options c' s = Ret r s' ->
            isFailed r = false
            \/ exists id identifier type,
                 r = FailureMarker id identifier type
                 /\ ((type = typeOf c /\ (keepsArgument c -> identifier = argOf c))
                     \/ exists c', redirectsTo c c' /\ run env options c' s = Ret r s')).
  { intros c' r s' Hc E.
    destruct (settles env options c' s) as (r0 & s0 & E0 & H).
    rewrite E in E0. inversion E0; subst.
    destruct H as [[Hf _]|(idf & ty & [[id ->] _])]; [now left|].
    right. exists id, idf, ty. split; [reflexivity|]. right. eauto. }
  destruct c as [doi|url|isbn|pmid|pmcid].
  - destruct (fromDOI_settles env options doi s) as (r & s' & E & H).
    exists r, s'. split; [exact E|].
    destruct H as [[Hf _]|[[id ->] _]]; [now left|].
    right. exists id, doi, "DOI"%string. split; [reflexivity|]. left. now split.
  - destruct (fromURL_settles env options url s) as (r & s' & E & H).
    exists r, s'. split; [exact E|].
    destruct H as [[[Hf _]|(c' & Hc & H)]|[[id ->] _]]; [now left | eauto |].
    right. exists id, (VStr (normalized url)), "URL"%string.
    split; [reflexivity|]. left. split; [reflexivity|].
    simpl. unfold normalized. now intros ->.
  - destruct (fromISBN_settles env options isbn s) as (r & s' & E & H).
    exists r, s'. split; [exact E|].
    destruct H as [[Hf _]|[[id ->] _]]; [now left|].
    right. exists id, (VStr isbn), "ISBN"%string. split; [reflexivity|]. left. now split.
  - destruct (fromPMID_settles env options pmid s) as (r & s' & E & H).
    exists r, s'. split; [exact E|].
    destruct H as [[[Hf _]|(doi & H)]|[[id ->] _]]; [now left | |].
    + apply (Hred (CallDOI doi)); [constructor | exact H].
    + right. exists id, (VStr pmid), "PMID"%string.
      split; [reflexivity|]. left. now split.
  - destruct (fromPMCID_settles env options pmcid s) as (r & s' & E & H).
    exists r, s'. split; [exact E|].
    destruct H as [[[Hf _]|(doi & H)]|[[id ->] _]]; [now left | |].
    + apply (Hred (CallDOI doi)); [constructor | exact H].
    + right. exists id, (VStr pmcid), "PMCID"%string.
      split; [reflexivity|]. left. now split.
Qed.

Import Sample.

(** A failing [fromURL] on a URL with a scheme reports that URL. *)
Lemma adapter_call_returns_record_or_marker_witness :
  keepsArgument (CallURL (lit "https://example.com/"))
  /\ exists r s',
       run offline silent (CallURL (lit "https://example.com/")) fresh = Ret r s'
       /\ prop r (lit "identifier") = VStr (lit "https://example.com/")
       /\ prop r (lit "type") = VStr (lit "URL").
Proof.
  split; [reflexivity|].
  assert (Ec : exists s0,
             run offline silent (CallURL (lit "https://example.com/")) fresh
             = Ret (FailureMarker (lit "abcdefghijklmnop")
                      (VStr (lit "https://example.com/")) "URL") s0)
    by (eexists; vm_compute; reflexivity).
  destruct Ec as [s0 Ec].
  destruct (adapter_call_returns_record_or_marker offline silent
              (CallURL (lit "https://example.com/")) fresh)
    as (r & s' & E & H).
  exists r, s'. split; [exact E|].
  rewrite Ec in E. injection E as Hr Hs.
  destruct H as [Hf|(id & identifier & type & Hm & [[Hty Harg]|_])].
  - rewrite <- Hr in Hf. discriminate Hf.
  - rewrite Hm, (Harg eq_refl), Hty. split; reflexivity.
  - rewrite <- Hr. split; reflexivity.
Defined.

(** C1 as stated fails twice: a PubMed lookup whose record carries a DOI
    that Crossref does not know returns a marker of type DOI for the DOI,
    and a URL lookup of a string without a scheme reports the string with
    [https://] in front. *)
Lemma marker_of_redirect_and_of_schemeless_url :
  (exists r s',
     run (pubmedAnswers withDoi) silent (CallPMID (lit "12345678")) fresh = Ret r s'
     /\ isFailed r = true
     /\ prop r (lit "type") = VStr (lit "DOI")
     /\ prop r (lit "identifier") = VStr (lit "10.1000/xyz123")
     /\ prop r (lit "type") <> VStr (lit (typeOf (CallPMID (lit "12345678"))))
     /\ prop r (lit "identifier") <> argOf (CallPMID (lit "12345678")))
  /\ (exists r s',
        run offline silent (CallURL (lit "example.com")) fresh = Ret r s'
        /\ isFailed r = true
        /\ prop r (lit "identifier") = VStr (lit "https://example.com")
        /\ prop r (lit "identifier") <> argOf (CallURL (lit "example.com"))).
Proof.
  split; eexists; eexists; (split; [vm_compute; reflexivity|]);
    repeat split; try (vm_compute; reflexivity); vm_compute; discriminate.
Qed.

(** ** Redirection of the PubMed adapters *)

Lemma fromDOI_passes_try (env : Env) (options : CSLJsonParser.Options)
    (doi : val) (handler : exn -> M val) (s : State) :
  tryCatch (CSLJsonParser.fromDOI env options doi) handler s
  = CSLJsonParser.fromDOI env options doi s.
Proof.
  unfold tryCatch at 1.
  destruct (fromDOI_settles env options doi s) as (r & s' & E & _).
  now rewrite E.
Qed.

Lemma isErrorBody_not_error (data : val) :
  truthy (optProp data (lit "DOI")) = true ->
  isStr (lit "error") (prop data (lit "status")) = false ->
  CSLJsonParser.isErrorBody data = inr false.
Proof.
  intros Hdoi Hstatus.
  destruct data; try discriminate Hdoi.
  unfold CSLJsonParser.isErrorBody, hasProp.
  destruct (assoc (lit "status") props); [now rewrite Hstatus | reflexivity].
Qed.

(** C2, as the code has it. When the body of the PubMed response is not an
    error body and its DOI is truthy, the PMID and PMCID adapters do exactly
    what [fromDOI] does on that DOI: same returned value, same final state.
    The store therefore gains the DOI record or nothing. *)
Theorem pubmed_record_with_doi_redirects
    (env : Env) (options : CSLJsonParser.Options) (id : jstr) (s : State)
    (response : Response) (data : val) :
  json response = inr data ->
  isStr (lit "error") (prop data (lit "status")) = false ->
  truthy (optProp data (lit "DOI")) = true ->
  (fetch env (CSLJsonParser.CORS_PROXY
                ++ lit "https://api.ncbi.nlm.nih.gov/lit/ctxp/v1/pubmed/?format=csl&id="
                ++ id) = inr response ->
   CSLJsonParser.fromPMID env options id s
   = CSLJsonParser.fromDOI env options (optProp data (lit "DOI")) s)
  /\ (fetch env (CSLJsonParser.CORS_PROXY
                   ++ lit "https://api.ncbi.nlm.nih.gov/lit/ctxp/v1/pmc/?format=csl&id="
                   ++ stripPMC id) = inr response ->
      CSLJsonParser.fromPMCID env options id s
      = CSLJsonParser.fromDOI env options (optProp data (lit "DOI")) s)
  /\ exists r s',
       CSLJsonParser.fromDOI env options (optProp data (lit "DOI")) s = Ret r s'
       /\ (appended s r s' \/ failedWith s (optProp data (lit "DOI")) "DOI" r s').
Proof.
  intros Hjson Hstatus Hdoi.
  pose proof (isErrorBody_not_error data Hdoi Hstatus) as Hbody.
  split; [|split].
  - intros Hfetch.
    rewrite <- (fromDOI_passes_try env options (optProp data (lit "DOI"))
                  (CSLJsonParser.caught env options (VStr id) "PMID") s).
    unfold CSLJsonParser.fromPMID, tryCatch, bind.
    rewrite Hfetch. cbn [lift ret]. rewrite Hjson. cbn [lift ret].
    rewrite Hbody. cbn [lift ret when]. rewrite Hdoi. reflexivity.
  - intros Hfetch.
    rewrite <- (fromDOI_passes_try env options (optProp data (lit "DOI"))
                  (CSLJsonParser.caught env options (VStr id) "PMCID") s).
    unfold CSLJsonParser.fromPMCID, tryCatch, bind.
    rewrite Hfetch. cbn [lift ret]. rewrite Hjson. cbn [lift ret].
    rewrite Hbody. cbn [lift ret when]. rewrite Hdoi. reflexivity.
  - apply fromDOI_settles.
Qed.

Lemma pubmed_record_with_doi_redirects_witness :
  CSLJsonParser.fromPMID (pubmedAnswers withDoi) silent (lit "12345678") fresh
  = CSLJsonParser.fromDOI (pubmedAnswers withDoi) silent (VStr (lit "10.1000/xyz123")) fresh
  /\ CSLJsonParser.fromPMCID (pubmedAnswers withDoi) silent (lit "PMC1234567") fresh
     = CSLJsonParser.fromDOI (pubmedAnswers withDoi) silent (VStr (lit "10.1000/xyz123")) fresh.
Proof.
  split.
  - apply (pubmed_record_with_doi_redirects (pubmedAnswers withDoi) silent
             (lit "12345678") fresh (ok withDoi) withDoi);
      vm_compute; reflexivity.
  - apply (pubmed_record_with_doi_redirects (pubmedAnswers withDoi) silent
             (lit "PMC1234567") fresh (ok withDoi) withDoi);
      vm_compute; reflexivity.
Defined.

(** C2 as stated fails twice: an error body that carries a DOI makes the
    PMID adapter fail with its own marker, and a body whose DOI is the
    empty string makes it build and append its own record. *)
Lemma doi_field_without_redirect :
  (prop errorWithDoi (lit "DOI") = VStr (lit "10.1000/xyz123")
   /\ (exists id s',
         CSLJsonParser.fromPMID (pubmedAnswers errorWithDoi) silent (lit "12345678") fresh
         = Ret (FailureMarker id (VStr (lit "12345678")) "PMID") s')
   /\ CSLJsonParser.fromPMID (pubmedAnswers errorWithDoi) silent (lit "12345678") fresh
      <> CSLJsonParser.fromDOI (pubmedAnswers errorWithDoi) silent
           (prop errorWithDoi (lit "DOI")) fresh)
  /\ (assoc (lit "DOI") [(lit "DOI", VStr []); (lit "title", VStr (lit "A study"))]
      = Some (VStr [])
      /\ (exists r s',
            CSLJsonParser.fromPMID (pubmedAnswers emptyDoi) silent (lit "12345678") fresh
            = Ret r s'
            /\ isFailed r = false
            /\ prop r (lit "title") = VStr (lit "A study")
            /\ cslJson s' = [r])
      /\ CSLJsonParser.fromPMID (pubmedAnswers emptyDoi) silent (lit "12345678") fresh
         <> CSLJsonParser.fromDOI (pubmedAnswers emptyDoi) silent
              (prop emptyDoi (lit "DOI")) fresh).
Proof.
  split; (split; [vm_compute; reflexivity|]); split.
  - eexists; eexists; vm_compute; reflexivity.
  - vm_compute; discriminate.
  - eexists; eexists; split; [vm_compute; reflexivity|].
    repeat split; vm_compute; reflexivity.
  - vm_compute; discriminate.
Qed.

(** ** The ISBN adapter on a catalogue hit *)

Lemma post_lift {A} (x : exn + A) (k : A -> M val) Q (s : State) :
  (forall a, x = inr a -> post Q (cslJson s) (k a s)) ->
  post Q (cslJson s) (bind (lift x) k s).
Proof.
  intros H. unfold bind. destruct x as [e|a]; simpl; auto.
Qed.

Lemma post_when_throw (b : bool) (e : exn) (k : unit -> M val) Q (s : State) :
  (b = false -> post Q (cslJson s) (k tt s)) ->
  post Q (cslJson s) (bind (when b (throw e)) k s).
Proof.
  intros H. unfold bind. destruct b; simpl; auto.
Qed.

Lemma getProp_defined (v : val) (k : jstr) :
  nullish v = false -> getProp v k = inr (prop v k).
Proof. intros H. unfold getProp. now rewrite H. Qed.

(** C10. When the search response reports at least one hit and its first
    document has no [author_name], the ISBN adapter returns a failure marker
    of type ISBN for the ISBN it was given, and the store is unchanged. *)
Theorem isbn_hit_without_authors_fails
    (env : Env) (options : CSLJsonParser.Options) (isbn : jstr) (s : State)
    (response : Response) (data : val) (n : Z) (d : positive)
    (doc : val) (rest : list val) :
  fetch env (lit "https://openlibrary.org/search.json?q=isbn:" ++ isbn
               ++ lit "&mode=everything&fields=*,editions") = inr response ->
  json response = inr data ->
  prop data (lit "numFound") = VNum (Fin n d) ->
  (0 < n)%Z ->
  prop data (lit "docs") = VArr (doc :: rest) ->
  prop doc (lit "author_name") = VUndef ->
  exists id s',
    CSLJsonParser.fromISBN env options isbn s
    = Ret (FailureMarker id (VStr isbn) "ISBN") s'
    /\ cslJson s' = cslJson s.
Proof.
  intros Hfetch Hjson Hnum Hpos Hdocs Hauthors.
  assert (Hdata : nullish data = false) by (destruct data; try discriminate; reflexivity).
  unfold CSLJsonParser.fromISBN.
  match goal with
  | |- context [tryCatch ?body _ s] =>
      destruct (tryCatch_caught env options body (fun _ _ => False)
                  (VStr isbn) "ISBN" s) as (r & s' & E & H)
  end.
  - apply post_lift. intros a Ha. rewrite Hfetch in Ha. injection Ha as <-.
    apply post_lift. intros a Ha. rewrite Hjson in Ha. injection Ha as <-.
    apply post_lift. intros a Ha.
    rewrite (getProp_defined _ _ Hdata), Hnum in Ha. injection Ha as <-.
    apply post_when_throw. intros _.
    apply post_lift. intros a Ha.
    rewrite (getProp_defined _ _ Hdata), Hdocs in Ha. injection Ha as <-.
    apply post_lift. intros a Ha. injection Ha as <-.
    apply post_still; [solve [still_tac] | intros edition].
    apply post_quiet; [apply quiet_uid | reflexivity | intros id s1 Hs1].
    assert (Hthrow : CSLJsonParser.createAuthorsArray (optProp doc (lit "author_name"))
                     = inl (TypeError "Cannot read properties of undefined (reading 'map')")).
    { unfold optProp. rewrite Hauthors. now destruct (nullish doc). }
    unfold bind at 1. rewrite Hthrow. simpl. exact Hs1.
  - destruct H as [[]|[[id ->] Hs]].
    exists id, s'. split; [exact E | exact Hs].
Qed.

Lemma isbn_hit_without_authors_fails_witness :
  exists id s',
    CSLJsonParser.fromISBN (catalogue bookWithoutAuthors) silent
      (lit "9783161484100") fresh
    = Ret (FailureMarker id (VStr (lit "9783161484100")) "ISBN") s'
    /\ cslJson s' = cslJson fresh.
Proof.
  apply (isbn_hit_without_authors_fails (catalogue bookWithoutAuthors) silent
           (lit "9783161484100") fresh
           (ok (VObj [(lit "numFound", VNum (int 1));
                      (lit "docs", VArr [VObj bookWithoutAuthors])]))
           (VObj [(lit "numFound", VNum (int 1));
                  (lit "docs", VArr [VObj bookWithoutAuthors])])
           1%Z 1%positive (VObj bookWithoutAuthors) []);
    try (vm_compute; reflexivity).
Defined.

(** C7 at a failing input: the first edition's publish date is the string
    ["unknown"], which [Date] does not parse; the adapter succeeds and the
    record's [issued] is the date object of an invalid date, whose only date
    part is [NaN]. *)
Lemma isbn_unparseable_date_is_issued :
  newDate (catalogue (bookPublished "unknown")) (VStr (lit "unknown")) = InvalidDate
  /\ exists r s',
       CSLJsonParser.fromISBN (catalogue (bookPublished "unknown")) silent
         (lit "9783161484100") fresh = Ret r s'
       /\ isFailed r = false
       /\ cslJson s' = [r]
       /\ prop r (lit "issued")
          = VObj [(lit "date-parts", VArr [VArr [VNum NaN]])].
Proof.
  split; [reflexivity|].
  eexists; eexists; split; [vm_compute; reflexivity|].
  repeat split; vm_compute; reflexivity.
Qed.

(** What the adapter does on every input: the record's [issued] is set
    exactly when the first edition's first publish date is truthy, and it is
    then the date object of whatever [Date] makes of that value. *)
Lemma isbn_issued_follows_truthiness
    (env : Env) (options : CSLJsonParser.Options) (isbn : jstr) (s : State)
    (r : val) (s' : State) :
  CSLJsonParser.fromISBN env options isbn s = Ret r s' ->
  isFailed r = false ->
  prop r (lit "issued") = VUndef
  \/ exists v, truthy v = true
               /\ prop r (lit "issued")
                  = CSLJsonParser.createDateObject (inl (newDate env v)) None None.
Proof.
  unfold CSLJsonParser.fromISBN. intros E Hf.
  match type of E with
  | tryCatch ?body _ s = _ =>
      destruct (tryCatch_caught env options body
                  (fun r _ => prop r (lit "issued") = VUndef
                     \/ exists v, truthy v = true
                          /\ prop r (lit "issued")
                             = CSLJsonParser.createDateObject (inl (newDate env v)) None None)
                  (VStr isbn) "ISBN" s) as (r0 & s0 & E0 & H)
  end.
  - post_stills.
    apply post_quiet; [apply quiet_uid | reflexivity | intros id s1 Hs1].
    rewrite <- Hs1. post_stills. apply post_push.
    match goal with
    | |- context [if truthy ?v then Some (newDate env ?w) else None] =>
        destruct (truthy v) eqn:Ht
    end.
    + right.
      match goal with
      | |- context [newDate env ?w] => exists w
      end.
      split; [|vm_compute; reflexivity].
      match goal with
      | H : truthy (if nullish ?pd then VUndef else first ?pd) = true |- _ =>
          destruct (nullish pd) eqn:Hn; [discriminate H|];
          unfold optProp in H, Hn
      end.
      match goal with
      | H : nullish (if nullish ?e then _ else _) = false |- _ =>
          destruct (nullish e); [discriminate H|]
      end.
      assumption.
    + left. vm_compute. reflexivity.
  - rewrite E in E0. inversion E0; subst.
    destruct H as [H|H]; [exact H|].
    rewrite (failedWith_isFailed _ _ _ _ _ H) in Hf. discriminate.
Qed.

(** ** The renderer adapter *)

Section Renderer.

Variable env : Env.
Variable options : CSLJsonParser.Options.

Lemma mapM_ids (items : list val) (s : State) :
  match CSLJsonParser.mapM (fun item => lift (getProp item (lit "id"))) items s with
  | Ret ids s' => ids = itemIDsOf items /\ s' = s
  | Throw _ s' => s' = s
  | Exit _ _ => False
  end.
Proof.
  induction items as [|item items IH]; simpl; [split; reflexivity|].
  unfold bind at 1. unfold getProp.
  destruct (nullish item); simpl; [reflexivity|].
  unfold bind at 1.
  destruct (CSLJsonParser.mapM _ items s) as [ids s'|e s'|c s']; simpl.
  - destruct IH as [-> ->]. split; reflexivity.
  - exact IH.
  - exact IH.
Qed.

Lemma post_mapM_ids (k : list val -> M val) Q (s : State) :
  post Q (cslJson s) (k (itemIDsOf (cslJson s)) s) ->
  post Q (cslJson s)
    (bind (CSLJsonParser.mapM (fun item => lift (getProp item (lit "id"))) (cslJson s))
          k s).
Proof.
  intros H. unfold bind. pose proof (mapM_ids (cslJson s) s) as Hm.
  destruct (CSLJsonParser.mapM _ (cslJson s) s) as [ids s'|e s'|c s'].
  - destruct Hm as [-> ->]. exact H.
  - subst s'. reflexivity.
  - contradiction.
Qed.

Lemma post_getCslFile (style : jstr) (k : jstr -> M val) Q (s : State) :
  (forall text,
     xhrGet env (lit "https://raw.githubusercontent.com/citation-style-language/styles/master/"
                   ++ style ++ lit ".csl") = inr text ->
     startsWith text (lit "404:") = false ->
     post Q (cslJson s) (k text s)) ->
  post Q (cslJson s) (bind (CSLJsonParser.getCslFile env style) k s).
Proof.
  intros H. unfold CSLJsonParser.getCslFile, bind at 1 2.
  destruct (xhrGet env _) as [e|text] eqn:E; unfold lift, throw, ret;
    cbv beta iota; [reflexivity|].
  destruct (startsWith text (lit "404:")) eqn:E404; cbv beta iota; [reflexivity|].
  apply H; [reflexivity | exact E404].
Qed.

Lemma post_getLocaleFile (lang : jstr) (k : jstr -> M val) Q (s : State) :
  (forall text,
     xhrGet env (lit "https://raw.githubusercontent.com/citation-style-language/locales/master/locales-"
                   ++ lang ++ lit ".xml") = inr text ->
     startsWith text (lit "404:") = false ->
     post Q (cslJson s) (k text s)) ->
  post Q (cslJson s) (bind (CSLJsonParser.getLocaleFile env lang) k s).
Proof.
  intros H. unfold CSLJsonParser.getLocaleFile, bind at 1 2.
  destruct (xhrGet env _) as [e|text] eqn:E; unfold lift, throw, ret;
    cbv beta iota; [reflexivity|].
  destruct (startsWith text (lit "404:")) eqn:E404; cbv beta iota; [reflexivity|].
  apply H; [reflexivity | exact E404].
Qed.

(** [toBibliography] always returns. It returns a string only when the
    style file and the locale file were retrieved and the engine returned;
    it returns [null] otherwise. The store is not changed. *)
Lemma toBibliography_string_needs_all (opts : CSLJsonParser.ToBibliographyOptions)
    (s : State) :
  exists r s',
    CSLJsonParser.toBibliography env options opts s = Ret r s'
    /\ cslJson s' = cslJson s
    /\ (r = VNull
        \/ exists cslFile localeFile references joined,
             xhrGet env (styleUrl opts) = inr cslFile
             /\ startsWith cslFile (lit "404:") = false
             /\ xhrGet env (localeUrl opts) = inr localeFile
             /\ startsWith localeFile (lit "404:") = false
             /\ citeproc env cslFile localeFile
                  (toLowerCase (CSLJsonParser.withDefault (CSLJsonParser.format opts) "text"))
                  (itemIDsOf (cslJson s)) (cslJson s) = inr references
             /\ r = VStr joined).
Proof.
  unfold CSLJsonParser.toBibliography, tryCatch.
  match goal with
  | |- context [match ?body s with _ => _ end] =>
      assert (Hpost :
        post (fun r s' =>
                s' = s
                /\ exists cslFile localeFile references joined,
                     xhrGet env (styleUrl opts) = inr cslFile
                     /\ startsWith cslFile (lit "404:") = false
                     /\ xhrGet env (localeUrl opts) = inr localeFile
                     /\ startsWith localeFile (lit "404:") = false
                     /\ citeproc env cslFile localeFile
                          (toLowerCase
                             (CSLJsonParser.withDefault (CSLJsonParser.format opts) "text"))
                          (itemIDsOf (cslJson s)) (cslJson s) = inr references
                     /\ r = VStr joined)
             (cslJson s) (body s));
      [|destruct (body s) as [r s1|e s1|c s1]]
  end.
  - unfold bind at 1, gets at 1.
    apply post_mapM_ids.
    apply post_getCslFile. intros cslFile Hstyle Hstyle404.
    apply post_getLocaleFile. intros localeFile Hlocale Hlocale404.
    apply post_lift. intros references Hrefs.
    apply post_lift. intros entries _.
    apply post_lift. intros joined _.
    simpl. split; [reflexivity|].
    exists cslFile, localeFile, references, joined. repeat split; assumption.
  - destruct Hpost as [-> H]. exists r, s. split; [reflexivity|]. split; [reflexivity|].
    right. exact H.
  - simpl in Hpost. unfold bind, when.
    destruct (CSLJsonParser.logErrors options);
      eexists; eexists; (split; [reflexivity|]); (split; [exact Hpost | now left]).
  - contradiction.
Qed.

End Renderer.

(** C6. [toBibliography] always resolves, to [null] or to one string, and
    it resolves to [null] whenever retrieving the style file fails,
    retrieving the locale file fails (a body that begins with [404:]
    included), or the engine throws. *)
Theorem toBibliography_fails_as_a_whole
    (env : Env) (options : CSLJsonParser.Options)
    (opts : CSLJsonParser.ToBibliographyOptions) (s : State) :
  (exists r s',
     CSLJsonParser.toBibliography env options opts s = Ret r s'
     /\ (r = VNull \/ exists bibliography, r = VStr bibliography))
  /\ (retrievalFails env (styleUrl opts)
      \/ retrievalFails env (localeUrl opts)
      \/ engineThrows env opts s ->
      exists s', CSLJsonParser.toBibliography env options opts s = Ret VNull s').
Proof.
  destruct (toBibliography_string_needs_all env options opts s)
    as (r & s' & E & _ & H).
  split.
  - exists r, s'. split; [exact E|].
    destruct H as [H|(c & l & refs & j & _ & _ & _ & _ & _ & H)]; eauto.
  - intros Hfail. exists s'. rewrite E. f_equal.
    destruct H as [H|(c & l & refs & j & Hs & Hs404 & Hl & Hl404 & Hc & _)];
      [exact H|exfalso].
    destruct Hfail as [Hf|[Hf|Hf]].
    + unfold retrievalFails in Hf. rewrite Hs in Hf. congruence.
    + unfold retrievalFails in Hf. rewrite Hl in Hf. congruence.
    + destruct (Hf c l Hs Hl) as [e He]. congruence.
Qed.

Lemma toBibliography_fails_as_a_whole_witness :
  retrievalFails styleMissing
    (styleUrl {| CSLJsonParser.style := Some (lit "no-such-style");
                 CSLJsonParser.locale := None; CSLJsonParser.format := None |})
  /\ exists s',
       CSLJsonParser.toBibliography styleMissing silent
         {| CSLJsonParser.style := Some (lit "no-such-style");
            CSLJsonParser.locale := None; CSLJsonParser.format := None |}
         (with_cslJson fresh [oneRecord]) = Ret VNull s'.
Proof.
  split; [vm_compute; reflexivity|].
  apply (toBibliography_fails_as_a_whole styleMissing silent
           {| CSLJsonParser.style := Some (lit "no-such-style");
              CSLJsonParser.locale := None; CSLJsonParser.format := None |}
           (with_cslJson fresh [oneRecord])).
  left. vm_compute. reflexivity.
Defined.

(** C5 at a failing input: the engine produced one reference-list entry.
    [toBibliography] returns that entry as a single string, not a pair, and
    [formatBibliography], which takes the result apart as a pair, shows the
    first character of the string as the reference list and the second as
    the in-text citation. *)
Lemma renderer_returns_a_single_string :
  (exists s',
     CSLJsonParser.toBibliography rendering silent
       {| CSLJsonParser.style := Some (lit "apa"); CSLJsonParser.locale := Some (lit "en-US");
          CSLJsonParser.format := Some (lit "text") |}
       (with_cslJson fresh [oneRecord])
     = Ret (VStr (lit "Doe, J. (2020). Title." ++ LF)) s')
  /\ Cli.destructure2 (VStr (lit "Doe, J. (2020). Title." ++ LF))
     = inr (VStr (lit "D"), VStr (lit "o"))
  /\ (exists s',
        Cli.formatBibliography rendering [oneRecord] apaText fresh
        = Ret (VStr (RESULT.SUCCESS ++ lit " " ++ FONT.GREEN
                       ++ lit "Successfully generated references:" ++ FONT.RESET ++ LF
                       ++ CR ++ FONT.GRAY ++ lit "Reference list entries:"
                       ++ FONT.RESET ++ LF ++ lit "D" ++ LF
                       ++ CR ++ FONT.GRAY ++ lit "In-text citation:"
                       ++ FONT.RESET ++ LF ++ lit "o" ++ LF ++ LF)) s').
Proof.
  split; [eexists; vm_compute; reflexivity|].
  split; [vm_compute; reflexivity|].
  eexists; vm_compute; reflexivity.
Qed.

(** ** The [config] subcommand *)

Section Config.

Variable env : Env.

Lemma bind_Ret {A B} (m : M A) (k : A -> M B) (s : State) (a : A) (s1 : State) :
  m s = Ret a s1 -> bind m k s = k a s1.
Proof. intros E. unfold bind. now rewrite E. Qed.


Lemma bind_Exit {A B} (m : M A) (k : A -> M B) (s : State) (c : Z) (s1 : State) :
  m s = Exit c s1 -> bind m k s = Exit c s1.
Proof. intros E. unfold bind. now rewrite E. Qed.

Lemma keepsFile_bind {A B} (m : M A) (k : A -> M B) :
  keepsFile m -> (forall a, keepsFile (k a)) -> keepsFile (bind m k).
Proof.
  intros Hm Hk s. unfold bind. specialize (Hm s).
  destruct (m s) as [a s1|e s1|c s1]; auto.
  specialize (Hk a s1). destruct (k a s1); intuition congruence.
Qed.

Lemma keepsFile_tryCatch {A} (body : M A) (handler : exn -> M A) :
  keepsFile body -> (forall e, keepsFile (handler e)) -> keepsFile (tryCatch body handler).
Proof.
  intros Hb Hh s. unfold tryCatch. specialize (Hb s).
  destruct (body s) as [a s1|e s1|c s1]; auto.
  specialize (Hh e s1). destruct (handler e s1); intuition congruence.
Qed.

Lemma keepsFile_ret {A} (a : A) : keepsFile (ret a).
Proof. intros s. reflexivity. Qed.

Lemma keepsFile_lift {A} (x : exn + A) : keepsFile (lift x).
Proof. intros s. destruct x; reflexivity. Qed.

Lemma keepsFile_gets {A} (f : State -> A) : keepsFile (gets f).
Proof. intros s. reflexivity. Qed.

Lemma keepsFile_exit1 {A} : keepsFile (@exit A 1%Z).
Proof. intros s. split; reflexivity. Qed.

Lemma keepsFile_stderr_write (t : jstr) : keepsFile (stderr_write t).
Proof. intros s. reflexivity. Qed.

Lemma keepsFile_mkdirSync : keepsFile (Cli.mkdirSync env).
Proof. intros s. unfold Cli.mkdirSync. destruct (mkdirFault env); reflexivity. Qed.

Lemma keepsFile_readFileSync : keepsFile (Cli.readFileSync env).
Proof.
  intros s. unfold Cli.readFileSync.
  destruct (readFault env); [reflexivity|].
  destruct (configFile s) eqn:F; cbv beta iota; congruence.
Qed.

Lemma keepsFile_cache (c : val) : keepsFile (modify (fun s => with_cachedConfig s c)).
Proof. intros s. reflexivity. Qed.

Lemma getConfigFile_keeps_file : keepsFile (Cli.getConfigFile env).
Proof.
  unfold Cli.getConfigFile.
  apply keepsFile_bind; [apply keepsFile_gets | intros cached].
  destruct (truthy cached); [apply keepsFile_ret|].
  apply keepsFile_bind; [apply keepsFile_gets | intros dirExists].
  apply keepsFile_bind;
    [unfold when; destruct (negb dirExists);
       [apply keepsFile_mkdirSync | apply keepsFile_ret] | intros _].
  apply keepsFile_bind; [apply keepsFile_gets | intros file].
  destruct file.
  - apply keepsFile_tryCatch.
    + apply keepsFile_bind; [apply keepsFile_readFileSync | intros content].
      apply keepsFile_bind; [apply keepsFile_lift | intros parsed].
      apply keepsFile_bind; [apply keepsFile_cache | intros _].
      apply keepsFile_ret.
    + intros e. apply keepsFile_bind; [apply keepsFile_stderr_write | intros _].
      apply keepsFile_exit1.
  - apply keepsFile_bind; [apply keepsFile_cache | intros _]. apply keepsFile_ret.
Qed.



End Config.




(** * Further properties *)

(** ** Unique identifiers *)

Lemma uid_word (env : Env) (s : State) :
  exists id, uid env s = Ret id (with_rndCalls s (S (rndCalls s))) /\ isUid id.
Proof.
  eexists. split; [reflexivity|]. split.
  - now rewrite length_map, length_seq.
  - rewrite forallb_forall. intros c Hc.
    apply in_map_iff in Hc. destruct Hc as (i & <- & _).
    assert (Hall : forallb (fun c => (alnum c || N.eqb c (ch "_"))%bool) uid_chars = true)
      by (vm_compute; reflexivity).
    rewrite forallb_forall in Hall. apply Hall.
    apply nth_In.
    change (List.length uid_chars) with 63%nat.
    pose proof (N.mod_upper_bound (randomByte env (rndCalls s) i) 63 ltac:(discriminate)).
    lia.
Qed.

(** X1. [uid()] returns sixteen characters, each a letter, a digit or an
    underscore, and counts one more draw of random bytes. *)
Theorem uid_is_sixteen_word_characters (env : Env) (s : State) :
  exists id,
    uid env s = Ret id (with_rndCalls s (S (rndCalls s)))
    /\ List.length id = 16%nat
    /\ forallb (fun c => (alnum c || N.eqb c (ch "_"))%bool) id = true.
Proof.
  destruct (uid_word env s) as (id & E & Hl & Hc). exists id. auto.
Qed.

(** ** The classifier *)

Lemma trimStart_idempotent (s : jstr) : trimStart (trimStart s) = trimStart s.
Proof.
  induction s as [|c s IH]; simpl; [reflexivity|].
  destruct (isWhiteSpace c) eqn:E; [exact IH|]. simpl. now rewrite E.
Qed.

Lemma trimStart_snoc (l : jstr) (c : char) :
  isWhiteSpace c = false -> trimStart (l ++ [c]) = trimStart l ++ [c].
Proof.
  intros Hc. induction l as [|d l IH]; simpl.
  - now rewrite Hc.
  - destruct (isWhiteSpace d); [exact IH | reflexivity].
Qed.

Lemma trimEnd_keeps_head (c : char) (s : jstr) :
  isWhiteSpace c = false -> exists t, trimEnd (c :: s) = c :: t.
Proof.
  intros Hc. unfold trimEnd. simpl rev.
  rewrite (trimStart_snoc _ _ Hc), rev_app_distr. simpl. eauto.
Qed.

Lemma trimStart_trim (s : jstr) : trimStart (trim s) = trim s.
Proof.
  unfold trim.
  assert (H : trimStart s = [] \/ exists c t, trimStart s = c :: t /\ isWhiteSpace c = false).
  { induction s as [|c s IH]; simpl; [now left|].
    destruct (isWhiteSpace c) eqn:E; [exact IH|]. right. eauto. }
  destruct H as [->|(c & t & -> & Hc)]; [reflexivity|].
  destruct (trimEnd_keeps_head c t Hc) as [u ->]. simpl. now rewrite Hc.
Qed.

Lemma trim_idempotent (s : jstr) : trim (trim s) = trim s.
Proof.
  unfold trim at 1. rewrite trimStart_trim.
  unfold trim, trimEnd. rewrite rev_involutive, trimStart_idempotent. reflexivity.
Qed.

(** X2. Whatever the input, the value the classifier returns has no white
    space at either end. *)
Theorem classified_value_is_trimmed (input : jstr) :
  isTrimmed (snd (recognizeIdentifierType input)).
Proof.
  unfold isTrimmed, recognizeIdentifierType.
  assert (H : forall entries r,
             matchPrefix (trim input) entries = Some r -> trim (snd r) = snd r).
  { induction entries as [|[prefix type] entries IH]; intros r; simpl; [discriminate|].
    destruct (startsWith (trim input) prefix); [|apply IH].
    intros [= <-]. simpl. apply trim_idempotent. }
  destruct (matchPrefix (trim input) identifierPrefixes) as [r|] eqn:E.
  - now apply (H identifierPrefixes).
  - destruct (matchPattern _ patterns); simpl; apply trim_idempotent.
Qed.

(** *** What a matching string looks like *)

Lemma nullable_lang (r : re) : nullable r = true -> lang r [].
Proof.
  induction r; simpl; intros H; try discriminate.
  - constructor.
  - apply andb_true_iff in H. destruct H as [H1 H2].
    change (@nil char) with (@nil char ++ []). constructor; auto.
  - apply orb_true_iff in H. destruct H; [apply lang_Alt_l | apply lang_Alt_r]; auto.
  - constructor.
Qed.

Lemma deriv_lang (c : char) (r : re) : forall s, lang (deriv c r) s -> lang r (c :: s).
Proof.
  induction r; simpl; intros s H.
  - inversion H.
  - inversion H.
  - destruct (p c) eqn:E; inversion H; subst. now constructor.
  - destruct (nullable r1) eqn:N.
    + inversion H as [| |? ? ? ? | ? ? ? H1 | ? ? ? H1 | |]; subst.
      * inversion H1; subst.
        change (c :: s1 ++ s2) with ((c :: s1) ++ s2). constructor; auto.
      * change (c :: s) with ([] ++ c :: s). constructor; auto using nullable_lang.
    + inversion H; subst.
      change (c :: s1 ++ s2) with ((c :: s1) ++ s2). constructor; auto.
  - inversion H; subst; [apply lang_Alt_l | apply lang_Alt_r]; auto.
  - inversion H; subst.
    change (c :: s1 ++ s2) with ((c :: s1) ++ s2). constructor; auto.
Qed.

(** A string that [test] accepts is in the language of the pattern. *)
Lemma test_lang (s : jstr) : forall r, test r s = true -> lang r s.
Proof.
  induction s as [|c s IH]; simpl; intros r H.
  - now apply nullable_lang.
  - apply deriv_lang, IH, H.
Qed.

Lemma lang_Cat_inv (a b : re) (s : jstr) :
  lang (Cat a b) s -> exists s1 s2, s = s1 ++ s2 /\ lang a s1 /\ lang b s2.
Proof. intros H. inversion H; subst. eauto. Qed.

Lemma lang_Chr_inv (p : char -> bool) (s : jstr) :
  lang (Chr p) s -> exists c, s = [c] /\ p c = true.
Proof. intros H. inversion H; subst. eauto. Qed.

Lemma lang_Opt_inv (a : re) (s : jstr) : lang (Opt a) s -> s = [] \/ lang a s.
Proof.
  unfold Opt. intros H. inversion H as [| | | ? ? ? H1 | ? ? ? H1 | |]; subst; auto.
  inversion H1. now left.
Qed.

Lemma lang_Str (l s : jstr) : lang (Str l) s -> s = l.
Proof.
  revert s. induction l as [|c l IH]; simpl; intros s H.
  - now inversion H.
  - apply lang_Cat_inv in H. destruct H as (s1 & s2 & -> & H1 & H2).
    apply lang_Chr_inv in H1. destruct H1 as (d & -> & Hd).
    apply N.eqb_eq in Hd. subst d. simpl. f_equal. now apply IH.
Qed.

Lemma lang_Star_Chr (p : char -> bool) (s : jstr) :
  lang (Star (Chr p)) s -> forallb p s = true.
Proof.
  intros H. remember (Star (Chr p)) as r eqn:Er.
  induction H; try discriminate; [reflexivity|].
  injection Er as ->. apply lang_Chr_inv in H. destruct H as (c & -> & Hc).
  simpl. rewrite Hc. now apply IHlang2.
Qed.

Lemma lang_Times_Chr (p : char -> bool) (n : nat) :
  forall s, lang (Times n (Chr p)) s -> List.length s = n /\ forallb p s = true.
Proof.
  induction n as [|n IH]; simpl; intros s H.
  - inversion H. now split.
  - apply lang_Cat_inv in H. destruct H as (s1 & s2 & -> & H1 & H2).
    apply lang_Chr_inv in H1. destruct H1 as (c & -> & Hc).
    destruct (IH _ H2) as [Hl Hp]. simpl. rewrite Hc, Hl, Hp. now split.
Qed.

Lemma lang_UpTo_Chr (p : char -> bool) (n : nat) :
  forall s, lang (UpTo n (Chr p)) s -> (List.length s <= n)%nat /\ forallb p s = true.
Proof.
  induction n as [|n IH]; simpl; intros s H.
  - inversion H. now split.
  - apply lang_Opt_inv in H. destruct H as [->|H]; [simpl; split; [lia|reflexivity]|].
    apply lang_Cat_inv in H. destruct H as (s1 & s2 & -> & H1 & H2).
    apply lang_Chr_inv in H1. destruct H1 as (c & -> & Hc).
    destruct (IH _ H2) as [Hl Hp]. simpl. rewrite Hc, Hp. split; [lia|reflexivity].
Qed.

Lemma PMCID_shape (s : jstr) :
  test PMCID_pattern s = true -> exists t, s = 80 :: t.
Proof.
  intros H. apply test_lang, lang_Cat_inv in H.
  destruct H as (s1 & s2 & -> & H1 & _). apply lang_Str in H1. subst s1.
  eexists. reflexivity.
Qed.

Lemma URL_shape (s : jstr) :
  test URL_pattern s = true -> exists t, s = 104 :: t.
Proof.
  intros H. apply test_lang, lang_Cat_inv in H.
  destruct H as (s1 & s2 & -> & H1 & _).
  apply lang_Cat_inv in H1. destruct H1 as (s3 & s4 & -> & H3 & _).
  apply lang_Str in H3. subst s3. eexists. reflexivity.
Qed.

Lemma PMID_shape (s : jstr) :
  test PMID_pattern s = true ->
  forallb digit s = true /\ (7 <= List.length s <= 10)%nat.
Proof.
  intros H. apply test_lang, lang_Cat_inv in H.
  destruct H as (s1 & s2 & -> & H1 & H2).
  apply lang_Times_Chr in H1. apply lang_UpTo_Chr in H2.
  destruct H1 as [L1 P1], H2 as [L2 P2].
  rewrite forallb_app, P1, P2, length_app. split; [reflexivity | lia].
Qed.

Lemma ISBN_shape (s : jstr) :
  test ISBN_pattern s = true -> List.length s = 13%nat /\ exists t, s = 57 :: t.
Proof.
  intros H. apply test_lang, lang_Cat_inv in H.
  destruct H as (s1 & s2 & -> & H1 & H2). apply lang_Str in H1. subst s1.
  apply lang_Cat_inv in H2. destruct H2 as (s3 & s4 & -> & H3 & H4).
  apply lang_Chr_inv in H3. destruct H3 as (c & -> & _).
  apply lang_Cat_inv in H4. destruct H4 as (s5 & s6 & -> & H5 & H6).
  apply lang_Times_Chr in H5. destruct H5 as [L5 _].
  assert (L6 : List.length s6 = 1%nat).
  { inversion H6; subst;
      match goal with H : lang (Chr _) _ |- _ => inversion H; reflexivity end. }
  split; [|eexists; reflexivity].
  rewrite !length_app, L5, L6. reflexivity.
Qed.

Lemma DOI_shape (s : jstr) :
  test DOI_pattern s = true ->
  In 46 s /\ exists c t, s = c :: t /\ (c = 104 \/ c = 100 \/ c = 49).
Proof.
  intros H. apply test_lang, lang_Cat_inv in H.
  destruct H as (s1 & s2 & -> & H1 & H2).
  apply lang_Cat_inv in H2. destruct H2 as (s3 & s4 & -> & H3 & _).
  apply lang_Str in H3. subst s3.
  split; [apply in_or_app; right; simpl; auto|].
  apply lang_Opt_inv in H1. destruct H1 as [->|H1]; [exists 49; simpl; eauto|].
  apply lang_Cat_inv in H1. destruct H1 as (s5 & s6 & -> & H5 & H6).
  apply lang_Opt_inv in H5. destruct H5 as [->|H5].
  - apply lang_Cat_inv in H6. destruct H6 as (s7 & s8 & -> & H7 & H8).
    apply lang_Str in H8. subst s8.
    apply lang_Opt_inv in H7. destruct H7 as [->|H7]; [exists 100; simpl; eauto|].
    apply lang_Str in H7. subst s7. exists 100. simpl; eauto.
  - apply lang_Cat_inv in H5. destruct H5 as (s7 & s8 & -> & H7 & _).
    apply lang_Str in H7. subst s7. exists 104. simpl; eauto.
Qed.

Lemma digits_have_no_dot (s : jstr) : forallb digit s = true -> In 46 s -> False.
Proof.
  intros H Hin. rewrite forallb_forall in H. specialize (H _ Hin). discriminate.
Qed.

(** The DOI pattern apart, no two patterns accept the same string before
    the one that is tested later. *)
Lemma earlier_patterns_reject (type : IdentifierType) (pattern : re) (s : jstr) :
  In (type, pattern)
     [(PMCID, PMCID_pattern); (PMID, PMID_pattern); (ISBN, ISBN_pattern)] ->
  test pattern s = true ->
  test DOI_pattern s = false /\ test URL_pattern s = false
  /\ (type <> PMCID -> test PMCID_pattern s = false)
  /\ (type = ISBN -> test PMID_pattern s = false).
Proof.
  intros Hin H.
  assert (HD := DOI_shape s). assert (HU := URL_shape s).
  assert (HC := PMCID_shape s). assert (HM := PMID_shape s).
  destruct (test DOI_pattern s), (test URL_pattern s),
    (test PMCID_pattern s) eqn:EC, (test PMID_pattern s) eqn:EM;
    try specialize (HD eq_refl); try specialize (HU eq_refl);
    try specialize (HC eq_refl); try specialize (HM eq_refl);
    destruct Hin as [[= <- <-]|[[= <- <-]|[[= <- <-]|[]]]];
    try (apply PMCID_shape in H; destruct H as [t ->]);
    try (apply PMID_shape in H; destruct H as [Hd Hl]);
    try (apply ISBN_shape in H; destruct H as [Hl [t ->]]);
    repeat match goal with
           | H : _ /\ _ |- _ => destruct H
           | H : exists _, _ |- _ => destruct H
           | H : _ \/ _ |- _ => destruct H
           end;
    subst;
    try discriminate;
    try (exfalso; eapply digits_have_no_dot; eassumption);
    try (simpl in *; discriminate);
    try (simpl in *; lia);
    repeat split; try reflexivity; try congruence; intros; try congruence.
Qed.

Lemma pattern_rejects_prefixed (prefix : jstr) (type : IdentifierType)
    (t : IdentifierType) (pattern : re) (rest : jstr) :
  In (prefix, type) identifierPrefixes ->
  In (t, pattern) patterns ->
  test pattern (prefix ++ rest) = false.
Proof.
  intros Hin Hp.
  repeat (destruct Hin as [Heq|Hin]; [inversion Heq; subst; clear Heq|]);
    try contradiction;
    repeat (destruct Hp as [Heq|Hp]; [inversion Heq; subst; clear Heq|]);
    try contradiction;
    match goal with
    | |- test _ (lit ?p ++ _) = _ =>
        let l := eval vm_compute in (lit p) in change (lit p) with l
    end;
    cbn [app test]; apply void_sound; vm_compute; reflexivity.
Qed.

Lemma matchPrefix_None_of_match (t : IdentifierType) (pattern : re) (trimmed : jstr) :
  In (t, pattern) patterns ->
  test pattern (stripHyphens trimmed) = true ->
  matchPrefix trimmed identifierPrefixes = None.
Proof.
  intros Hp H.
  assert (Hno : forall prefix type, In (prefix, type) identifierPrefixes ->
                                    startsWith trimmed prefix = false).
  { intros prefix type Hin.
    destruct (startsWith trimmed prefix) eqn:E; [|reflexivity].
    destruct (startsWith_split _ _ E) as [rest ->].
    rewrite (stripHyphens_prefixed _ _ _ Hin) in H.
    rewrite (pattern_rejects_prefixed _ _ _ _ _ Hin Hp) in H. discriminate. }
  unfold identifierPrefixes in *. cbn [matchPrefix].
  repeat match goal with
         | |- context [startsWith trimmed ?p] =>
             rewrite (Hno p _ ltac:(simpl; eauto 10))
         end.
  reflexivity.
Qed.

(** X3. An input without an explicit prefix whose hyphen-stripped form
    matches the DOI, PMCID, PMID or ISBN pattern gets that type, and the
    value keeps its hyphens: apart from DOI and URL, no two patterns accept
    the same string, so the order of the tests decides nothing else. *)
Theorem pattern_alone_decides (input : jstr) (type : IdentifierType) (pattern : re) :
  In (type, pattern)
     [(DOI, DOI_pattern); (PMCID, PMCID_pattern); (PMID, PMID_pattern);
      (ISBN, ISBN_pattern)] ->
  test pattern (stripHyphens (trim input)) = true ->
  recognizeIdentifierType input = (type, trim input).
Proof.
  intros Hin H.
  assert (Hp : In (type, pattern) patterns).
  { unfold patterns. simpl in *. intuition auto. }
  unfold recognizeIdentifierType.
  rewrite (matchPrefix_None_of_match _ _ _ Hp H).
  unfold patterns. cbn [matchPattern].
  destruct Hin as [[= <- <-]|Hin]; [now rewrite H|].
  destruct (earlier_patterns_reject type pattern _ Hin H) as (HD & HU & HC & HM).
  rewrite HD, HU.
  destruct Hin as [[= <- <-]|[[= <- <-]|[[= <- <-]|[]]]].
  - now rewrite H.
  - rewrite HC by discriminate. now rewrite H.
  - rewrite HC by discriminate. rewrite HM by reflexivity. now rewrite H.
Qed.

Lemma pattern_alone_decides_witness :
  recognizeIdentifierType (lit " 978-3-16-148410-0 ") = (ISBN, lit "978-3-16-148410-0")
  /\ recognizeIdentifierType (lit "PMC-1234567") = (PMCID, lit "PMC-1234567").
Proof.
  split.
  - apply (pattern_alone_decides (lit " 978-3-16-148410-0 ") ISBN ISBN_pattern);
      [simpl; auto | vm_compute; reflexivity].
  - apply (pattern_alone_decides (lit "PMC-1234567") PMCID PMCID_pattern);
      [simpl; auto | vm_compute; reflexivity].
Defined.

(** ** Author names *)





Lemma mapE_authors (names : list jstr) :
  exists l, CSLJsonParser.mapE CSLJsonParser.authorObject (map VStr names) = inr l
            /\ List.length l = List.length names.
Proof.
  induction names as [|name names (l & E & Hl)]; simpl.
  - exists []. split; reflexivity.
  - rewrite E. eexists. split; [reflexivity|]. simpl. now rewrite Hl.
Qed.

(** X5. [createAuthorsArray] turns an array of strings into an array of as
    many name objects, and throws on anything that is not an array and on
    an array with an element that is not a string. *)
Theorem createAuthorsArray_by_shape :
  (forall names,
     exists l, CSLJsonParser.createAuthorsArray (VArr (map VStr names)) = inr (VArr l)
               /\ List.length l = List.length names)
  /\ (forall v, (forall items, v <> VArr items) ->
                exists e, CSLJsonParser.createAuthorsArray v = inl e)
  /\ (forall before x after,
        (forall name, x <> VStr name) ->
        exists e, CSLJsonParser.createAuthorsArray (VArr (map VStr before ++ x :: after))
                  = inl e).
Proof.
  split; [|split].
  - intros names. unfold CSLJsonParser.createAuthorsArray.
    destruct (mapE_authors names) as (l & -> & Hl). eauto.
  - intros v Hv. destruct v; try (eexists; reflexivity).
    now destruct (Hv items).
  - intros before x after Hx. unfold CSLJsonParser.createAuthorsArray.
    assert (H : exists e, CSLJsonParser.mapE CSLJsonParser.authorObject
                            (map VStr before ++ x :: after) = inl e).
    { induction before as [|name before (e & IH)]; simpl.
      - destruct x; try (eexists; reflexivity). now destruct (Hx s).
      - rewrite IH. eauto. }
    destruct H as (e & ->). eauto.
Qed.

(** ** Error messages *)


(** ** Upstream answers that make an adapter fail *)

Lemma never_returns (env : Env) (options : CSLJsonParser.Options) (body : M val) (identifier : val) (type : string) (s : State) :
  post (fun _ _ => False) (cslJson s) (body s) ->
  exists id s',
    tryCatch body (CSLJsonParser.caught env options identifier type) s
    = Ret (FailureMarker id identifier type) s'
    /\ cslJson s' = cslJson s.
Proof.
  intros H.
  destruct (tryCatch_caught env options body _ identifier type s H)
    as (r & s' & E & [[]|[[id ->] Hs]]).
  exists id, s'. split; [exact E | exact Hs].
Qed.

(** X7. The DOI adapter fails, with a marker of type DOI for the DOI it
    was given and the store unchanged, when the registry answers with
    status 404 and when the record it answers with has no [title] or no
    [container-title]. *)
Theorem doi_not_found_or_untitled (env : Env) (options : CSLJsonParser.Options)
    (doi : val) (s : State) (response : Response) :
  fetch env (CSLJsonParser.CORS_PROXY ++ lit "https://api.crossref.org/works/"
               ++ ToString env doi) = inr response ->
  status response = 404%Z
  \/ (exists data,
        json response = inr data
        /\ (nullish (prop (prop data (lit "message")) (lit "container-title")) = true
            \/ nullish (prop (prop data (lit "message")) (lit "title")) = true)) ->
  exists id s',
    CSLJsonParser.fromDOI env options doi s = Ret (FailureMarker id doi "DOI") s'
    /\ cslJson s' = cslJson s.
Proof.
  intros Hfetch Hcase.
  unfold CSLJsonParser.fromDOI. apply never_returns.
  apply post_lift. intros a Ha. rewrite Hfetch in Ha. injection Ha as <-.
  destruct Hcase as [H404|(data & Hjson & Hmissing)].
  - rewrite H404. unfold bind, when, throw. simpl. reflexivity.
  - apply post_when_throw. intros _.
    apply post_lift. intros a Ha. rewrite Hjson in Ha. injection Ha as <-.
    apply post_lift. intros message Hm.
    unfold getProp in Hm. destruct (nullish data); [discriminate|]. injection Hm as <-.
    apply post_quiet; [apply quiet_uid | reflexivity | intros id s1 Hs1].
    rewrite <- Hs1.
    apply post_lift. intros DOI_ Ha.
    unfold getProp in Ha.
    destruct (nullish (prop data (lit "message"))) eqn:Hn; [discriminate|]. clear Ha.
    assert (G : forall k, getProp (prop data (lit "message")) k
                          = inr (prop (prop data (lit "message")) k))
      by (intros k; unfold getProp; now rewrite Hn).
    apply post_lift. intros URL0 _.
    apply post_still; [solve [still_tac] | intros URL_].
    apply post_lift. intros ISSN_ _.
    apply post_lift. intros ct Hct. rewrite G in Hct. injection Hct as <-.
    apply post_lift. intros containerTitle Hc.
    unfold getFirst, getElem in Hc.
    destruct (nullish (prop (prop data (lit "message")) (lit "container-title")));
      [discriminate|].
    destruct Hmissing as [?|Ht]; [discriminate|].
    do 6 (apply post_lift; intros ? _).
    apply post_lift. intros t Ht'. rewrite G in Ht'. injection Ht' as <-.
    apply post_lift. intros title Hti.
    unfold getFirst, getElem in Hti. rewrite Ht in Hti. discriminate.
Qed.

Lemma doi_not_found_or_untitled_witness :
  exists id s',
    CSLJsonParser.fromDOI (Sample.pubmedAnswers Sample.withDoi) Sample.silent
      (VStr (lit "10.1000/xyz123")) Sample.fresh
    = Ret (FailureMarker id (VStr (lit "10.1000/xyz123")) "DOI") s'
    /\ cslJson s' = cslJson Sample.fresh.
Proof.
  apply (doi_not_found_or_untitled (Sample.pubmedAnswers Sample.withDoi) Sample.silent
           (VStr (lit "10.1000/xyz123")) Sample.fresh Sample.notFound);
    [vm_compute; reflexivity | left; reflexivity].
Defined.

(** X8. When the catalogue reports [numFound] 0 the ISBN adapter returns a
    failure marker of type ISBN for the ISBN it was given, whatever else
    the response holds, and the store is unchanged. *)
Theorem isbn_without_hits_fails (env : Env) (options : CSLJsonParser.Options)
    (isbn : jstr) (s : State) (response : Response) (data : val) :
  fetch env (lit "https://openlibrary.org/search.json?q=isbn:" ++ isbn
               ++ lit "&mode=everything&fields=*,editions") = inr response ->
  json response = inr data ->
  isZero (prop data (lit "numFound")) = true ->
  exists id s',
    CSLJsonParser.fromISBN env options isbn s
    = Ret (FailureMarker id (VStr isbn) "ISBN") s'
    /\ cslJson s' = cslJson s.
Proof.
  intros Hfetch Hjson Hzero.
  unfold CSLJsonParser.fromISBN. apply never_returns.
  apply post_lift. intros a Ha. rewrite Hfetch in Ha. injection Ha as <-.
  apply post_lift. intros a Ha. rewrite Hjson in Ha. injection Ha as <-.
  apply post_lift. intros numFound Hn.
  unfold getProp in Hn. destruct (nullish data); [discriminate|]. injection Hn as <-.
  rewrite Hzero. unfold bind, when, throw. simpl. reflexivity.
Qed.

Lemma isbn_without_hits_fails_witness :
  exists id s',
    CSLJsonParser.fromISBN
      (Sample.withFetch Sample.offline
         (fun _ => inr (Sample.ok (VObj [(lit "numFound", VNum (int 0));
                                         (lit "docs", VArr [])]))))
      Sample.silent (lit "9780000000000") Sample.fresh
    = Ret (FailureMarker id (VStr (lit "9780000000000")) "ISBN") s'
    /\ cslJson s' = cslJson Sample.fresh.
Proof.
  apply (isbn_without_hits_fails
           (Sample.withFetch Sample.offline
              (fun _ => inr (Sample.ok (VObj [(lit "numFound", VNum (int 0));
                                              (lit "docs", VArr [])]))))
           Sample.silent (lit "9780000000000") Sample.fresh
           (Sample.ok (VObj [(lit "numFound", VNum (int 0)); (lit "docs", VArr [])]))
           (VObj [(lit "numFound", VNum (int 0)); (lit "docs", VArr [])]));
    reflexivity.
Defined.

(** ** The URL adapter: scheme, redirection, fallback *)

Lemma startsWith_app (p rest : jstr) : startsWith (p ++ rest) p = true.
Proof.
  induction p as [|c p IH]; simpl; [reflexivity|].
  now rewrite N.eqb_refl, IH.
Qed.

Lemma hasScheme_https (url : jstr) : hasScheme (lit "https://" ++ url) = true.
Proof.
  unfold hasScheme. rewrite map_app, startsWith_app. apply orb_true_r.
Qed.

(** X9. A URL without a scheme is looked up exactly as the same URL with
    [https://] in front: same returned value, same final state. *)
Theorem schemeless_url_is_https (env : Env) (options : CSLJsonParser.Options)
    (url : jstr) (s : State) :
  hasScheme url = false ->
  CSLJsonParser.fromURL env options url s
  = CSLJsonParser.fromURL env options (lit "https://" ++ url) s.
Proof.
  intros H. unfold CSLJsonParser.fromURL. rewrite H, hasScheme_https. reflexivity.
Qed.

Lemma schemeless_url_is_https_witness :
  CSLJsonParser.fromURL Sample.offline Sample.silent (lit "example.com") Sample.fresh
  = CSLJsonParser.fromURL Sample.offline Sample.silent (lit "https://example.com")
      Sample.fresh.
Proof.
  apply (schemeless_url_is_https Sample.offline Sample.silent (lit "example.com")
           Sample.fresh).
  vm_compute. reflexivity.
Defined.

Lemma fromPMID_passes_try (env : Env) (options : CSLJsonParser.Options)
    (pmid : jstr) (handler : exn -> M val) (s : State) :
  tryCatch (CSLJsonParser.fromPMID env options pmid) handler s
  = CSLJsonParser.fromPMID env options pmid s.
Proof.
  unfold tryCatch at 1.
  destruct (fromPMID_settles env options pmid s) as (r & s' & E & _).
  now rewrite E.
Qed.

Lemma fromPMCID_passes_try (env : Env) (options : CSLJsonParser.Options)
    (pmcid : jstr) (handler : exn -> M val) (s : State) :
  tryCatch (CSLJsonParser.fromPMCID env options pmcid) handler s
  = CSLJsonParser.fromPMCID env options pmcid s.
Proof.
  unfold tryCatch at 1.
  destruct (fromPMCID_settles env options pmcid s) as (r & s' & E & _).
  now rewrite E.
Qed.

Lemma fromURL_on_page (env : Env) (options : CSLJsonParser.Options)
    (url : jstr) (s : State) (response : Response) (html : jstr)
    (document : Document) :
  fetch env (CSLJsonParser.CORS_PROXY ++ normalized url) = inr response ->
  status response <> 403%Z ->
  text response = inr html ->
  JSDOM env html = inr document ->
  CSLJsonParser.fromURL env options url s
  = tryCatch
      (let '(doi, pmid, pmcid) :=
         CSLJsonParser.getAvailableIdentifiers (normalized url) document in
       CSLJsonParser.redirect env options [DOI; PMID; PMCID] doi pmid pmcid
         (id <- uid env ;;
          author <- lift (CSLJsonParser.extractAuthors document) ;;
          let newCslJsonObject :=
            VObj [(lit "id", VStr id); (lit "type", VStr (lit "webpage"));
                  (lit "title",
                     VStr (CSLJsonParser.extractContent document (lit "title") None));
                  (lit "author", author);
                  (lit "container-title",
                     VStr (CSLJsonParser.extractContent document
                             (CSLJsonParser.metaSel "property" "og:site_name")
                             (Some (lit "content"))));
                  (lit "publisher",
                     VStr (CSLJsonParser.extractContent document
                             (CSLJsonParser.metaSel "property" "article:publisher")
                             (Some (lit "content"))));
                  (lit "accessed",
                     CSLJsonParser.createDateObject (inl (now env)) None None);
                  (lit "issued",
                     CSLJsonParser.createDateObject
                       (inl (newDate env
                               (VStr (orElse (CSLJsonParser.extractContent document
                                                (CSLJsonParser.metaSel "name" "date")
                                                (Some (lit "content"))) []))))
                       None None);
                  (lit "URL",
                     VStr (orElse (CSLJsonParser.extractContent document
                                     (CSLJsonParser.metaSel "property" "og:url")
                                     (Some (lit "content"))) (normalized url)))] in
          CSLJsonParser.push newCslJsonObject ;;;
          ret newCslJsonObject))
      (CSLJsonParser.caught env options (VStr (normalized url)) "URL") s.
Proof.
  intros Hfetch Hstatus Htext Hdom.
  unfold CSLJsonParser.fromURL. fold (normalized url).
  unfold tryCatch, bind at 1. rewrite Hfetch. cbn [lift ret].
  unfold bind at 1, when.
  destruct (Z.eqb_spec (status response) 403) as [E|_]; [contradiction|].
  cbn [ret]. unfold bind at 1. rewrite Htext. cbn [lift ret].
  unfold bind at 1. rewrite Hdom. cbn [lift ret]. reflexivity.
Qed.

(** X10. On a page that was fetched and parsed, the URL adapter hands the
    lookup to the first identifier the page carries, in the order DOI, PMID,
    PMCID: its result is then exactly the result of that adapter. *)
Theorem url_redirects_by_priority (env : Env) (options : CSLJsonParser.Options)
    (url : jstr) (s : State) (response : Response) (html : jstr)
    (document : Document) (doi pmid pmcid : option jstr) :
  fetch env (CSLJsonParser.CORS_PROXY ++ normalized url) = inr response ->
  status response <> 403%Z ->
  text response = inr html ->
  JSDOM env html = inr document ->
  CSLJsonParser.getAvailableIdentifiers (normalized url) document = (doi, pmid, pmcid) ->
  (forall d, present doi = Some d ->
     CSLJsonParser.fromURL env options url s
     = CSLJsonParser.fromDOI env options (VStr d) s)
  /\ (forall p, present doi = None -> present pmid = Some p ->
        CSLJsonParser.fromURL env options url s
        = CSLJsonParser.fromPMID env options p s)
  /\ (forall p, present doi = None -> present pmid = None -> present pmcid = Some p ->
        CSLJsonParser.fromURL env options url s
        = CSLJsonParser.fromPMCID env options p s).
Proof.
  intros Hfetch Hstatus Htext Hdom Hids.
  rewrite (fromURL_on_page env options url s response html document
             Hfetch Hstatus Htext Hdom).
  rewrite Hids. cbn [CSLJsonParser.redirect].
  split; [|split].
  - intros d ->. apply fromDOI_passes_try.
  - intros p -> ->. apply fromPMID_passes_try.
  - intros p -> -> ->. apply fromPMCID_passes_try.
Qed.

Lemma url_redirects_by_priority_witness :
  CSLJsonParser.fromURL (Sample.articlePage (Some (lit "10.1000/xyz123"))) Sample.silent
    (lit "example.org/article") Sample.fresh
  = CSLJsonParser.fromDOI (Sample.articlePage (Some (lit "10.1000/xyz123"))) Sample.silent
      (VStr (lit "10.1000/xyz123")) Sample.fresh.
Proof.
  refine (proj1 (url_redirects_by_priority
                   (Sample.articlePage (Some (lit "10.1000/xyz123"))) Sample.silent
                   (lit "example.org/article") Sample.fresh
                   {| status := 200; text := inr (lit "<html></html>");
                      json := inl Sample.networkError |}
                   (lit "<html></html>")
                   (Sample.articleDocument (Some (lit "10.1000/xyz123")))
                   (Some (lit "10.1000/xyz123")) None None _ _ _ _ _)
                (lit "10.1000/xyz123") _);
    try (vm_compute; reflexivity).
  vm_compute. discriminate.
Defined.

Lemma extractAuthors_returns (document : Document) :
  exists l,
    CSLJsonParser.extractAuthors document = inr (VArr l)
    /\ List.length l
       = List.length
           (querySelectorAll document
              (CSLJsonParser.metaSel "name" "author" ++ lit ", "
                 ++ CSLJsonParser.metaSel "name" "article:author")).
Proof.
  unfold CSLJsonParser.extractAuthors.
  match goal with
  | |- context [map ?f (querySelectorAll document ?sel)] =>
      set (elements := querySelectorAll document sel);
      assert (E : map f elements
                  = map VStr (map (fun meta =>
                                     match getAttribute (attributes meta) (lit "content") with
                                     | Some v => v
                                     | None => []
                                     end) elements))
  end.
  { rewrite map_map. apply map_ext. intros meta.
    now destruct (getAttribute (attributes meta) (lit "content")). }
  rewrite E. unfold CSLJsonParser.createAuthorsArray.
  destruct (mapE_authors (map (fun meta =>
                                 match getAttribute (attributes meta) (lit "content") with
                                 | Some v => v
                                 | None => []
                                 end) elements)) as (l & -> & Hl).
  exists l. split; [reflexivity|]. now rewrite Hl, length_map.
Qed.

(** X11. On a page that was fetched and parsed and carries no DOI, PMID or
    PMCID, the URL adapter always succeeds, whatever tags are missing: it
    appends and returns a record of type [webpage] with the text of the
    title element, one author per author tag, and as URL the [og:url] of the
    page or else the URL that was fetched. *)
Theorem url_without_identifiers_is_a_webpage
    (env : Env) (options : CSLJsonParser.Options)
    (url : jstr) (s : State) (response : Response) (html : jstr)
    (document : Document) (doi pmid pmcid : option jstr) :
  fetch env (CSLJsonParser.CORS_PROXY ++ normalized url) = inr response ->
  status response <> 403%Z ->
  text response = inr html ->
  JSDOM env html = inr document ->
  CSLJsonParser.getAvailableIdentifiers (normalized url) document = (doi, pmid, pmcid) ->
  present doi = None -> present pmid = None -> present pmcid = None ->
  exists r s' authors,
    CSLJsonParser.fromURL env options url s = Ret r s'
    /\ isFailed r = false
    /\ cslJson s' = cslJson s ++ [r]
    /\ prop r (lit "type") = VStr (lit "webpage")
    /\ prop r (lit "title")
       = VStr (CSLJsonParser.extractContent document (lit "title") None)
    /\ prop r (lit "URL")
       = VStr (orElse (CSLJsonParser.extractContent document
                         (CSLJsonParser.metaSel "property" "og:url")
                         (Some (lit "content"))) (normalized url))
    /\ prop r (lit "author") = VArr authors
    /\ List.length authors
       = List.length
           (querySelectorAll document
              (CSLJsonParser.metaSel "name" "author" ++ lit ", "
                 ++ CSLJsonParser.metaSel "name" "article:author")).
Proof.
  intros Hfetch Hstatus Htext Hdom Hids Hdoi Hpmid Hpmcid.
  rewrite (fromURL_on_page env options url s response html document
             Hfetch Hstatus Htext Hdom).
  rewrite Hids. cbn [CSLJsonParser.redirect]. rewrite Hdoi, Hpmid, Hpmcid.
  destruct (extractAuthors_returns document) as (authors & Ea & Hl).
  unfold tryCatch, bind, uid. rewrite Ea. cbn [lift ret].
  unfold CSLJsonParser.push, modify.
  eexists. eexists. exists authors. split; [reflexivity|].
  repeat split; try (vm_compute; reflexivity). exact Hl.
Qed.

Lemma url_without_identifiers_is_a_webpage_witness :
  exists r s' authors,
    CSLJsonParser.fromURL (Sample.articlePage None) Sample.silent
      (lit "https://example.org/article") Sample.fresh = Ret r s'
    /\ isFailed r = false
    /\ cslJson s' = cslJson Sample.fresh ++ [r]
    /\ prop r (lit "type") = VStr (lit "webpage")
    /\ prop r (lit "title") = VStr (lit "An article")
    /\ prop r (lit "URL") = VStr (lit "https://example.org/article")
    /\ prop r (lit "author") = VArr authors
    /\ List.length authors = 1%nat.
Proof.
  apply (url_without_identifiers_is_a_webpage (Sample.articlePage None) Sample.silent
           (lit "https://example.org/article") Sample.fresh
           {| status := 200; text := inr (lit "<html></html>");
              json := inl Sample.networkError |}
           (lit "<html></html>") (Sample.articleDocument None) None None None);
    try (vm_compute; reflexivity).
  vm_compute. discriminate.
Defined.

(** ** What every record carries *)

Lemma post_uid_word (env : Env) (k : jstr -> M val) Q store (s : State) :
  cslJson s = store ->
  (forall id s1, cslJson s1 = store -> isUid id -> post Q store (k id s1)) ->
  post Q store (bind (uid env) k s).
Proof.
  intros Hs Hk. unfold bind.
  destruct (uid_word env s) as (id & -> & Hid). apply Hk; [exact Hs | exact Hid].
Qed.

Ltac stamp_record :=
  match goal with
  | Hid : isUid ?id |- _ =>
      intros _; split; [exists id; split; [reflexivity | exact Hid] | reflexivity]
  end.

Section Stamps.

Variable env : Env.
Variable options : CSLJsonParser.Options.

Let Q : val -> State -> Prop := fun r _ => isFailed r = false -> stamped env r.

Lemma stamped_or_failed (body : M val) (identifier : val) (type : string)
    (s : State) (r : val) (s' : State) :
  post Q (cslJson s) (body s) ->
  tryCatch body (CSLJsonParser.caught env options identifier type) s = Ret r s' ->
  Q r s'.
Proof.
  intros H E.
  destruct (tryCatch_caught env options body Q identifier type s H)
    as (r0 & s0 & E0 & H0).
  rewrite E in E0. inversion E0; subst.
  destruct H0 as [H0|H0]; [exact H0|].
  intros Hf. rewrite (failedWith_isFailed _ _ _ _ _ H0) in Hf. discriminate.
Qed.

Lemma fromDOI_stamps (doi : val) (s : State) (r : val) (s' : State) :
  CSLJsonParser.fromDOI env options doi s = Ret r s' -> Q r s'.
Proof.
  unfold CSLJsonParser.fromDOI. apply stamped_or_failed.
  post_stills.
  apply post_uid_word; [reflexivity | intros id s1 Hs1 Hid].
  rewrite <- Hs1. post_stills. apply post_push. stamp_record.
Qed.

Lemma fromPMID_stamps (pmid : jstr) (s : State) (r : val) (s' : State) :
  CSLJsonParser.fromPMID env options pmid s = Ret r s' -> Q r s'.
Proof.
  unfold CSLJsonParser.fromPMID. apply stamped_or_failed.
  post_stills.
  match goal with |- post _ _ ((if ?b then _ else _) _) => destruct b end.
  - apply post_fromDOI. apply fromDOI_stamps.
  - apply post_uid_word; [reflexivity | intros id s1 Hs1 Hid].
    rewrite <- Hs1. apply post_push. stamp_record.
Qed.

Lemma fromPMCID_stamps (pmcid : jstr) (s : State) (r : val) (s' : State) :
  CSLJsonParser.fromPMCID env options pmcid s = Ret r s' -> Q r s'.
Proof.
  unfold CSLJsonParser.fromPMCID. apply stamped_or_failed.
  post_stills.
  match goal with |- post _ _ ((if ?b then _ else _) _) => destruct b end.
  - apply post_fromDOI. apply fromDOI_stamps.
  - apply post_uid_word; [reflexivity | intros id s1 Hs1 Hid].
    rewrite <- Hs1. apply post_push. stamp_record.
Qed.

Lemma fromISBN_stamps (isbn : jstr) (s : State) (r : val) (s' : State) :
  CSLJsonParser.fromISBN env options isbn s = Ret r s' -> Q r s'.
Proof.
  unfold CSLJsonParser.fromISBN. apply stamped_or_failed.
  post_stills.
  apply post_uid_word; [reflexivity | intros id s1 Hs1 Hid].
  rewrite <- Hs1. post_stills. apply post_push. stamp_record.
Qed.

Lemma fromURL_stamps (url : jstr) (s : State) (r : val) (s' : State) :
  CSLJsonParser.fromURL env options url s = Ret r s' -> Q r s'.
Proof.
  unfold CSLJsonParser.fromURL. apply stamped_or_failed.
  post_stills.
  match goal with
  | |- context [CSLJsonParser.getAvailableIdentifiers ?u ?d] =>
      destruct (CSLJsonParser.getAvailableIdentifiers u d) as [[doi pmid] pmcid]
  end.
  cbn [CSLJsonParser.redirect].
  destruct (present doi) as [d|]; [apply post_fromDOI; apply fromDOI_stamps|].
  destruct (present pmid) as [p|].
  { destruct (fromPMID_settles env options p s) as (r0 & s0 & E & _).
    rewrite E. apply (fromPMID_stamps _ _ _ _ E). }
  destruct (present pmcid) as [p|].
  { destruct (fromPMCID_settles env options p s) as (r0 & s0 & E & _).
    rewrite E. apply (fromPMCID_stamps _ _ _ _ E). }
  apply post_uid_word; [reflexivity | intros id s1 Hs1 Hid].
  rewrite <- Hs1. post_stills. apply post_push. stamp_record.
Qed.

End Stamps.

Lemma createDateObject_of_date (y m d : Z) :
  (0 <= m)%Z -> (1 <= d)%Z ->
  CSLJsonParser.createDateObject (inl (Date y m d)) None None
  = VObj [(lit "date-parts",
           VArr [VArr [VNum (int y); VNum (Fin (m + 1) 1); VNum (int d)]])].
Proof.
  intros Hm Hd. unfold CSLJsonParser.createDateObject.
  cbn [getFullYear getMonth getDate succNum int truthy].
  destruct (Z.eqb_spec (m + 1) 0) as [E|_]; [lia|].
  destruct (Z.eqb_spec d 0) as [E|_]; [lia|].
  reflexivity.
Qed.

(** X12. Every record an adapter call returns, redirections included,
    carries an [id] of sixteen letters, digits and underscores and is
    stamped, as [accessed], with the date of the clock: year, month counted
    from 1, day. *)
Theorem record_has_id_and_access_date
    (env : Env) (options : CSLJsonParser.Options) (c : call) (s : State)
    (r : val) (s' : State) :
  run env options c s = Ret r s' ->
  isFailed r = false ->
  (exists id, prop r (lit "id") = VStr id /\ isUid id)
  /\ forall y m d,
       now env = Date y m d -> (0 <= m)%Z -> (1 <= d)%Z ->
       prop r (lit "accessed")
       = VObj [(lit "date-parts",
                VArr [VArr [VNum (int y); VNum (Fin (m + 1) 1); VNum (int d)]])].
Proof.
  intros E Hf.
  assert (H : stamped env r).
  { destruct c; simpl in E.
    - exact (fromDOI_stamps env options _ _ _ _ E Hf).
    - exact (fromURL_stamps env options _ _ _ _ E Hf).
    - exact (fromISBN_stamps env options _ _ _ _ E Hf).
    - exact (fromPMID_stamps env options _ _ _ _ E Hf).
    - exact (fromPMCID_stamps env options _ _ _ _ E Hf). }
  destruct H as [Hid Hacc]. split; [exact Hid|].
  intros y m d Hnow Hm Hd. rewrite Hacc, Hnow. now apply createDateObject_of_date.
Qed.

Lemma record_has_id_and_access_date_witness :
  exists r s',
    run (Sample.articlePage None) Sample.silent
      (CallURL (lit "https://example.org/article")) Sample.fresh = Ret r s'
    /\ (exists id, prop r (lit "id") = VStr id /\ isUid id)
    /\ prop r (lit "accessed")
       = VObj [(lit "date-parts",
                VArr [VArr [VNum (int 2024); VNum (int 1); VNum (int 15)]])].
Proof.
  assert (E : exists r s',
             run (Sample.articlePage None) Sample.silent
               (CallURL (lit "https://example.org/article")) Sample.fresh = Ret r s'
             /\ isFailed r = false).
  { eexists. eexists. split; vm_compute; reflexivity. }
  destruct E as (r & s' & E & Hf).
  exists r, s'. split; [exact E|].
  destruct (record_has_id_and_access_date (Sample.articlePage None) Sample.silent
              (CallURL (lit "https://example.org/article")) Sample.fresh r s' E Hf)
    as [Hid Hacc].
  split; [exact Hid|].
  apply (Hacc 2024%Z 0%Z 15%Z); [reflexivity | lia | lia].
Defined.

(** ** What an answer depends on *)













Section SameAnswer.

Variable env : Env.
Variables o1 o2 : CSLJsonParser.Options.







End SameAnswer.


(** ** What an adapter call leaves alone *)

Lemma tame_refl (logging : bool) (s : State) : tame logging s s.
Proof.
  repeat split. exists []. split; [now rewrite app_nil_r | reflexivity].
Qed.

Lemma tame_trans (logging : bool) (s1 s2 s3 : State) :
  tame logging s1 s2 -> tame logging s2 s3 -> tame logging s1 s3.
Proof.
  intros (A1 & B1 & C1 & D1 & w1 & E1 & F1) (A2 & B2 & C2 & D2 & w2 & E2 & F2).
  repeat split; try congruence.
  exists (w1 ++ w2). split.
  - now rewrite E2, E1, app_assoc.
  - intros Hl. now rewrite F1, F2.
Qed.

Lemma tameM_bind {A B} (logging : bool) (m : M A) (k : A -> M B) :
  tameM logging m -> (forall a, tameM logging (k a)) -> tameM logging (bind m k).
Proof.
  intros Hm Hk s. unfold bind. specialize (Hm s).
  destruct (m s) as [a s1|e s1|c s1]; auto.
  specialize (Hk a s1). destruct (k a s1); eauto using tame_trans.
Qed.

Lemma tameM_tryCatch {A} (logging : bool) (body : M A) (handler : exn -> M A) :
  tameM logging body -> (forall e, tameM logging (handler e)) ->
  tameM logging (tryCatch body handler).
Proof.
  intros Hb Hh s. unfold tryCatch. specialize (Hb s).
  destruct (body s) as [a s1|e s1|c s1]; auto.
  specialize (Hh e s1). destruct (handler e s1); eauto using tame_trans.
Qed.

Lemma tameM_lift {A} (logging : bool) (x : exn + A) : tameM logging (lift x).
Proof. intros s. destruct x; apply tame_refl. Qed.

Lemma tameM_ret {A} (logging : bool) (a : A) : tameM logging (ret a).
Proof. intros s. apply tame_refl. Qed.

Lemma tameM_throw {A} (logging : bool) (e : exn) : tameM logging (@throw A e).
Proof. intros s. apply tame_refl. Qed.

Lemma tameM_when_throw (logging : bool) (b : bool) (e : exn) :
  tameM logging (when b (throw e)).
Proof. intros s. destruct b; apply tame_refl. Qed.

Lemma tameM_uid (logging : bool) (env : Env) : tameM logging (uid env).
Proof.
  intros s. unfold uid. repeat split.
  exists []. split; [simpl; now rewrite app_nil_r | reflexivity].
Qed.

Lemma tameM_push (logging : bool) (r : val) : tameM logging (CSLJsonParser.push r).
Proof.
  intros s. unfold CSLJsonParser.push, modify. repeat split.
  exists []. split; [simpl; now rewrite app_nil_r | reflexivity].
Qed.

Lemma tameM_caught (env : Env) (options : CSLJsonParser.Options)
    (identifier : val) (type : string) (e : exn) :
  tameM (CSLJsonParser.logErrors options)
        (CSLJsonParser.caught env options identifier type e).
Proof.
  unfold CSLJsonParser.caught, CSLJsonParser.failed.
  apply tameM_bind; [|intros _; apply tameM_bind;
                               [apply tameM_uid | intros id; apply tameM_ret]].
  intros s. unfold when. destruct (CSLJsonParser.logErrors options).
  - unfold stderr_write, modify. repeat split.
    eexists. split; [reflexivity | discriminate].
  - apply tame_refl.
Qed.

Ltac tame_tac :=
  repeat first
    [ apply tameM_lift | apply tameM_when_throw | apply tameM_ret | apply tameM_throw
    | apply tameM_uid | apply tameM_push | apply tameM_caught
    | apply tameM_bind; [|intros ?]
    | apply tameM_tryCatch; [|intros ?]
    | match goal with
      | |- tameM _ (if ?b then _ else _) => destruct b
      | |- tameM _ (match ?x with _ => _ end) => destruct x
      end ].

Section Tame.

Variable env : Env.
Variable options : CSLJsonParser.Options.

Lemma fromDOI_tame (doi : val) :
  tameM (CSLJsonParser.logErrors options) (CSLJsonParser.fromDOI env options doi).
Proof. unfold CSLJsonParser.fromDOI. tame_tac. Qed.

Lemma fromPMID_tame (pmid : jstr) :
  tameM (CSLJsonParser.logErrors options) (CSLJsonParser.fromPMID env options pmid).
Proof. unfold CSLJsonParser.fromPMID. tame_tac; apply fromDOI_tame. Qed.

Lemma fromPMCID_tame (pmcid : jstr) :
  tameM (CSLJsonParser.logErrors options) (CSLJsonParser.fromPMCID env options pmcid).
Proof. unfold CSLJsonParser.fromPMCID. tame_tac; apply fromDOI_tame. Qed.

Lemma fromISBN_tame (isbn : jstr) :
  tameM (CSLJsonParser.logErrors options) (CSLJsonParser.fromISBN env options isbn).
Proof. unfold CSLJsonParser.fromISBN. tame_tac. Qed.

Lemma fromURL_tame (url : jstr) :
  tameM (CSLJsonParser.logErrors options) (CSLJsonParser.fromURL env options url).
Proof.
  unfold CSLJsonParser.fromURL.
  apply tameM_tryCatch; [|intros e; apply tameM_caught].
  do 4 (apply tameM_bind; [solve [tame_tac] | intros ?]).
  match goal with
  | |- context [CSLJsonParser.getAvailableIdentifiers ?u ?d] =>
      destruct (CSLJsonParser.getAvailableIdentifiers u d) as [[doi pmid] pmcid]
  end.
  cbn [CSLJsonParser.redirect].
  destruct (present doi) as [d|]; [apply fromDOI_tame|].
  destruct (present pmid) as [p|]; [apply fromPMID_tame|].
  destruct (present pmcid) as [p|]; [apply fromPMCID_tame|].
  tame_tac.
Qed.

End Tame.

(** X14. An adapter call, redirections included, writes nothing to
    standard output and leaves the configuration directory, file and cache
    as they were. It appends to standard error only, and nothing at all
    when errors are not logged. *)
Theorem adapter_call_is_tame
    (env : Env) (options : CSLJsonParser.Options) (c : call) (s : State) :
  exists r s',
    run env options c s = Ret r s'
    /\ stdout s' = stdout s
    /\ configDir s' = configDir s
    /\ configFile s' = configFile s
    /\ cachedConfig s' = cachedConfig s
    /\ exists written,
         stderr s' = stderr s ++ written
         /\ (CSLJsonParser.logErrors options = false -> written = []).
Proof.
  assert (H : tameM (CSLJsonParser.logErrors options) (run env options c)).
  { destruct c; simpl.
    - apply fromDOI_tame.
    - apply fromURL_tame.
    - apply fromISBN_tame.
    - apply fromPMID_tame.
    - apply fromPMCID_tame. }
  specialize (H s).
  destruct (settles env options c s) as (r & s' & E & _).
  rewrite E in H. exists r, s'. split; [exact E | exact H].
Qed.

(** ** The configuration file at process start *)

(** What [getConfigFile] does when nothing is cached yet and the
    configuration directory exists or can be made. *)
Lemma getConfigFile_at_start (env : Env) (s : State) :
  cachedConfig s = VNull ->
  configDir s = true \/ mkdirFault env = None ->
  Cli.getConfigFile env s
  = match configFile s with
    | None => Ret (VObj []) (with_cachedConfig (with_configDir s true) (VObj []))
    | Some content =>
        match readFault env with
        | Some e => Exit 1%Z (with_stderr (with_configDir s true) (stderr s ++ [parseFailure e]))
        | None =>
            match JSON_parse env content with
            | inl e =>
                Exit 1%Z (with_stderr (with_configDir s true) (stderr s ++ [parseFailure e]))
            | inr parsed => Ret parsed (with_cachedConfig (with_configDir s true) parsed)
            end
        end
    end.
Proof.
  intros Hcache Hdir.
  unfold Cli.getConfigFile, bind, gets. rewrite Hcache. cbv beta iota delta [truthy].
  assert (D : when (negb (configDir s)) (Cli.mkdirSync env) s
              = Ret tt (with_configDir s true)).
  { unfold when, Cli.mkdirSync. destruct (configDir s) eqn:Ed.
    - simpl. destruct s; simpl in *; now subst.
    - destruct Hdir as [Hd|Hd]; [discriminate|]. now rewrite Hd. }
  rewrite D. cbn [configFile with_configDir].
  destruct (configFile s) as [content|] eqn:F; [|reflexivity].
  unfold tryCatch, bind, Cli.readFileSync. cbn [configFile with_configDir]. rewrite F.
  destruct (readFault env) as [e|]; [reflexivity|].
  destruct (JSON_parse env content) as [e|parsed]; reflexivity.
Qed.

(** X15. When the configuration file exists and cannot be read or parsed,
    every invocation ends with exit code 1 before anything else is done,
    whatever its arguments, and the file is left as it was: [handleConfig]
    runs first and loads the configuration. The same holds for
    [parseArguments]. *)
Theorem unreadable_config_ends_every_run
    (env : Env) (argv args : list jstr) (s : State) (content : jstr) :
  cachedConfig s = VNull ->
  configDir s = true \/ mkdirFault env = None ->
  configFile s = Some content ->
  (exists e, readFault env = Some e)
  \/ (readFault env = None /\ exists e, JSON_parse env content = inl e) ->
  (exists s', Cli.handleConfig env argv s = Exit 1%Z s' /\ configFile s' = Some content)
  /\ (exists s', Cli.parseArguments env args s = Exit 1%Z s'
                 /\ configFile s' = Some content).
Proof.
  intros Hcache Hdir Hfile Hbad.
  assert (G : exists s', Cli.getConfigFile env s = Exit 1%Z s'
                         /\ configFile s' = Some content).
  { rewrite (getConfigFile_at_start env s Hcache Hdir), Hfile.
    destruct Hbad as [[e ->]|[-> [e ->]]]; eexists; (split; [reflexivity | exact Hfile]). }
  destruct G as (s' & G & F).
  split; exists s'; (split; [|exact F]).
  - unfold Cli.handleConfig. now rewrite (bind_Exit _ _ _ _ _ G).
  - unfold Cli.parseArguments. now rewrite (bind_Exit _ _ _ _ _ G).
Qed.

Lemma unreadable_config_ends_every_run_witness :
  (exists s',
     Cli.handleConfig (Sample.jsonEnv None) [lit "node"; lit "cite"; lit "--help"]
       (Sample.withFile "not json") = Exit 1%Z s'
     /\ configFile s' = Some (lit "not json"))
  /\ (exists s',
        Cli.parseArguments (Sample.jsonEnv None) [lit "10.1000/xyz123"]
          (Sample.withFile "not json") = Exit 1%Z s'
        /\ configFile s' = Some (lit "not json")).
Proof.
  apply (unreadable_config_ends_every_run (Sample.jsonEnv None)
           [lit "node"; lit "cite"; lit "--help"] [lit "10.1000/xyz123"]
           (Sample.withFile "not json") (lit "not json"));
    [ reflexivity | left; reflexivity | reflexivity
    | right; split; [reflexivity | eexists; vm_compute; reflexivity] ].
Defined.

(** ** [config reset], [config <key>] and the end of the subcommand *)

Lemma resetConfig_exits (env : Env) (s : State) :
  exists s',
    Cli.resetConfig env s = Exit 0%Z s'
    /\ configFile s'
       = (if configDir s
          then match writeFault env with
               | None => Some (JSON_stringify2 env (VObj []))
               | Some _ => configFile s
               end
          else configFile s).
Proof.
  unfold Cli.resetConfig, bind, tryCatch, Cli.writeFileSync.
  destruct (writeFault env) as [e|].
  - eexists. split; [reflexivity|]. simpl. now destruct (configDir s).
  - destruct (configDir s); eexists; (split; [reflexivity|]); reflexivity.
Qed.

Lemma handleConfig_reset (env : Env) (node script : jstr) (s : State) :
  Cli.handleConfig env [node; script; lit "config"; lit "reset"] s
  = bind (Cli.getConfigFile env) (fun _ => Cli.resetConfig env) s.
Proof.
  unfold Cli.handleConfig, bind.
  destruct (Cli.getConfigFile env s) as [config s1|e s1|code s1]; reflexivity.
Qed.

(** X16. [config reset], once the configuration has loaded, ends with exit
    code 0; it replaces the file by the empty object when the write
    succeeds and leaves it as it was when the write fails. *)
Theorem config_reset_empties_the_file
    (env : Env) (node script : jstr) (s : State) (config : val) (s1 : State) :
  Cli.getConfigFile env s = Ret config s1 ->
  configDir s1 = true ->
  exists s',
    Cli.handleConfig env [node; script; lit "config"; lit "reset"] s = Exit 0%Z s'
    /\ configFile s'
       = match writeFault env with
         | None => Some (JSON_stringify2 env (VObj []))
         | Some _ => configFile s
         end.
Proof.
  intros G Hd.
  rewrite handleConfig_reset, (bind_Ret _ _ _ _ _ G).
  destruct (resetConfig_exits env s1) as (s' & E & F).
  exists s'. split; [exact E|]. rewrite F, Hd.
  pose proof (getConfigFile_keeps_file env s) as K. rewrite G in K.
  destruct (writeFault env); [exact K | reflexivity].
Qed.

Lemma config_reset_empties_the_file_witness :
  exists s',
    Cli.handleConfig (Sample.jsonEnv None)
      [lit "node"; lit "cite"; lit "config"; lit "reset"] (Sample.withFile "[]")
    = Exit 0%Z s'
    /\ configFile s' = Some (lit "{}").
Proof.
  refine (config_reset_empties_the_file (Sample.jsonEnv None) (lit "node") (lit "cite")
            (Sample.withFile "[]") (VArr [])
            (with_cachedConfig (with_configDir (Sample.withFile "[]") true) (VArr []))
            _ _);
    vm_compute; reflexivity.
Defined.

Lemma handleConfig_key_only (env : Env) (node script key : jstr) (s : State) :
  In key [lit "style"; lit "locale"; lit "format"; lit "intext"] ->
  Cli.handleConfig env [node; script; lit "config"; key] s
  = bind (Cli.getConfigFile env) (fun config => Cli.retrieveConfig env config key) s.
Proof.
  intros Hin. unfold Cli.handleConfig, bind.
  destruct (Cli.getConfigFile env s) as [config s1|e s1|code s1]; try reflexivity.
  repeat (destruct Hin as [<-|Hin]; [reflexivity|]). contradiction.
Qed.

(** X17. [config <key>] for one of the four keys, once the configuration
    has loaded as a value that is not [null], ends with exit code 0 and
    changes no file: a key with a truthy value is printed as
    [key = value] on standard output, any other key is reported as not
    found on standard error. *)
Theorem config_read_prints_and_keeps_the_file
    (env : Env) (node script key : jstr) (s : State) (config : val) (s1 : State) :
  In key [lit "style"; lit "locale"; lit "format"; lit "intext"] ->
  Cli.getConfigFile env s = Ret config s1 ->
  nullish config = false ->
  exists s',
    Cli.handleConfig env [node; script; lit "config"; key] s = Exit 0%Z s'
    /\ configFile s' = configFile s
    /\ (if truthy (prop config key)
        then stdout s' = stdout s1
                           ++ [FONT.YELLOW ++ key ++ lit " = "
                                 ++ ToString env (prop config key)
                                 ++ FONT.RESET ++ LF ++ LF]
             /\ stderr s' = stderr s1
        else stderr s' = stderr s1
                           ++ [FONT.RED ++ lit "Key " ++ DQ ++ key ++ DQ
                                 ++ lit " not found." ++ FONT.RESET ++ LF ++ LF]
             /\ stdout s' = stdout s1).
Proof.
  intros Hin G Hn.
  rewrite (handleConfig_key_only env node script key s Hin), (bind_Ret _ _ _ _ _ G).
  pose proof (getConfigFile_keeps_file env s) as K. rewrite G in K.
  unfold Cli.retrieveConfig, bind, getProp. rewrite Hn. cbn [lift ret].
  destruct (truthy (prop config key)); eexists;
    (split; [reflexivity|]); (split; [exact K|]); split; reflexivity.
Qed.

Lemma config_read_prints_and_keeps_the_file_witness :
  exists s',
    Cli.handleConfig (Sample.jsonEnv None)
      [lit "node"; lit "cite"; lit "config"; lit "style"] (Sample.withFile "{}")
    = Exit 0%Z s'
    /\ configFile s' = Some (lit "{}")
    /\ stderr s' = [FONT.RED ++ lit "Key " ++ DQ ++ lit "style" ++ DQ
                      ++ lit " not found." ++ FONT.RESET ++ LF ++ LF]
    /\ stdout s' = [].
Proof.
  destruct (config_read_prints_and_keeps_the_file (Sample.jsonEnv None)
              (lit "node") (lit "cite") (lit "style") (Sample.withFile "{}") (VObj [])
              (with_cachedConfig (with_configDir (Sample.withFile "{}") true) (VObj [])))
    as (s' & E & F & H);
    [simpl; auto | vm_compute; reflexivity | reflexivity |].
  exists s'. split; [exact E|]. split; [exact F|]. exact H.
Defined.

Lemma updateConfig_ends (env : Env) (config : val) (key value : jstr) (s : State) :
  match Cli.updateConfig env config key value s with
  | Ret _ _ => False
  | Throw _ _ => True
  | Exit code _ => code = 0%Z \/ code = 1%Z
  end.
Proof.
  unfold Cli.updateConfig, bind at 1, when.
  destruct (jstr_eqb key (lit "format") && negb (test Cli.formats value))%bool;
    [right; reflexivity|].
  cbn [ret]. unfold bind at 1.
  destruct (setProp config key (VStr value)) as [e|config']; [exact I|].
  cbn [lift ret]. unfold bind, tryCatch, Cli.writeFileSync.
  destruct (writeFault env); [left; reflexivity|].
  destruct (configDir s); left; reflexivity.
Qed.

Lemma retrieveConfig_ends (env : Env) (config : val) (key : jstr) (s : State) :
  match Cli.retrieveConfig env config key s with
  | Ret _ _ => False
  | Throw _ _ => True
  | Exit code _ => code = 0%Z \/ code = 1%Z
  end.
Proof.
  unfold Cli.retrieveConfig, bind.
  destruct (getProp config key) as [e|current]; [exact I|].
  cbn [lift ret]. destruct (truthy current); left; reflexivity.
Qed.

(** X18. The [config] subcommand never returns to the rest of the
    program: whatever follows the word [config], the process ends there,
    with exit code 0 or 1. *)
Theorem config_subcommand_ends_the_process
    (env : Env) (node script : jstr) (rest : list jstr) (s : State) :
  exitCode (Cli.handleConfig env (node :: script :: lit "config" :: rest) s) = Some 0%Z
  \/ exitCode (Cli.handleConfig env (node :: script :: lit "config" :: rest) s)
     = Some 1%Z.
Proof.
  assert (H : match Cli.handleConfig env (node :: script :: lit "config" :: rest) s with
              | Ret _ _ => False
              | Throw _ _ => True
              | Exit code _ => code = 0%Z \/ code = 1%Z
              end).
  { unfold Cli.handleConfig, bind at 1.
    pose proof (getConfigFile_keeps_file env s) as K.
    destruct (Cli.getConfigFile env s) as [config s1|e s1|code s1];
      [|exact I|destruct K as [-> _]; right; reflexivity].
    set (argv := node :: script :: lit "config" :: rest).
    change (nth_error argv 2) with (Some (lit "config")).
    cbv beta iota.
    change (jstr_eqb (lit "config") (lit "config")) with true. cbn [negb].
    cbv beta iota.
    assert (Husage : forall t,
               match bind (stderr_write t) (fun _ => @exit unit 1%Z) s1 with
               | Ret _ _ => False
               | Throw _ _ => True
               | Exit code _ => code = 0%Z \/ code = 1%Z
               end) by (intros t; right; reflexivity).
    destruct (present (nth_error argv 3)) as [key|]; [|apply Husage].
    match goal with |- context [if ?b then _ else _] => destruct b end;
      [apply Husage|].
    destruct (negb (test Cli.validKeys key)); [apply Husage|].
    destruct (jstr_eqb key (lit "reset")).
    - destruct (resetConfig_exits env s1) as (s' & -> & _). now left.
    - destruct (present (nth_error argv 4)) as [value|].
      + apply updateConfig_ends.
      + apply retrieveConfig_ends. }
  destruct (Cli.handleConfig env (node :: script :: lit "config" :: rest) s)
    as [a s1|e s1|code s1]; simpl; [contradiction | now right |].
  destruct H as [->| ->]; auto.
Qed.

(** ** Arguments *)

Lemma option_needs_dash (a : jstr) (r : re) :
  In r [Cli.regex_logErrors; Cli.regex_showIntext; Cli.regex_dontShowIntext;
        Cli.regex_style; Cli.regex_locale; Cli.regex_format] ->
  startsWith a (lit "-") = false ->
  test r a = false.
Proof.
  intros Hr Ha. destruct a as [|c rest].
  - repeat (destruct Hr as [<-|Hr]; [reflexivity|]). contradiction.
  - change (lit "-") with [45] in Ha. cbn [startsWith] in Ha.
    rewrite andb_true_r in Ha.
    cbn [test].
    repeat (destruct Hr as [<-|Hr];
            [apply void_sound;
             unfold Cli.regex_logErrors, Cli.regex_showIntext, Cli.regex_dontShowIntext,
               Cli.regex_style, Cli.regex_locale, Cli.regex_format,
               Cli.optionPattern, Cli.dashes, Rep;
             cbn [Times UpTo Opt deriv nullable andb orb];
             change (ch "-") with 45; rewrite Ha; reflexivity|]).
    contradiction.
Qed.

Lemma parseLoop_plain (args : list jstr) : forall acc,
  Forall (fun a => startsWith a (lit "-") = false) args ->
  Cli.parseLoop args acc
  = {| Cli.arg_identifiers := Cli.arg_identifiers acc ++ map Cli.unescape args;
       Cli.arg_style := Cli.arg_style acc; Cli.arg_locale := Cli.arg_locale acc;
       Cli.arg_format := Cli.arg_format acc;
       Cli.arg_showIntext := Cli.arg_showIntext acc;
       Cli.arg_logErrors := Cli.arg_logErrors acc |}.
Proof.
  induction args as [|a args IH]; intros acc Hall.
  - destruct acc. simpl. now rewrite app_nil_r.
  - inversion Hall as [|? ? Ha Hrest]; subst.
    cbn [Cli.parseLoop].
    rewrite !(option_needs_dash a) by (assumption || (simpl; auto 10)).
    cbn [andb]. rewrite Ha. cbn [negb].
    rewrite (IH _ Hrest). cbn [Cli.arg_identifiers Cli.arg_style Cli.arg_locale
                                Cli.arg_format Cli.arg_showIntext Cli.arg_logErrors map].
    now rewrite <- app_assoc.
Qed.

(** X19. When no argument begins with a dash, every argument is an
    identifier, in the order given and with its first backslash-hyphen
    turned into a hyphen; style, locale, format and in-text are the
    configured values, or [apa], [en-US], [text] and off where the
    configuration has none; errors are not logged. *)
Theorem plain_arguments_are_identifiers
    (env : Env) (args : list jstr) (s : State) (config : val) (s1 : State) :
  Cli.getConfigFile env s = Ret config s1 ->
  nullish config = false ->
  Forall (fun a => startsWith a (lit "-") = false) args ->
  Cli.parseArguments env args s
  = Ret {| Cli.arg_identifiers := map Cli.unescape args;
           Cli.arg_style := Cli.orDefault (prop config (lit "style")) "apa";
           Cli.arg_locale := Cli.orDefault (prop config (lit "locale")) "en-US";
           Cli.arg_format := Cli.orDefault (prop config (lit "format")) "text";
           Cli.arg_showIntext := isStr (lit "true") (prop config (lit "intext"));
           Cli.arg_logErrors := false |} s1.
Proof.
  intros G Hn Hall.
  unfold Cli.parseArguments. rewrite (bind_Ret _ _ _ _ _ G).
  unfold bind, getProp. rewrite Hn. cbn [lift ret].
  now rewrite (parseLoop_plain args _ Hall).
Qed.

Lemma plain_arguments_are_identifiers_witness :
  Cli.parseArguments (Sample.jsonEnv None) [lit "10.1000/xyz123"; [92; 45; 49]]
    (Sample.withFile "{}")
  = Ret {| Cli.arg_identifiers := [lit "10.1000/xyz123"; lit "-1"];
           Cli.arg_style := VStr (lit "apa");
           Cli.arg_locale := VStr (lit "en-US");
           Cli.arg_format := VStr (lit "text");
           Cli.arg_showIntext := false;
           Cli.arg_logErrors := false |}
        (with_cachedConfig (with_configDir (Sample.withFile "{}") true) (VObj [])).
Proof.
  apply (plain_arguments_are_identifiers (Sample.jsonEnv None)
           [lit "10.1000/xyz123"; [92; 45; 49]] (Sample.withFile "{}") (VObj [])
           (with_cachedConfig (with_configDir (Sample.withFile "{}") true) (VObj [])));
    [vm_compute; reflexivity | reflexivity | repeat constructor].
Defined.

(** ** From [config] to the next run *)

Lemma jstr_eqb_refl (k : jstr) : jstr_eqb k k = true.
Proof. unfold jstr_eqb. destruct (list_eq_dec N.eq_dec k k); congruence. Qed.

Lemma prop_setAssoc (k : jstr) (v : val) (props : list (jstr * val)) :
  prop (VObj (setAssoc k v props)) k = v.
Proof.
  unfold prop. induction props as [|[k' v'] props IH]; simpl.
  - now rewrite jstr_eqb_refl.
  - destruct (jstr_eqb k k') eqn:E; simpl.
    + now rewrite jstr_eqb_refl.
    + rewrite E. exact IH.
Qed.

Lemma handleConfig_update (env : Env) (node script key value : jstr) (s : State) :
  In key [lit "style"; lit "locale"; lit "format"; lit "intext"] ->
  value <> [] ->
  startsWith value (lit "-") = false ->
  Cli.handleConfig env [node; script; lit "config"; key; value] s
  = bind (Cli.getConfigFile env)
         (fun config => Cli.updateConfig env config key value) s.
Proof.
  intros Hin Hne Hdash. destruct value as [|c v]; [contradiction|].
  unfold Cli.handleConfig, bind.
  destruct (Cli.getConfigFile env s) as [config s1|e s1|code s1]; try reflexivity.
  cbn [nth_error present isEmpty]. rewrite Hdash.
  repeat (destruct Hin as [<-|Hin]; [reflexivity|]). contradiction.
Qed.

Lemma updateConfig_writes (env : Env) (props : list (jstr * val))
    (key value : jstr) (s : State) :
  (key = lit "format" -> test Cli.formats value = true) ->
  writeFault env = None ->
  configDir s = true ->
  exists s',
    Cli.updateConfig env (VObj props) key value s = Exit 0%Z s'
    /\ configFile s' = Some (JSON_stringify2 env (VObj (setAssoc key (VStr value) props))).
Proof.
  intros Hvalid Hwrite Hdir.
  unfold Cli.updateConfig, bind at 1, when.
  assert (E : (jstr_eqb key (lit "format") && negb (test Cli.formats value))%bool = false).
  { unfold jstr_eqb. destruct (list_eq_dec N.eq_dec key (lit "format")) as [Ek|_];
      [|reflexivity].
    now rewrite (Hvalid Ek). }
  rewrite E. cbn [ret]. unfold bind at 1. cbn [setProp lift ret].
  unfold bind, tryCatch, Cli.writeFileSync. rewrite Hwrite, Hdir.
  eexists. split; reflexivity.
Qed.

(** X20. A style, locale or format set with [config <key> <value>] is what
    the next run uses when no option overrides it, provided the first run
    could load and write the configuration and the file it wrote parses
    back to the object it was written from. *)
Theorem configured_value_is_the_next_default
    (env : Env) (node script key value : jstr) (s : State)
    (props : list (jstr * val)) (next : State) (args : list jstr) :
  In key [lit "style"; lit "locale"; lit "format"] ->
  value <> [] ->
  startsWith value (lit "-") = false ->
  (key = lit "format" -> test Cli.formats value = true) ->
  cachedConfig s = VNull ->
  configDir s = true \/ mkdirFault env = None ->
  readFault env = None ->
  match configFile s with
  | None => props = []
  | Some content => JSON_parse env content = inr (VObj props)
  end ->
  writeFault env = None ->
  JSON_parse env (JSON_stringify2 env (VObj (setAssoc key (VStr value) props)))
  = inr (VObj (setAssoc key (VStr value) props)) ->
  cachedConfig next = VNull ->
  configDir next = true \/ mkdirFault env = None ->
  configFile next
  = configFile (finalState
                  (Cli.handleConfig env [node; script; lit "config"; key; value] s)) ->
  Forall (fun a => startsWith a (lit "-") = false) args ->
  exists parsed s',
    Cli.parseArguments env args next = Ret parsed s'
    /\ (key = lit "style" -> Cli.arg_style parsed = VStr value)
    /\ (key = lit "locale" -> Cli.arg_locale parsed = VStr value)
    /\ (key = lit "format" -> Cli.arg_format parsed = VStr value).
Proof.
  intros Hkey Hne Hdash Hvalid Hcache Hdir Hread Hload Hwrite Hround Hcache' Hdir' Hfile Hargs.
  assert (Hkey4 : In key [lit "style"; lit "locale"; lit "format"; lit "intext"])
    by (simpl in *; intuition auto).
  assert (G : Cli.getConfigFile env s
              = Ret (VObj props)
                  (with_cachedConfig (with_configDir s true) (VObj props))).
  { rewrite (getConfigFile_at_start env s Hcache Hdir), Hread.
    destruct (configFile s) as [content|]; [now rewrite Hload | now subst]. }
  rewrite (handleConfig_update env node script key value s Hkey4 Hne Hdash) in Hfile.
  rewrite (bind_Ret _ _ _ _ _ G) in Hfile.
  destruct (updateConfig_writes env props key value
              (with_cachedConfig (with_configDir s true) (VObj props))
              Hvalid Hwrite eq_refl) as (s1 & E & F).
  rewrite E in Hfile. cbn [finalState] in Hfile. rewrite F in Hfile.
  assert (G' : Cli.getConfigFile env next
               = Ret (VObj (setAssoc key (VStr value) props))
                   (with_cachedConfig (with_configDir next true)
                      (VObj (setAssoc key (VStr value) props)))).
  { rewrite (getConfigFile_at_start env next Hcache' Hdir'), Hfile, Hread, Hround.
    reflexivity. }
  unfold Cli.parseArguments. rewrite (bind_Ret _ _ _ _ _ G').
  unfold bind, getProp. cbn [nullish lift ret].
  rewrite (parseLoop_plain args _ Hargs).
  eexists. eexists. split; [reflexivity|].
  assert (Hv : Cli.orDefault (VStr value) = fun _ => VStr value).
  { unfold Cli.orDefault. destruct value; [contradiction | reflexivity]. }
  cbn [Cli.arg_style Cli.arg_locale Cli.arg_format].
  repeat split; intros ->; now rewrite prop_setAssoc, Hv.
Qed.

Lemma configured_value_is_the_next_default_witness :
  exists parsed s',
    Cli.parseArguments Sample.diskEnv [lit "10.1000/xyz123"]
      (with_configFile Sample.fresh (Some Sample.mlaFile))
    = Ret parsed s'
    /\ (lit "style" = lit "style" -> Cli.arg_style parsed = VStr (lit "mla"))
    /\ (lit "style" = lit "locale" -> Cli.arg_locale parsed = VStr (lit "mla"))
    /\ (lit "style" = lit "format" -> Cli.arg_format parsed = VStr (lit "mla")).
Proof.
  apply (configured_value_is_the_next_default Sample.diskEnv
           (lit "node") (lit "cite") (lit "style") (lit "mla") Sample.fresh []
           (with_configFile Sample.fresh (Some Sample.mlaFile))
           [lit "10.1000/xyz123"]);
    try reflexivity; try (left; reflexivity);
    try discriminate; try (repeat constructor).
Defined.

(** ** Rendering from the command line *)

(** X21. When the style or the locale file cannot be retrieved or the
    engine throws, [formatBibliography] does not return [null]: taking the
    [null] of [toBibliography] apart as a pair throws a [TypeError], which
    nothing in [main] catches. *)
Theorem failed_rendering_rejects
    (env : Env) (content : list val) (options : Cli.FormatOptions) (s : State) :
  retrievalFails env
    (styleUrl {| CSLJsonParser.style := Some (Cli.style options);
                 CSLJsonParser.locale := Some (Cli.locale options);
                 CSLJsonParser.format := Some (Cli.format options) |})
  \/ retrievalFails env
       (localeUrl {| CSLJsonParser.style := Some (Cli.style options);
                     CSLJsonParser.locale := Some (Cli.locale options);
                     CSLJsonParser.format := Some (Cli.format options) |})
  \/ engineThrows env
       {| CSLJsonParser.style := Some (Cli.style options);
          CSLJsonParser.locale := Some (Cli.locale options);
          CSLJsonParser.format := Some (Cli.format options) |}
       (with_cslJson s content) ->
  exists s',
    Cli.formatBibliography env content options s
    = Throw (TypeError "object is not iterable") s'.
Proof.
  intros Hfail.
  destruct (toBibliography_string_needs_all env
              {| CSLJsonParser.logErrors := Cli.logErrors options |}
              {| CSLJsonParser.style := Some (Cli.style options);
                 CSLJsonParser.locale := Some (Cli.locale options);
                 CSLJsonParser.format := Some (Cli.format options) |}
              (with_cslJson s content))
    as (r & s' & E & _ & H).
  assert (Hr : r = VNull).
  { destruct H as [H|(c & l & refs & j & Hs & Hs404 & Hl & Hl404 & Hc & _)];
      [exact H|exfalso].
    destruct Hfail as [Hf|[Hf|Hf]].
    - unfold retrievalFails in Hf. rewrite Hs in Hf. congruence.
    - unfold retrievalFails in Hf. rewrite Hl in Hf. congruence.
    - destruct (Hf c l Hs Hl) as [e He]. congruence. }
  subst r. exists s'.
  unfold Cli.formatBibliography, bind at 1, modify.
  rewrite (bind_Ret _ _ _ _ _ E). reflexivity.
Qed.

Lemma failed_rendering_rejects_witness :
  exists s',
    Cli.formatBibliography Sample.styleMissing [Sample.oneRecord] Sample.apaText
      Sample.fresh
    = Throw (TypeError "object is not iterable") s'.
Proof.
  apply (failed_rendering_rejects Sample.styleMissing [Sample.oneRecord]
           Sample.apaText Sample.fresh).
  left. vm_compute. reflexivity.
Defined.

(** ** The partitions of [main] *)

Lemma partitionIdentifiers_from (l : list (IdentifierType * jstr)) :
  forall defined nonDefined,
    fold_left
      (fun '(defined, nonDefined) id =>
         match fst id with
         | Undefined => (defined, nonDefined ++ [id])
         | _ => (defined ++ [id], nonDefined)
         end) l (defined, nonDefined)
    = (defined ++ filter (fun id => negb (isUndefined (fst id))) l,
       nonDefined ++ filter (fun id => isUndefined (fst id)) l).
Proof.
  induction l as [|id l IH]; intros defined nonDefined.
  - simpl. now rewrite !app_nil_r.
  - cbn [fold_left filter]. destruct (fst id); cbn [isUndefined negb];
      rewrite IH, <- app_assoc; reflexivity.
Qed.

(** X22. Of the arguments that [main] classifies, those the classifier
    gives a type are the ones looked up and the others the ones reported
    as unknown: each argument is in exactly one of the two lists, with the
    type and the trimmed value the classifier gave it, in the order of the
    command line. *)
Theorem identifiers_are_split_by_type (identifiers : list jstr) :
  Cli.partitionIdentifiers (map recognizeIdentifierType identifiers)
  = (filter (fun id => negb (isUndefined (fst id)))
       (map recognizeIdentifierType identifiers),
     filter (fun id => isUndefined (fst id))
       (map recognizeIdentifierType identifiers)).
Proof.
  unfold Cli.partitionIdentifiers. now rewrite partitionIdentifiers_from.
Qed.

Lemma run_returns_object (env : Env) (options : CSLJsonParser.Options)
    (c : call) (s : State) (r : val) (s' : State) :
  run env options c s = Ret r s' -> exists props, r = VObj props.
Proof.
  intros E. destruct (isFailed r) eqn:F.
  - destruct r; try discriminate F. eauto.
  - assert (H : stamped env r).
    { destruct c; simpl in E.
      - exact (fromDOI_stamps env options _ _ _ _ E F).
      - exact (fromURL_stamps env options _ _ _ _ E F).
      - exact (fromISBN_stamps env options _ _ _ _ E F).
      - exact (fromPMID_stamps env options _ _ _ _ E F).
      - exact (fromPMCID_stamps env options _ _ _ _ E F). }
    destruct H as [(id & Hid & _) _].
    destruct r; try discriminate Hid. eauto.
Qed.

Lemma partitionContent_objects (contentArray : list val) :
  Forall (fun r => exists props, r = VObj props) contentArray ->
  forall failures successes,
    Cli.partitionContent contentArray (failures, successes)
    = inr (failures ++ filter isFailed contentArray,
           successes ++ filter (fun r => negb (isFailed r)) contentArray).
Proof.
  induction 1 as [|r l [props ->] _ IH]; intros failures successes.
  - simpl. now rewrite !app_nil_r.
  - cbn [Cli.partitionContent filter].
    unfold isFailed, optProp. cbn [hasProp nullish].
    destruct (assoc (lit "status") props) eqn:A; cbn [andb negb].
    + destruct (isStr (lit "failed") (prop (VObj props) (lit "status")));
        cbn [negb]; rewrite IH, <- app_assoc; reflexivity.
    + rewrite IH, <- app_assoc. reflexivity.
Qed.

(** X23. On what adapter calls returned, the second partition of [main]
    does not throw: the failure markers go to one list and the records to
    the other, none is lost and each list keeps the order of the calls. *)
Theorem adapter_results_are_split
    (env : Env) (options : CSLJsonParser.Options) (contentArray : list val) :
  Forall (fun r => exists c s s', run env options c s = Ret r s') contentArray ->
  Cli.partitionContent contentArray ([], [])
  = inr (filter isFailed contentArray,
         filter (fun r => negb (isFailed r)) contentArray).
Proof.
  intros H.
  apply (partitionContent_objects contentArray).
  eapply Forall_impl; [|exact H].
  intros r (c & s & s' & E). exact (run_returns_object env options c s r s' E).
Qed.

Lemma adapter_results_are_split_witness :
  Cli.partitionContent
    [FailureMarker (lit "abcdefghijklmnop") (VStr (lit "10.1000/xyz123")) "DOI"] ([], [])
  = inr ([FailureMarker (lit "abcdefghijklmnop") (VStr (lit "10.1000/xyz123")) "DOI"], []).
Proof.
  apply (adapter_results_are_split Sample.offline Sample.silent
           [FailureMarker (lit "abcdefghijklmnop") (VStr (lit "10.1000/xyz123")) "DOI"]).
  constructor; [|constructor].
  exists (CallDOI (VStr (lit "10.1000/xyz123"))), Sample.fresh.
  eexists. vm_compute. reflexivity.
Defined.

(** ** Identifiers found on a page *)

Lemma lang_nullable (r : re) (s : jstr) : lang r s -> s = [] -> nullable r = true.
Proof.
  induction 1 as [| | a b s1 s2 _ IH1 _ IH2 | a b s _ IH | a b s _ IH | |];
    intros E; cbn [nullable]; try discriminate; try reflexivity.
  - apply app_eq_nil in E. destruct E. now rewrite IH1, IH2.
  - now rewrite IH.
  - rewrite IH by assumption. apply orb_true_r.
Qed.

Lemma lang_deriv (r : re) (t : jstr) :
  lang r t -> forall c s, t = c :: s -> lang (deriv c r) s.
Proof.
  induction 1 as [| p c0 Hp | a b s1 s2 Ha IH1 Hb IH2 | a b s0 _ IH | a b s0 _ IH
                 | | a s1 s2 Ha IH1 Hs IH2];
    intros c s E; cbn [deriv]; try discriminate.
  - injection E as -> <-. rewrite Hp. constructor.
  - destruct s1 as [|c1 s1].
    + rewrite (lang_nullable a [] Ha eq_refl). apply lang_Alt_r. now apply IH2.
    + injection E as -> <-.
      destruct (nullable a); [apply lang_Alt_l|]; (apply lang_Cat; [now apply IH1 | exact Hb]).
  - apply lang_Alt_l. now apply IH.
  - apply lang_Alt_r. now apply IH.
  - destruct s1 as [|c1 s1].
    + now apply IH2.
    + injection E as -> <-. apply lang_Cat; [now apply IH1 | exact Hs].
Qed.

Lemma lang_test (s : jstr) : forall r, lang r s -> test r s = true.
Proof.
  induction s as [|c s IH]; intros r H; cbn [test].
  - exact (lang_nullable r [] H eq_refl).
  - apply IH. exact (lang_deriv r (c :: s) H c s eq_refl).
Qed.

Lemma lang_Str_refl (l : jstr) : lang (Str l) l.
Proof.
  induction l as [|c l IH]; cbn [Str]; [constructor|].
  apply (@lang_Cat _ _ [c] l); [constructor; apply N.eqb_refl | exact IH].
Qed.

Lemma lang_Star_class (p : char -> bool) (s : jstr) :
  forallb p s = true -> lang (Star (Chr p)) s.
Proof.
  induction s as [|c s IH]; cbn [forallb]; intros H; [constructor|].
  apply andb_true_iff in H as [Hc Hs].
  apply (@lang_Star_cons _ [c] s); [now constructor | now apply IH].
Qed.

Lemma takeWhile_all (p : char -> bool) (s : jstr) : forallb p (takeWhile p s) = true.
Proof.
  induction s as [|c s IH]; cbn [takeWhile]; [reflexivity|].
  destruct (p c) eqn:E; [|reflexivity]. cbn [forallb]. now rewrite E, IH.
Qed.

Lemma matchLitPlus_shape (l : jstr) (cls : char -> bool) (s m : jstr) :
  matchLitPlus l cls s = Some m ->
  exists c run, m = l ++ c :: run /\ forallb cls (c :: run) = true.
Proof.
  induction s as [|c0 s IH]; cbn [matchLitPlus]; intros H.
  - destruct (startsWith [] l); [|discriminate].
    assert (A := takeWhile_all cls (skipn (List.length l) [])).
    destruct (takeWhile cls (skipn (List.length l) [])) as [|c run]; [discriminate|].
    injection H as <-. eauto.
  - destruct (startsWith (c0 :: s) l).
    + assert (A := takeWhile_all cls (skipn (List.length l) (c0 :: s))).
      destruct (takeWhile cls (skipn (List.length l) (c0 :: s))) as [|c run];
        [now apply IH|].
      injection H as <-. eauto.
    + now apply IH.
Qed.

Lemma digit_is_plain (c : char) :
  digit c = true -> isWhiteSpace c = false /\ negb (N.eqb c (ch "-")) = true.
Proof.
  unfold digit, isWhiteSpace, inRange. intros H.
  apply andb_true_iff in H as [H1 H2].
  change (ch "0") with 48 in H1. change (ch "9") with 57 in H2.
  change (ch "-") with 45.
  apply N.leb_le in H1, H2.
  assert (E : forall n, n < 48 \/ 57 < n -> N.eqb c n = false)
    by (intros n Hn; apply N.eqb_neq; lia).
  rewrite !E by lia.
  assert (L : forall n, 57 < n -> N.leb n c = false)
    by (intros n Hn; apply N.leb_gt; lia).
  rewrite (L 8192) by lia.
  assert (G : N.leb c 13 = false) by (apply N.leb_gt; lia).
  rewrite G, andb_false_r. split; reflexivity.
Qed.

Lemma trimEnd_last (s : jstr) (c : char) :
  isWhiteSpace c = false -> trimEnd (s ++ [c]) = s ++ [c].
Proof.
  intros H. unfold trimEnd. rewrite rev_app_distr. cbn [rev app trimStart].
  rewrite H. cbn [rev]. now rewrite rev_involutive.
Qed.

Lemma PMC_digits_plain (c : char) (run : jstr) :
  forallb digit (c :: run) = true ->
  trim (lit "PMC" ++ c :: run) = lit "PMC" ++ c :: run
  /\ stripHyphens (lit "PMC" ++ c :: run) = lit "PMC" ++ c :: run.
Proof.
  intros H. split.
  - unfold trim. change (trimStart (lit "PMC" ++ c :: run)) with (lit "PMC" ++ c :: run).
    destruct (exists_last (l := c :: run)) as (front & d & E); [discriminate|].
    rewrite E in *. rewrite app_assoc. apply trimEnd_last.
    rewrite forallb_app in H. apply andb_true_iff in H as [_ H].
    cbn [forallb] in H. rewrite andb_true_r in H. now apply digit_is_plain.
  - unfold stripHyphens. rewrite filter_app. f_equal.
    revert H. generalize (c :: run). intros l; induction l as [|d l IH];
      cbn [forallb filter]; intros H; [reflexivity|].
    apply andb_true_iff in H as [Hd Hl].
    destruct (digit_is_plain d Hd) as [_ ->]. now rewrite IH.
Qed.

(** X24. A PMCID is taken from a page only when the address of the page
    begins with the PubMed site, and what is taken is then [PMC] followed
    by digits: a value that the classifier reads as a PMCID and leaves
    as it is. *)
Theorem page_pmcid_is_a_pmcid
    (url : jstr) (document : Document) (doi pmid : option jstr) (pmcid : jstr) :
  CSLJsonParser.getAvailableIdentifiers url document = (doi, pmid, Some pmcid) ->
  startsWith url (lit "https://pubmed.ncbi.nlm.nih.gov") = true
  /\ recognizeIdentifierType pmcid = (PMCID, pmcid).
Proof.
  unfold CSLJsonParser.getAvailableIdentifiers.
  destruct (startsWith url (lit "https://pubmed.ncbi.nlm.nih.gov")).
  2: { cbn [CSLJsonParser.matched]. intros [= _ _ E]. }
  cbv beta iota zeta. intros [= _ _ E]. split; [reflexivity|].
  unfold CSLJsonParser.matched in E.
  destruct (matchLitPlus (lit "PMC") digit _) as [m|] eqn:M; [|discriminate].
  destruct (isEmpty m); [discriminate|]. injection E as ->.
  destruct (matchLitPlus_shape _ _ _ _ M) as (c & run & -> & Hrun).
  destruct (PMC_digits_plain c run Hrun) as [Htrim Hstrip].
  assert (H : test PMCID_pattern (stripHyphens (trim (lit "PMC" ++ c :: run))) = true).
  { rewrite Htrim, Hstrip. apply lang_test. unfold PMCID_pattern, Plus.
    apply lang_Cat; [apply lang_Str_refl|].
    apply (@lang_Cat _ _ [c] run); cbn [forallb] in Hrun;
      apply andb_true_iff in Hrun as [Hc Hr];
      [now constructor | now apply lang_Star_class]. }
  assert (Hp : In (PMCID, PMCID_pattern) patterns) by (simpl; auto).
  unfold recognizeIdentifierType.
  rewrite (matchPrefix_None_of_match _ _ _ Hp H).
  destruct (earlier_patterns_reject PMCID PMCID_pattern _
              (or_introl eq_refl) H) as (HD & HU & _).
  unfold patterns. cbn [matchPattern]. rewrite HD, HU, H. now rewrite Htrim.
Qed.

Lemma page_pmcid_is_a_pmcid_witness :
  startsWith (lit "https://pubmed.ncbi.nlm.nih.gov/31452104/")
    (lit "https://pubmed.ncbi.nlm.nih.gov") = true
  /\ recognizeIdentifierType (lit "PMC6723464") = (PMCID, lit "PMC6723464").
Proof.
  apply (page_pmcid_is_a_pmcid (lit "https://pubmed.ncbi.nlm.nih.gov/31452104/")
           {| querySelector := fun selector =>
                if jstr_eqb selector (CSLJsonParser.metaSel "name" "keywords")
                then Some (Sample.metaElement
                             (lit "pmid:31452104, PMC6723464, doi:10.1000/xyz123"))
                else None;
              querySelectorAll := fun _ => [] |}
           (Some (lit "10.1000/xyz123")) (Some (lit "31452104")) (lit "PMC6723464")).
  vm_compute. reflexivity.
Defined.

(** ** The [PMC] prefix *)

Lemma bind_same_or_both_throw {A B} (m : M A) (k1 k2 : A -> M B) (s : State) :
  (forall a s1,
     k1 a s1 = k2 a s1
     \/ exists e1 e2 s2, k1 a s1 = Throw e1 s2 /\ k2 a s1 = Throw e2 s2) ->
  bind m k1 s = bind m k2 s
  \/ exists e1 e2 s2, bind m k1 s = Throw e1 s2 /\ bind m k2 s = Throw e2 s2.
Proof.
  intros H. unfold bind. destruct (m s) as [a s1|e s1|code s1];
    [apply H | left; reflexivity | left; reflexivity].
Qed.

(** X25. [fromPMCID] takes a PMCID with or without its [PMC] prefix: with
    error logging off, both spellings end in the same state with the same
    value, except that a failure marker of [fromPMCID] itself names the
    identifier as it was passed. *)
Theorem pmc_prefix_is_optional
    (env : Env) (options : CSLJsonParser.Options) (digits : jstr) (s : State) :
  startsWith digits (lit "PMC") = false ->
  CSLJsonParser.logErrors options = false ->
  CSLJsonParser.fromPMCID env options (lit "PMC" ++ digits) s
  = CSLJsonParser.fromPMCID env options digits s
  \/ exists id s',
       CSLJsonParser.fromPMCID env options (lit "PMC" ++ digits) s
       = Ret (FailureMarker id (VStr (lit "PMC" ++ digits)) "PMCID") s'
       /\ CSLJsonParser.fromPMCID env options digits s
          = Ret (FailureMarker id (VStr digits) "PMCID") s'.
Proof.
  intros Hd Hlog.
  assert (Hcaught : forall e1 e2 s0,
            exists id s',
              CSLJsonParser.caught env options (VStr (lit "PMC" ++ digits)) "PMCID" e1 s0
              = Ret (FailureMarker id (VStr (lit "PMC" ++ digits)) "PMCID") s'
              /\ CSLJsonParser.caught env options (VStr digits) "PMCID" e2 s0
                 = Ret (FailureMarker id (VStr digits) "PMCID") s').
  { intros e1 e2 s0. unfold CSLJsonParser.caught, CSLJsonParser.failed, when.
    rewrite Hlog. eexists. eexists. split; reflexivity. }
  unfold CSLJsonParser.fromPMCID.
  assert (E1 : stripPMC (lit "PMC" ++ digits) = digits) by reflexivity.
  assert (E2 : stripPMC digits = digits) by (unfold stripPMC; now rewrite Hd).
  rewrite E1, E2. cbv zeta.
  match goal with
  | |- tryCatch ?b1 _ s = tryCatch ?b2 _ s \/ _ =>
      assert (R : b1 s = b2 s \/ exists e1 e2 s2, b1 s = Throw e1 s2 /\ b2 s = Throw e2 s2)
  end.
  { apply bind_same_or_both_throw. intros response s1.
    apply bind_same_or_both_throw. intros data s2.
    apply bind_same_or_both_throw. intros isError s3.
    destruct isError.
    - right. eexists. eexists. eexists. split; reflexivity.
    - left. reflexivity. }
  unfold tryCatch.
  match goal with
  | |- context [match ?b1 s with _ => _ end = match ?b2 s with _ => _ end] =>
      destruct R as [R|(e1 & e2 & s2 & -> & ->)];
        [rewrite R; destruct (b2 s); [left; reflexivity | right; apply Hcaught
                                      | left; reflexivity]
        |right; apply Hcaught]
  end.
Qed.

Lemma pmc_prefix_is_optional_witness :
  CSLJsonParser.fromPMCID Sample.offline Sample.silent (lit "PMC" ++ lit "6723464")
    Sample.fresh
  = CSLJsonParser.fromPMCID Sample.offline Sample.silent (lit "6723464") Sample.fresh
  \/ exists id s',
       CSLJsonParser.fromPMCID Sample.offline Sample.silent (lit "PMC" ++ lit "6723464")
         Sample.fresh
       = Ret (FailureMarker id (VStr (lit "PMC" ++ lit "6723464")) "PMCID") s'
       /\ CSLJsonParser.fromPMCID Sample.offline Sample.silent (lit "6723464") Sample.fresh
          = Ret (FailureMarker id (VStr (lit "6723464")) "PMCID") s'.
Proof.
  apply (pmc_prefix_is_optional Sample.offline Sample.silent (lit "6723464") Sample.fresh);
    reflexivity.
Defined.

(** ** The cached configuration *)

(** X26. The configuration is loaded once: after [getConfigFile] has
    returned an object, a later call in the same process returns that
    object and touches neither the file system nor the streams. *)
Theorem config_is_loaded_once (env : Env) (s : State) (config : val) (s1 : State) :
  Cli.getConfigFile env s = Ret config s1 ->
  truthy config = true ->
  Cli.getConfigFile env s1 = Ret config s1.
Proof.
  intros E Ht.
  assert (Hhit : forall s0, cachedConfig s0 = config ->
                            Cli.getConfigFile env s0 = Ret config s0).
  { intros s0 H0. unfold Cli.getConfigFile, bind, gets. now rewrite H0, Ht. }
  apply Hhit.
  revert E. unfold Cli.getConfigFile, bind, gets.
  destruct (truthy (cachedConfig s)) eqn:Hc.
  - unfold ret. now intros [= <- <-].
  - destruct (when (negb (configDir s)) (Cli.mkdirSync env) s) as [[] s2|e s2|code s2];
      try discriminate.
    destruct (configFile s2).
    + unfold tryCatch, Cli.readFileSync, lift, modify, ret, stderr_write, exit.
      destruct (readFault env); [discriminate|].
      destruct (configFile s2); [|discriminate].
      destruct (JSON_parse env _); [discriminate|].
      now intros [= <- <-].
    + unfold modify, ret. now intros [= <- <-].
Qed.

Lemma config_is_loaded_once_witness :
  Cli.getConfigFile (Sample.jsonEnv None)
    (with_cachedConfig (with_configDir (Sample.withFile "{}") true) (VObj []))
  = Ret (VObj [])
      (with_cachedConfig (with_configDir (Sample.withFile "{}") true) (VObj [])).
Proof.
  apply (config_is_loaded_once (Sample.jsonEnv None) (Sample.withFile "{}") (VObj [])
           (with_cachedConfig (with_configDir (Sample.withFile "{}") true) (VObj [])));
    vm_compute; reflexivity.
Defined.

(** ** Options that take a value *)

Lemma parseLoop_valued (opt key v : jstr) (rest : list jstr) (acc : Cli.ParsedArguments) :
  In (opt, key)
     [(lit "-s", lit "style"); (lit "--s", lit "style");
      (lit "-style", lit "style"); (lit "--style", lit "style");
      (lit "-l", lit "locale"); (lit "--l", lit "locale");
      (lit "-locale", lit "locale"); (lit "--locale", lit "locale");
      (lit "-f", lit "format"); (lit "--f", lit "format");
      (lit "-format", lit "format"); (lit "--format", lit "format")] ->
  v <> [] ->
  Cli.parseLoop (opt :: v :: rest) acc
  = Cli.parseLoop rest
      {| Cli.arg_identifiers := Cli.arg_identifiers acc;
         Cli.arg_style := if jstr_eqb key (lit "style") then VStr v
                          else Cli.arg_style acc;
         Cli.arg_locale := if jstr_eqb key (lit "locale") then VStr v
                           else Cli.arg_locale acc;
         Cli.arg_format := if jstr_eqb key (lit "format") then VStr v
                           else Cli.arg_format acc;
         Cli.arg_showIntext := Cli.arg_showIntext acc;
         Cli.arg_logErrors := Cli.arg_logErrors acc |}.
Proof.
  intros Hin Hv. destruct v as [|c v]; [contradiction|].
  cbn [Cli.parseLoop isEmpty negb].
  repeat (destruct Hin as [[= <- <-]|Hin];
          [repeat match goal with
                  | |- context [test ?r (lit ?o)] =>
                      let b := eval vm_compute in (test r (lit o)) in
                      change (test r (lit o)) with b
                  end;
           reflexivity|]).
  contradiction.
Qed.

(** X27. [-s], [-l] and [-f], written with one or two dashes and in their
    long or short form, make the argument that follows the style, locale
    or format of the run in place of the configured one, whatever that
    argument is as long as it is not empty: a value that begins with a
    dash is taken too. The two other settings keep their configured or
    default values. *)
Theorem option_value_replaces_the_configured_one
    (env : Env) (opt key v : jstr) (args : list jstr)
    (s : State) (config : val) (s1 : State) :
  In (opt, key)
     [(lit "-s", lit "style"); (lit "--s", lit "style");
      (lit "-style", lit "style"); (lit "--style", lit "style");
      (lit "-l", lit "locale"); (lit "--l", lit "locale");
      (lit "-locale", lit "locale"); (lit "--locale", lit "locale");
      (lit "-f", lit "format"); (lit "--f", lit "format");
      (lit "-format", lit "format"); (lit "--format", lit "format")] ->
  v <> [] ->
  Cli.getConfigFile env s = Ret config s1 ->
  nullish config = false ->
  Forall (fun a => startsWith a (lit "-") = false) args ->
  Cli.parseArguments env (opt :: v :: args) s
  = Ret {| Cli.arg_identifiers := map Cli.unescape args;
           Cli.arg_style := if jstr_eqb key (lit "style") then VStr v
                            else Cli.orDefault (prop config (lit "style")) "apa";
           Cli.arg_locale := if jstr_eqb key (lit "locale") then VStr v
                             else Cli.orDefault (prop config (lit "locale")) "en-US";
           Cli.arg_format := if jstr_eqb key (lit "format") then VStr v
                             else Cli.orDefault (prop config (lit "format")) "text";
           Cli.arg_showIntext := isStr (lit "true") (prop config (lit "intext"));
           Cli.arg_logErrors := false |} s1.
Proof.
  intros Hin Hv G Hn Hall.
  unfold Cli.parseArguments. rewrite (bind_Ret _ _ _ _ _ G).
  unfold bind, getProp. rewrite Hn. cbn [lift ret].
  rewrite (parseLoop_valued opt key v args _ Hin Hv).
  now rewrite (parseLoop_plain args _ Hall).
Qed.

Lemma option_value_replaces_the_configured_one_witness :
  Cli.parseArguments (Sample.jsonEnv None)
    [lit "--style"; lit "-mla"; lit "10.1000/xyz123"] (Sample.withFile "{}")
  = Ret {| Cli.arg_identifiers := [lit "10.1000/xyz123"];
           Cli.arg_style := VStr (lit "-mla");
           Cli.arg_locale := VStr (lit "en-US");
           Cli.arg_format := VStr (lit "text");
           Cli.arg_showIntext := false;
           Cli.arg_logErrors := false |}
        (with_cachedConfig (with_configDir (Sample.withFile "{}") true) (VObj [])).
Proof.
  apply (option_value_replaces_the_configured_one (Sample.jsonEnv None)
           (lit "--style") (lit "style") (lit "-mla") [lit "10.1000/xyz123"]
           (Sample.withFile "{}") (VObj [])
           (with_cachedConfig (with_configDir (Sample.withFile "{}") true) (VObj [])));
    [simpl; auto | discriminate | vm_compute; reflexivity | reflexivity
    | repeat constructor].
Defined.
